(** * A shallow embedding of the file-processing worker (main.go)

    The worker scans work folders named [r_<id>], hashes every file of a
    folder with a bounded number of concurrent tasks, writes the sorted
    results to [log.json] through [log.tmp], and renames the folder to
    [d_<id>] or [f_<id>].

    Layout of this development:
    - [Text], [hex], [md5], [Clock]: the functions of the Go standard library
      that the code computes with ([strings.HasPrefix], [strings.TrimPrefix],
      [strings.SplitN], [hex.EncodeToString], [crypto/md5], [time.Format]);
    - [LogEntry], the file system, [processFile];
    - [Pool]: the goroutines of [processFolder] as a step function driven by
      a schedule;
    - the [os] calls with the failures the environment injects, [sort.Slice],
      [writeLogAtomic], [renameFolderSafe], [processFolder], [processAll],
      [main];
    - the vocabulary of the properties and the example data;
    - the properties, grouped by function. [json.MarshalIndent] is a
      parameter of the development. *)

From Stdlib Require Import ZArith Lia List.
From Stdlib.Strings Require Import Ascii String Byte.
From stdpp Require Import gmap strings list sorting.

Local Open Scope Z_scope.

(** ** Text: the [strings] functions used by [renameFolderSafe] *)

Module Text.

(** [strings.HasPrefix s prefix]. *)
Fixpoint HasPrefix (s prefix : string) : bool :=
  match prefix, s with
  | EmptyString, _ => true
  | String _ _, EmptyString => false
  | String p prefix', String c s' =>
      if decide (p = c) then HasPrefix s' prefix' else false
  end.

(** Drops the first [n] characters. *)
Fixpoint skip (n : nat) (s : string) : string :=
  match n, s with
  | O, _ => s
  | S _, EmptyString => EmptyString
  | S n', String _ s' => skip n' s'
  end.

(** [strings.TrimPrefix s prefix]: [s] without the leading [prefix], or
    [s] itself when it does not start with [prefix]. *)
Definition TrimPrefix (s prefix : string) : string :=
  if HasPrefix s prefix then skip (String.length prefix) s else s.

(** The position of the first occurrence of the character [sep]:
    the text before it and the text after it. *)
Fixpoint cut (sep : ascii) (s : string) : option (string * string) :=
  match s with
  | EmptyString => None
  | String c s' =>
      if decide (c = sep) then Some (EmptyString, s')
      else match cut sep s' with
           | Some (before, after) => Some (String c before, after)
           | None => None
           end
  end.

(** [strings.SplitN s sep 2] for a one-character separator: at most two
    pieces, split at the first separator. *)
Definition SplitN2 (s : string) (sep : ascii) : list string :=
  match cut sep s with
  | Some (before, after) => [before; after]
  | None => [s]
  end.

(** Whether the character occurs in the string. *)
Fixpoint contains (sep : ascii) (s : string) : bool :=
  match s with
  | EmptyString => false
  | String c s' => if decide (c = sep) then true else contains sep s'
  end.

End Text.

(** ** Hex: [hex.EncodeToString] *)

Module hex.

(** [hextable = "0123456789abcdef"], indexed by a nibble. *)
Definition hextable (n : Z) : ascii :=
  if n <? 10 then ascii_of_nat (Z.to_nat (48 + n))
  else ascii_of_nat (Z.to_nat (97 + (n - 10))).

Definition byteZ (b : byte) : Z := Z.of_N (Byte.to_N b).

(** Two characters per byte: high nibble, then low nibble. *)
Fixpoint EncodeToString (src : list byte) : string :=
  match src with
  | [] => EmptyString
  | b :: rest =>
      String (hextable (Z.shiftr (byteZ b) 4))
        (String (hextable (Z.land (byteZ b) 15)) (EncodeToString rest))
  end.

(** A lowercase hexadecimal digit: [0-9] or [a-f]. *)
Definition is_lower_hex (c : ascii) : bool :=
  let n := Z.of_nat (nat_of_ascii c) in
  ((48 <=? n) && (n <=? 57)) || ((97 <=? n) && (n <=? 102)).

Fixpoint all_chars (p : ascii -> bool) (s : string) : bool :=
  match s with
  | EmptyString => true
  | String c s' => p c && all_chars p s'
  end.

End hex.

(** ** MD5: [crypto/md5] (RFC 1321) on 32-bit words held in [Z] *)

Module md5.

Definition w32 (x : Z) : Z := x mod 2 ^ 32.

Definition rotl (x c : Z) : Z :=
  w32 (Z.lor (Z.shiftl x c) (Z.shiftr x (32 - c))).

Definition not32 (x : Z) : Z := Z.lxor x 4294967295.

Definition K : list Z :=
  [ 3614090360; 3905402710; 606105819; 3250441966; 4118548399; 1200080426;
    2821735955; 4249261313; 1770035416; 2336552879; 4294925233; 2304563134;
    1804603682; 4254626195; 2792965006; 1236535329; 4129170786; 3225465664;
    643717713; 3921069994; 3593408605; 38016083; 3634488961; 3889429448;
    568446438; 3275163606; 4107603335; 1163531501; 2850285829; 4243563512;
    1735328473; 2368359562; 4294588738; 2272392833; 1839030562; 4259657740;
    2763975236; 1272893353; 4139469664; 3200236656; 681279174; 3936430074;
    3572445317; 76029189; 3654602809; 3873151461; 530742520; 3299628645;
    4096336452; 1126891415; 2878612391; 4237533241; 1700485571; 2399980690;
    4293915773; 2240044497; 1873313359; 4264355552; 2734768916; 1309151649;
    4149444226; 3174756917; 718787259; 3951481745 ].

Definition shifts : list Z :=
  [ 7; 12; 17; 22; 7; 12; 17; 22; 7; 12; 17; 22; 7; 12; 17; 22;
    5; 9; 14; 20; 5; 9; 14; 20; 5; 9; 14; 20; 5; 9; 14; 20;
    4; 11; 16; 23; 4; 11; 16; 23; 4; 11; 16; 23; 4; 11; 16; 23;
    6; 10; 15; 21; 6; 10; 15; 21; 6; 10; 15; 21; 6; 10; 15; 21 ].

Definition nthZ (l : list Z) (i : Z) : Z := nth (Z.to_nat i) l 0.

(** Little-endian bytes of a word and back. *)
Definition le_bytes (n : nat) (x : Z) : list Z :=
  map (fun i => Z.land (Z.shiftr x (8 * Z.of_nat i)) 255) (seq 0 n).

Fixpoint le_word (bs : list Z) : Z :=
  match bs with
  | [] => 0
  | b :: rest => b + 256 * le_word rest
  end.

Fixpoint words (n : nat) (bs : list Z) : list Z :=
  match n with
  | O => []
  | S n' => le_word (firstn 4 bs) :: words n' (skipn 4 bs)
  end.

(** Message, one [1] bit, zeros up to 56 mod 64, and the bit length. *)
Definition pad (msg : list Z) : list Z :=
  let len := Z.of_nat (length msg) in
  let zeros := (55 - len) mod 64 in
  msg ++ [128] ++ repeat 0 (Z.to_nat zeros) ++ le_bytes 8 ((8 * len) mod 2 ^ 64).

Definition state : Type := Z * Z * Z * Z.

Definition init : state := (1732584193, 4023233417, 2562383102, 271733878).

(** One of the 64 operations of a block. *)
Definition round (M : list Z) (st : state) (i : Z) : state :=
  let '(a, b, c, d) := st in
  let '(f, g) :=
    if i <? 16 then (Z.lor (Z.land b c) (Z.land (not32 b) d), i)
    else if i <? 32 then (Z.lor (Z.land d b) (Z.land (not32 d) c), (5 * i + 1) mod 16)
    else if i <? 48 then (Z.lxor (Z.lxor b c) d, (3 * i + 5) mod 16)
    else (Z.lxor c (Z.lor b (not32 d)), (7 * i) mod 16) in
  let f' := w32 (f + a + nthZ K i + nthZ M g) in
  (d, w32 (b + rotl f' (nthZ shifts i)), b, c).

Definition block (st : state) (chunk : list Z) : state :=
  let M := words 16 chunk in
  let '(a, b, c, d) := st in
  let '(a', b', c', d') :=
    fold_left (round M) (map Z.of_nat (seq 0 64)) st in
  (w32 (a + a'), w32 (b + b'), w32 (c + c'), w32 (d + d')).

Fixpoint blocks (fuel : nat) (st : state) (bs : list Z) : state :=
  match fuel, bs with
  | O, _ => st
  | _, [] => st
  | S fuel', _ => blocks fuel' (block st (firstn 64 bs)) (skipn 64 bs)
  end.

(** [md5.Sum]: the 16-byte digest. *)
Definition Sum (data : list byte) : list byte :=
  let msg := pad (map hex.byteZ data) in
  let '(a, b, c, d) := blocks (length msg) init msg in
  map (fun z => default Byte.x00 (Byte.of_N (Z.to_N z)))
      (le_bytes 4 a ++ le_bytes 4 b ++ le_bytes 4 c ++ le_bytes 4 d).

End md5.

Definition bytes_of (s : string) : list byte := list_byte_of_string s.

(** ** Clock: [time.Time] in UTC and the two layouts the code formats with

    An instant is its number of seconds since 1970-01-01T00:00:00Z; both
    layouts drop the fraction of a second. *)

Module Clock.

Definition digit (n : Z) : ascii := ascii_of_nat (Z.to_nat (48 + n)).

Fixpoint decimal_go (fuel : nat) (n : Z) (acc : string) : string :=
  match fuel with
  | O => acc
  | S fuel' =>
      let acc' := String (digit (n mod 10)) acc in
      if n <? 10 then acc' else decimal_go fuel' (n / 10) acc'
  end.

(** The decimal digits of a natural number. *)
Definition decimal (n : Z) : string :=
  decimal_go (S (Z.to_nat (Z.log2 n))) n EmptyString.

Fixpoint zeros (n : nat) : string :=
  match n with
  | O => EmptyString
  | S n' => String "0" (zeros n')
  end.

(** [appendInt x width] of package [time]: a sign for a negative number,
    then the digits padded with zeros to at least [width]. *)
Definition appendInt (x : Z) (width : nat) : string :=
  let ds := decimal (Z.abs x) in
  let sign : string := if x <? 0 then "-" else "" in
  sign +:+ zeros (width - String.length ds) +:+ ds.

(** The civil date of a day number (days since 1970-01-01), in the
    proleptic Gregorian calendar, computed on 400-year eras that start
    on the first of March. *)
Definition day_of_era (days : Z) : Z := (days + 719468) mod 146097.
Definition era (days : Z) : Z := (days + 719468) / 146097.

Definition year_of_era (doe : Z) : Z :=
  (doe - doe / 1460 + doe / 36524 - doe / 146096) / 365.

Definition day_of_year (doe : Z) : Z :=
  let yoe := year_of_era doe in
  doe - (365 * yoe + yoe / 4 - yoe / 100).

Definition month_index (doe : Z) : Z := (5 * day_of_year doe + 2) / 153.

Definition month_of (doe : Z) : Z :=
  let mp := month_index doe in
  if mp <? 10 then mp + 3 else mp - 9.

Definition day_of (doe : Z) : Z :=
  day_of_year doe - (153 * month_index doe + 2) / 5 + 1.

Definition Month (t : Z) : Z := month_of (day_of_era (t / 86400)).
Definition Day (t : Z) : Z := day_of (day_of_era (t / 86400)).
Definition Year (t : Z) : Z :=
  let days := t / 86400 in
  year_of_era (day_of_era days) + 400 * era days
  + (if Month t <=? 2 then 1 else 0).
Definition Hour (t : Z) : Z := (t mod 86400) / 3600.
Definition Minute (t : Z) : Z := ((t mod 86400) mod 3600) / 60.
Definition Second (t : Z) : Z := (t mod 86400) mod 60.

(** [t.UTC().Format(time.RFC3339)]: layout [2006-01-02T15:04:05Z07:00],
    whose zone is printed as [Z] for UTC. *)
Definition FormatRFC3339 (t : Z) : string :=
  (appendInt (Year t) 4 +:+ "-" +:+ appendInt (Month t) 2 +:+ "-" +:+
   appendInt (Day t) 2 +:+ "T" +:+ appendInt (Hour t) 2 +:+ ":" +:+
   appendInt (Minute t) 2 +:+ ":" +:+ appendInt (Second t) 2 +:+ "Z").

(** [t.UTC().Format("20060102T150405Z")]. *)
Definition FormatCompact (t : Z) : string :=
  (appendInt (Year t) 4 +:+ appendInt (Month t) 2 +:+ appendInt (Day t) 2 +:+
   "T" +:+ appendInt (Hour t) 2 +:+ appendInt (Minute t) 2 +:+
   appendInt (Second t) 2 +:+ "Z").

(** The digits [appendInt] prints for a number below 100 with width 2,
    and for a number below 10000 with width 4. *)
Definition two_digits (x : Z) : string :=
  String (digit (x / 10)) (String (digit (x mod 10)) EmptyString).

Definition four_digits (x : Z) : string :=
  String (digit (x / 1000)) (String (digit (x / 100 mod 10)) (two_digits (x mod 100))).

(** [p] holds of the [n] integers from [i] on. *)
Fixpoint forall_range (n : nat) (i : Z) (p : Z -> bool) : bool :=
  match n with
  | O => true
  | S n' => p i && forall_range n' (i + 1) p
  end.

(** Shapes of formatted instants: a digit, or a fixed character. *)
Inductive shape := Dig | Lit (c : ascii).

Definition is_digit (c : ascii) : bool :=
  let n := Z.of_nat (nat_of_ascii c) in (48 <=? n) && (n <=? 57).

Fixpoint has_shape (p : list shape) (s : string) : bool :=
  match p, s with
  | [], EmptyString => true
  | Dig :: p', String c s' => is_digit c && has_shape p' s'
  | Lit l :: p', String c s' => bool_decide (l = c) && has_shape p' s'
  | _, _ => false
  end.

(** [YYYY-MM-DDTHH:MM:SSZ]: an RFC 3339 date-time with the UTC offset [Z]. *)
Definition rfc3339_utc : list shape :=
  [Dig; Dig; Dig; Dig; Lit "-"; Dig; Dig; Lit "-"; Dig; Dig; Lit "T";
   Dig; Dig; Lit ":"; Dig; Dig; Lit ":"; Dig; Dig; Lit "Z"]%char.

Definition is_RFC3339_UTC (s : string) : bool := has_shape rfc3339_utc s.

(** [YYYYMMDDTHHMMSSZ]: the suffix of a folder name. *)
Definition compact_utc : list shape :=
  [Dig; Dig; Dig; Dig; Dig; Dig; Dig; Dig; Lit "T";
   Dig; Dig; Dig; Dig; Dig; Dig; Lit "Z"]%char.

End Clock.

(** ** Results of fallible calls *)

Inductive result (A : Type) : Type :=
  | Ok (a : A)
  | Err (msg : string).
Arguments Ok {A} a.
Arguments Err {A} msg.

(** [fmt.Errorf("<context>: %w", err)] and [fmt.Sprintf("<context>: %v", err)]:
    the context, a colon and the text of the cause. *)
Definition wrap (context cause : string) : string := context +:+ ": " +:+ cause.

(** ** The data model *)

(** [type LogEntry struct]. The fields [MD5] and [Error] are tagged
    [omitempty]: the empty string is an absent field. *)
Record LogEntry : Type := mkLogEntry {
  Filename : string;
  Status : string;
  MD5 : string;
  Error : string;
  Timestamp : string
}.

Global Instance LogEntry_eq_dec : EqDecision LogEntry.
Proof. solve_decision. Defined.

(** A field tagged [omitempty] is populated when it is not empty. *)
Definition populated (s : string) : bool := negb (bool_decide (s = EmptyString)).

(** ** FS: the part of the file system the program touches

    All paths are taken relative to the input directory: a work folder is
    named by its base name there ([filepath.Base] of such a path is the name
    itself and [filepath.Join] of its directory and a name is that name), and
    a file of a work folder by the pair of the folder's and the file's name. *)

(** What reading one regular file does: opening it may fail, streaming it
    may fail; opening and streaming take [open_time] and [read_time]
    seconds, when they return. [os.Open] never returns on a file with
    [open_blocks] (a FIFO that no writer opens), and the stream of a file
    with [read_blocks] never reaches its end. *)
Record file : Type := mkFile {
  content : list byte;
  open_error : option string;
  read_error : option string;
  open_time : Z;
  read_time : Z;
  open_blocks : bool;
  read_blocks : bool
}.

(** An entry of a work folder: a regular file or a nested directory. *)
Inductive entry : Type :=
  | RegFile (f : file)
  | SubDir.

(** An entry of the input directory: a plain file or a folder. *)
Inductive node : Type :=
  | PlainFile
  | Folder (entries : gmap string entry).

Abbreviation FS := (gmap string node).

Definition filePath : Type := string * string.

(** [filepath.Join(folder, name)]. *)
Definition Join (folder name : string) : filePath := (folder, name).

(** A file as [os.Create] leaves it and [Write] fills it. *)
Definition plain (data : list byte) : file :=
  {| content := data; open_error := None; read_error := None;
     open_time := 0; read_time := 0; open_blocks := false; read_blocks := false |}.

Definition lookup_entry (fs : FS) (p : filePath) : option entry :=
  match fs !! p.1 with
  | Some (Folder es) => es !! p.2
  | _ => None
  end.

(** An open file handle of [processFile]. *)
Inductive handle : Type :=
  | HFile (f : file)
  | HDir.

(** [os.Open], for a call that returns: the handle or the cause of the
    failure, and the instant at which the call returns. *)
Definition os_Open (fs : FS) (p : filePath) (clock : Z) : result handle * Z :=
  match lookup_entry fs p with
  | None => (Err "no such file or directory", clock)
  | Some SubDir => (Ok HDir, clock)
  | Some (RegFile f) =>
      match open_error f with
      | Some cause => (Err cause, clock + open_time f)
      | None => (Ok (HFile f), clock + open_time f)
      end
  end.

(** Whether [os.Open] never returns. *)
Definition os_Open_blocks (fs : FS) (p : filePath) : bool :=
  match lookup_entry fs p with
  | Some (RegFile f) => open_blocks f
  | _ => false
  end.

(** [hash := md5.New(); io.Copy(hash, f)] followed by [hash.Sum(nil)], for
    a copy that returns: the digest of the whole stream, or the cause of the
    read failure. *)
Definition io_Copy_md5 (h : handle) (clock : Z) : result (list byte) * Z :=
  match h with
  | HDir => (Err "is a directory", clock)
  | HFile f =>
      match read_error f with
      | Some cause => (Err cause, clock + read_time f)
      | None => (Ok (md5.Sum (content f)), clock + read_time f)
      end
  end.

(** Whether [io.Copy] never returns. *)
Definition io_Copy_blocks (h : handle) : bool :=
  match h with
  | HDir => false
  | HFile f => read_blocks f
  end.

(** ** processFile (main.go, lines 181-212)

    [clock] is the instant at which the call starts. [processFile] gives
    the record of a call that returns and the instant at which it returns;
    [processFile_blocks] tells the calls that never return, because
    [os.Open] (line 183) or [io.Copy] (line 196) does not. *)
Definition processFile (fs : FS) (fullpath : filePath) (basename : string)
    (clock : Z) : LogEntry * Z :=
  let now := Clock.FormatRFC3339 clock in
  match os_Open fs fullpath clock with
  | (Err err, clock1) =>
      ({| Filename := basename; Status := "error"; MD5 := "";
          Error := wrap "failed to open file" err; Timestamp := now |}, clock1)
  | (Ok f, clock1) =>
      match io_Copy_md5 f clock1 with
      | (Err err, clock2) =>
          ({| Filename := basename; Status := "error"; MD5 := "";
              Error := wrap "failed to read file" err; Timestamp := now |}, clock2)
      | (Ok sum, clock2) =>
          ({| Filename := basename; Status := "success";
              MD5 := hex.EncodeToString sum; Error := "";
              Timestamp := now |}, clock2)
      end
  end.

Definition processFile_blocks (fs : FS) (fullpath : filePath) (clock : Z) : bool :=
  if os_Open_blocks fs fullpath then true
  else
    match os_Open fs fullpath clock with
    | (Err _, _) => false
    | (Ok f, _) => io_Copy_blocks f
    end.

(** ** Pool: the goroutines of processFolder (main.go, lines 113-147)

    The [for] loop of the main goroutine dispatches one goroutine per file
    after acquiring a slot of [sem]; a goroutine runs [processFile], sends
    the entry on [resultsCh], releases its slot and signals the wait group.
    A goroutine whose call of [processFile] never returns stays inside it
    and keeps its slot.
    The interleaving is chosen by a schedule, a list of actions; goroutines
    at the same program point are interchangeable and are kept as
    multisets. [resultsCh] has room for every entry, so a send never blocks,
    and the main goroutine receives the entries in the order they were
    sent. *)

Module Pool.

Record state : Type := mkState {
  todo : list string;          (* files the [for] loop has not reached *)
  hashing : list string;       (* goroutines executing [processFile] *)
  computed : list LogEntry;    (* goroutines about to send their entry *)
  sent : nat;                  (* goroutines that sent, before [<-sem] *)
  released : nat;              (* goroutines before [wg.Done()] *)
  sem : nat;                   (* [len(sem)]: slots in use *)
  wg : nat;                    (* counter of the wait group *)
  resultsCh : list LogEntry    (* entries sent so far, oldest first *)
}.

Inductive action : Type :=
  | Dispatch                   (* [wg.Add(1); sem <- struct{}{}; go func] *)
  | Hash (i : nat) (clock : Z) (* the call of the [i]-th hashing goroutine returns *)
  | Send (j : nat)             (* [resultsCh <- entry] *)
  | Release                    (* deferred [<-sem] *)
  | Done.                      (* deferred [wg.Done()] *)

Definition start (files : list string) : state :=
  {| todo := files; hashing := []; computed := []; sent := 0; released := 0;
     sem := 0; wg := 0; resultsCh := [] |}.

Section Step.
Variable fs : FS.
Variable folder : string.
Variable concurrency : Z.   (* capacity of [sem] *)

Definition step (a : action) (p : state) : option state :=
  match a with
  | Dispatch =>
      match todo p with
      | f :: rest =>
          if Z.of_nat (sem p) <? concurrency
          then Some {| todo := rest; hashing := hashing p ++ [f];
                       computed := computed p; sent := sent p;
                       released := released p; sem := S (sem p);
                       wg := S (wg p); resultsCh := resultsCh p |}
          else None
      | [] => None
      end
  | Hash i clock =>
      match hashing p !! i with
      | Some fname =>
          if processFile_blocks fs (Join folder fname) clock then None
          else
            let entry := (processFile fs (Join folder fname) fname clock).1 in
            Some {| todo := todo p; hashing := delete i (hashing p);
                    computed := computed p ++ [entry]; sent := sent p;
                    released := released p; sem := sem p; wg := wg p;
                    resultsCh := resultsCh p |}
      | None => None
      end
  | Send j =>
      match computed p !! j with
      | Some entry =>
          Some {| todo := todo p; hashing := hashing p;
                  computed := delete j (computed p); sent := S (sent p);
                  released := released p; sem := sem p; wg := wg p;
                  resultsCh := resultsCh p ++ [entry] |}
      | None => None
      end
  | Release =>
      match sent p, sem p with
      | S n, S s =>
          Some {| todo := todo p; hashing := hashing p;
                  computed := computed p; sent := n;
                  released := S (released p); sem := s; wg := wg p;
                  resultsCh := resultsCh p |}
      | _, _ => None
      end
  | Done =>
      match released p, wg p with
      | S n, S w =>
          Some {| todo := todo p; hashing := hashing p;
                  computed := computed p; sent := sent p;
                  released := n; sem := sem p; wg := w;
                  resultsCh := resultsCh p |}
      | _, _ => None
      end
  end.

(** Runs a schedule; [None] when an action is not enabled. *)
Fixpoint run (sched : list action) (p : state) : option state :=
  match sched with
  | [] => Some p
  | a :: sched' =>
      match step a p with
      | Some p' => run sched' p'
      | None => None
      end
  end.

(** The loop is over and [wg.Wait()] returns: [resultsCh] is closed. *)
Definition finished (p : state) : bool :=
  bool_decide (todo p = []) && bool_decide (wg p = 0%nat).

(** The schedule that runs each file to completion before the next. *)
Fixpoint sequential (clock : Z) (n : nat) : list action :=
  match n with
  | O => []
  | S n' => [Dispatch; Hash 0 clock; Send 0; Release; Done] ++ sequential clock n'
  end.

End Step.

End Pool.

(** ** The [os] calls, with the failures the environment injects *)

(** What the environment makes fail during one run of [processFolder].
    Every call below is made at most once per run, so one field per call
    is enough. A call also fails when the state of the file system makes it
    fail. *)
Record faults : Type := mkFaults {
  readdir_fault : option string;       (* [os.ReadDir(folder)] *)
  create_fault : option string;        (* [os.Create(tmpPath)] *)
  write_fault : option (nat * string); (* [tmpFile.Write]: bytes written, cause *)
  sync_fault : option string;          (* [tmpFile.Sync()] *)
  close_fault : option string;         (* [tmpFile.Close()] *)
  publish_fault : option string;       (* [os.Rename(tmpPath, finalPath)] *)
  remove_fault : bool;                 (* [os.Remove(tmpPath)] does nothing *)
  move_fault : option string           (* [os.Rename(src, target)] *)
}.

Definition no_faults : faults :=
  {| readdir_fault := None; create_fault := None; write_fault := None;
     sync_fault := None; close_fault := None; publish_fault := None;
     remove_fault := false; move_fault := None |}.

(** [os.DirEntry]: a name and whether it is a directory. *)
Record DirEntry : Type := mkDirEntry { Name : string; IsDir : bool }.

Definition to_DirEntry (ne : string * entry) : DirEntry :=
  {| Name := ne.1;
     IsDir := match ne.2 with SubDir => true | RegFile _ => false end |}.

Definition name_le (a b : string * entry) : Prop := String.le a.1 b.1.

Global Instance name_le_dec a b : Decision (name_le a b).
Proof. unfold name_le, String.le. apply _. Defined.

(** [os.ReadDir]: the entries of the directory, sorted by filename. *)
Definition os_ReadDir (fs : FS) (flt : faults) (folder : string) : result (list DirEntry) :=
  match readdir_fault flt with
  | Some cause => Err cause
  | None =>
      match fs !! folder with
      | Some (Folder es) => Ok (to_DirEntry <$> merge_sort name_le (map_to_list es))
      | Some PlainFile => Err "not a directory"
      | None => Err "no such file or directory"
      end
  end.

Definition set_entries (fs : FS) (folder : string) (es : gmap string entry) : FS :=
  <[folder := Folder es]> fs.

(** [os.Create]: creates the file or truncates it. *)
Definition os_Create (fs : FS) (flt : faults) (p : filePath) : FS * result filePath :=
  match create_fault flt with
  | Some cause => (fs, Err cause)
  | None =>
      match fs !! p.1 with
      | Some (Folder es) =>
          match es !! p.2 with
          | Some SubDir => (fs, Err "is a directory")
          | _ => (set_entries fs p.1 (<[p.2 := RegFile (plain [])]> es), Ok p)
          end
      | _ => (fs, Err "no such file or directory")
      end
  end.

(** [File.Write]: all of [data], or a prefix of it and an error. *)
Definition file_Write (fs : FS) (flt : faults) (f : filePath) (data : list byte)
    : FS * option string :=
  match fs !! f.1 with
  | Some (Folder es) =>
      match es !! f.2 with
      | Some (RegFile _) =>
          match write_fault flt with
          | Some (n, cause) =>
              (set_entries fs f.1 (<[f.2 := RegFile (plain (take n data))]> es), Some cause)
          | None =>
              (set_entries fs f.1 (<[f.2 := RegFile (plain data)]> es), None)
          end
      | _ => (fs, Some "bad file descriptor")
      end
  | _ => (fs, Some "bad file descriptor")
  end.

(** [File.Sync] and [File.Close] leave the directory as it is. *)
Definition file_Sync (flt : faults) (f : filePath) : option string := sync_fault flt.
Definition file_Close (flt : faults) (f : filePath) : option string := close_fault flt.

(** [os.Rename] of a file of a work folder onto another name of that folder:
    a regular file replaces a regular file; a directory is never replaced. *)
Definition os_Rename_file (fs : FS) (flt : faults) (oldpath newpath : filePath)
    : FS * option string :=
  match publish_fault flt with
  | Some cause => (fs, Some cause)
  | None =>
      match fs !! oldpath.1 with
      | Some (Folder es) =>
          match es !! oldpath.2, es !! newpath.2 with
          | None, _ => (fs, Some "no such file or directory")
          | Some _, Some SubDir => (fs, Some "file exists")
          | Some SubDir, Some (RegFile _) => (fs, Some "not a directory")
          | Some e, _ =>
              (set_entries fs oldpath.1 (<[newpath.2 := e]> (delete oldpath.2 es)), None)
          end
      | _ => (fs, Some "no such file or directory")
      end
  end.

(** [os.Remove] of a file of a work folder; its error is ignored by the
    code, so only the resulting state is kept. Nested directories stay. *)
Definition os_Remove (fs : FS) (flt : faults) (p : filePath) : FS :=
  if remove_fault flt then fs
  else match fs !! p.1 with
       | Some (Folder es) =>
           match es !! p.2 with
           | Some (RegFile _) => set_entries fs p.1 (delete p.2 es)
           | _ => fs
           end
       | _ => fs
       end.

(** [os.Stat(name)] of an entry of the input directory: [err == nil]. *)
Definition os_Stat_ok (fs : FS) (name : string) : bool :=
  bool_decide (is_Some (fs !! name)).

(** [os.Rename] of an entry of the input directory. An existing directory
    is never replaced, and a directory does not replace a plain file. *)
Definition os_Rename (fs : FS) (flt : faults) (src target : string)
    : FS * option string :=
  match move_fault flt with
  | Some cause => (fs, Some cause)
  | None =>
      match fs !! src, fs !! target with
      | None, _ => (fs, Some "no such file or directory")
      | Some _, Some (Folder _) => (fs, Some "file exists")
      | Some (Folder _), Some PlainFile => (fs, Some "not a directory")
      | Some n, _ => (<[target := n]> (delete src fs), None)
      end
  end.

(** ** sort.Slice and the verdict (main.go, lines 149-159) *)

Fixpoint insert_sorted {A} (less : A -> A -> bool) (x : A) (l : list A) : list A :=
  match l with
  | [] => [x]
  | y :: l' => if less x y then x :: l else y :: insert_sorted less x l'
  end.

(** [sort.Slice(results, less)]. The library does not promise an order
    among elements that compare equal; this model keeps the order of
    arrival among them. File names of one directory are pairwise distinct,
    and then every sorting function gives this result
    ([sorted_log_unique] below). *)
Definition sort_Slice {A} (less : A -> A -> bool) (l : list A) : list A :=
  foldr (insert_sorted less) [] l.

(** [func(i, j int) bool { return results[i].Filename < results[j].Filename }]:
    Go compares strings byte by byte. *)
Definition less (a b : LogEntry) : bool := String.ltb (Filename a) (Filename b).

(** The loop that computes [allSuccess]. *)
Fixpoint allSuccess (results : list LogEntry) : bool :=
  match results with
  | [] => true
  | r :: rest =>
      if bool_decide (Status r ≠ "success") then false else allSuccess rest
  end.

(** ** The folder-level functions *)

(** How one call of [processFolder] ends. *)
Inductive outcome : Type :=
  | Returned (fs : FS) (err : option string)  (* the file system left, the [error] *)
  | Panicked                                   (* [make(chan struct{}, n)] with [n < 0] *)
  | Unfinished.                                (* the schedule does not complete the pool *)

Section Folder.

(** [json.MarshalIndent(results, "", "  ")] of package [encoding/json]. *)
Variable json_MarshalIndent : list LogEntry -> result (list byte).

(** *** writeLogAtomic (main.go, lines 215-252) *)
Definition writeLogAtomic (fs : FS) (flt : faults) (folder : string)
    (results : list LogEntry) : FS * option string :=
  match json_MarshalIndent results with
  | Err err => (fs, Some (wrap "marshal results" err))
  | Ok data =>
      let tmpPath := Join folder "log.tmp" in
      let finalPath := Join folder "log.json" in
      match os_Create fs flt tmpPath with
      | (fs1, Err err) => (fs1, Some (wrap "create tmp log" err))
      | (fs1, Ok tmpFile) =>
          match file_Write fs1 flt tmpFile data with
          | (fs2, Some err) =>
              let _ := file_Close flt tmpFile in
              (os_Remove fs2 flt tmpPath, Some (wrap "write tmp log" err))
          | (fs2, None) =>
              let _ := file_Sync flt tmpFile in   (* a warning is printed *)
              match file_Close flt tmpFile with
              | Some err => (fs2, Some (wrap "close tmp log" err))
              | None =>
                  match os_Rename_file fs2 flt tmpPath finalPath with
                  | (fs3, Some err) =>
                      (os_Remove fs3 flt tmpPath, Some (wrap "rename tmp->final" err))
                  | (fs3, None) => (fs3, None)
                  end
              end
          end
      end
  end.

(** The stable identifier [renameFolderSafe] derives from the base name
    (main.go, lines 257-272). *)
Definition folder_id (base : string) : string :=
  if negb (Text.HasPrefix base "r_") then
    let parts := Text.SplitN2 base "_" in
    if (2 <=? length parts)%nat then nth 1 parts EmptyString else base
  else Text.TrimPrefix base "r_".

Definition targetPrefix (allSuccess : bool) : string :=
  if allSuccess then "d_" else "f_".

(** The name [renameFolderSafe] moves the folder to (lines 274-287);
    [clock] is the instant [time.Now()] returns. *)
Definition target_name (fs : FS) (src : string) (allSuccess : bool) (clock : Z) : string :=
  let base := folder_id src in
  let target := targetPrefix allSuccess +:+ base in
  if os_Stat_ok fs target
  then targetPrefix allSuccess +:+ base +:+ "_" +:+ Clock.FormatCompact clock
  else target.

(** *** renameFolderSafe (main.go, lines 256-294)

    [src] is a name of the input directory: [filepath.Base(src)] is [src]
    and [filepath.Dir(src)] is the input directory, where the target lies
    too. *)
Definition renameFolderSafe (fs : FS) (flt : faults) (src : string)
    (allSuccess : bool) (clock : Z) : FS * option string :=
  let target := target_name fs src allSuccess clock in
  match os_Rename fs flt src target with
  | (fs', Some err) =>
      (fs', Some ("os.Rename " +:+ src +:+ " -> " +:+ target +:+ ": " +:+ err))
  | (fs', None) => (fs', None)
  end.

(** The files [processFolder] collects from the listing (lines 100-107). *)
Definition collect_files (dirEntries : list DirEntry) : list DirEntry :=
  filter (λ de, IsDir de = false) dirEntries.

(** The sorted results of the pool (lines 113-150), when the schedule
    completes it. *)
Definition pool_results (fs : FS) (folder : string) (concurrency : Z)
    (files : list DirEntry) (sched : list Pool.action) : option (list LogEntry) :=
  match Pool.run fs folder concurrency sched (Pool.start (Name <$> files)) with
  | Some p =>
      if Pool.finished p then Some (sort_Slice less (Pool.resultsCh p)) else None
  | None => None
  end.

(** *** processFolder (main.go, lines 94-178)

    [sched] is the interleaving of the goroutines and [clock] the instant
    at which the folder is renamed. Printing is not modelled. *)
Definition processFolder (fs : FS) (flt : faults) (folder : string)
    (concurrency : Z) (sched : list Pool.action) (clock : Z) : outcome :=
  match os_ReadDir fs flt folder with
  | Err err => Returned fs (Some (wrap "read folder" err))
  | Ok dirEntries =>
      let files := collect_files dirEntries in
      if concurrency <? 0 then Panicked
      else
        match pool_results fs folder concurrency files sched with
        | None => Unfinished
        | Some results =>
            let allSuccess := allSuccess results in
            match writeLogAtomic fs flt folder results with
            | (fs1, Some err) =>
                match renameFolderSafe fs1 flt folder false clock with
                | (fs2, Some renameErr) =>
                    Returned fs2
                      (Some ("logging error: " +:+ err +:+
                             "; folder rename error: " +:+ renameErr))
                | (fs2, None) => Returned fs2 (Some (wrap "failed to write log" err))
                end
            | (fs1, None) =>
                match renameFolderSafe fs1 flt folder allSuccess clock with
                | (fs2, Some err) => Returned fs2 (Some (wrap "rename folder" err))
                | (fs2, None) => Returned fs2 None
                end
            end
        end
  end.

End Folder.

(** ** The batch: processAll and main (main.go, lines 28-91)

    The input directory is the directory whose content [FS] describes; a
    folder is named by its base name, which stands for
    [filepath.Join(inputDir, name)]. *)

(** What lies at the path given by [-input]: nothing that [os.Stat] can
    reach (with the cause), something that is not a directory, or the
    directory with its content. *)
Inductive input_dir : Type :=
  | NoInput (cause : string)
  | InputFile
  | InputDir (fs : FS).

(** [os.Stat(inputDir)]: [info.IsDir()], or the error. *)
Definition os_Stat_input (input : input_dir) : result bool :=
  match input with
  | NoInput cause => Err cause
  | InputFile => Ok false
  | InputDir _ => Ok true
  end.

Definition content_of (input : input_dir) : FS :=
  match input with
  | InputDir fs => fs
  | _ => ∅
  end.

Definition node_DirEntry (nn : string * node) : DirEntry :=
  {| Name := nn.1;
     IsDir := match nn.2 with Folder _ => true | PlainFile => false end |}.

Definition node_le (a b : string * node) : Prop := String.le a.1 b.1.

Global Instance node_le_dec a b : Decision (node_le a b).
Proof. unfold node_le, String.le. apply _. Defined.

(** [os.ReadDir(inputDir)]: the entries of the input directory, sorted by
    filename; [fault] is the failure the environment injects. *)
Definition os_ReadDir_input (input : input_dir) (fault : option string)
    : result (list DirEntry) :=
  match fault with
  | Some cause => Err cause
  | None =>
      match input with
      | InputDir fs => Ok (node_DirEntry <$> merge_sort node_le (map_to_list fs))
      | InputFile => Err "not a directory"
      | NoInput cause => Err cause
      end
  end.

(** The loop that collects [targets] (lines 67-76). *)
Fixpoint find_targets (entries : list DirEntry) : list string :=
  match entries with
  | [] => []
  | e :: rest =>
      if negb (IsDir e) then find_targets rest
      else if Text.HasPrefix (Name e) "r_" then Name e :: find_targets rest
      else find_targets rest
  end.

(** What the environment decides for the run of one folder: the failures
    it injects, the interleaving of the goroutines and the instant of the
    rename. *)
Record folder_run : Type := mkFolderRun {
  run_faults : faults;
  run_sched : list Pool.action;
  run_clock : Z
}.

(** The line [processAll] prints on [os.Stderr] for a folder (line 86);
    [folder] stands for the joined path. *)
Definition report (folder err : string) : string :=
  "folder " +:+ folder +:+ ": processing error: " +:+ err.

(** How [processAll] ends: what lies at the input path afterwards, the
    lines [processAll] itself printed on [os.Stderr] (the warnings of
    [processFolder] and [writeLogAtomic] are not modelled) and the [error]
    it returns. *)
Inductive batch : Type :=
  | BatchReturned (input : input_dir) (reported : list string) (err : option string)
  | BatchPanicked
  | BatchUnfinished.

(** The flags of the command line, after [flag.Parse()] accepted them. *)
Record flags : Type := mkFlags {
  input_flag : string;        (* [-input] *)
  concurrency_flag : Z;       (* [-concurrency] *)
  v_flag : bool               (* [-v] *)
}.

(** How the process ends: the exit status with what lies at the input path
    and the lines [main] and [processAll] printed on [os.Stderr], a panic,
    or goroutines that never finish. *)
Inductive exit : Type :=
  | Exit (status : Z) (input : input_dir) (stderr : list string)
  | Panic
  | Hang.

Section Batch.

Variable json_MarshalIndent : list LogEntry -> result (list byte).

(** The run the environment gives to each folder. *)
Variable env : string -> folder_run.

(** The loop over [targets] (lines 82-88). *)
Fixpoint process_targets (targets : list string) (concurrency : Z) (fs : FS)
    (reported : list string) : batch :=
  match targets with
  | [] => BatchReturned (InputDir fs) reported None
  | folder :: rest =>
      match processFolder json_MarshalIndent fs (run_faults (env folder)) folder
              concurrency (run_sched (env folder)) (run_clock (env folder)) with
      | Returned fs' (Some err) =>
          process_targets rest concurrency fs' (reported ++ [report folder err])
      | Returned fs' None => process_targets rest concurrency fs' reported
      | Panicked => BatchPanicked
      | Unfinished => BatchUnfinished
      end
  end.

(** *** processAll (main.go, lines 49-91)

    [inputDir] is the text of the path and [input] what lies there;
    [fault] is the failure injected into [os.ReadDir(inputDir)]. Printing
    on standard output is not modelled. *)
Definition processAll (inputDir : string) (input : input_dir) (fault : option string)
    (concurrency : Z) : batch :=
  match os_Stat_input input with
  | Err err => BatchReturned input [] (Some (wrap "input dir check" err))
  | Ok isDir =>
      if negb isDir
      then BatchReturned input []
             (Some ("input path is not a directory: " +:+ inputDir))
      else
        match os_ReadDir_input input fault with
        | Err err => BatchReturned input [] (Some (wrap "read input dir" err))
        | Ok entries =>
            process_targets (find_targets entries) concurrency (content_of input) []
        end
  end.

(** *** main (main.go, lines 28-47)

    Returning from [main] ends the process with status 0. *)
Definition main (args : flags) (input : input_dir) (fault : option string) : exit :=
  let concurrency :=
    if concurrency_flag args <=? 0 then 1 else concurrency_flag args in
  match processAll (input_flag args) input fault concurrency with
  | BatchReturned input' reported (Some err) =>
      Exit 1 input' (reported ++ ["ERROR: " +:+ err])
  | BatchReturned input' reported None => Exit 0 input' reported
  | BatchPanicked => Panic
  | BatchUnfinished => Hang
  end.

End Batch.

(** ** Vocabulary of the properties *)

(** An entry that [processFile] returns for the file of that name. *)
Definition produced (fs : FS) (folder : string) (e : LogEntry) : Prop :=
  ∃ clock, e = (processFile fs (Join folder (Filename e)) (Filename e) clock).1.

(** What every state of the pool satisfies. *)
Record pool_inv (fs : FS) (folder : string) (concurrency : Z) (files : list string)
    (p : Pool.state) : Prop := mkPoolInv {
  inv_sem : Pool.sem p = (length (Pool.hashing p) + length (Pool.computed p) + Pool.sent p)%nat;
  inv_wg : Pool.wg p = (Pool.sem p + Pool.released p)%nat;
  inv_cap : Z.of_nat (Pool.sem p) <= Z.max concurrency 0;
  inv_names :
    Pool.todo p ++ Pool.hashing p ++ (Filename <$> Pool.computed p)
      ++ (Filename <$> Pool.resultsCh p) ≡ₚ files;
  inv_produced : Forall (produced fs folder) (Pool.computed p ++ Pool.resultsCh p)
}.

(** The steps a goroutine takes by itself once its call of [processFile]
    has returned. *)
Definition after_call (a : Pool.action) : bool :=
  match a with
  | Pool.Send _ | Pool.Release | Pool.Done => true
  | Pool.Dispatch | Pool.Hash _ _ => false
  end.

(** Whether opening or reading an entry of a folder may never return. *)
Definition entry_blocks (e : entry) : bool :=
  match e with
  | RegFile f => open_blocks f || read_blocks f
  | SubDir => false
  end.

(** A folder in which [os.Open] and the read of every regular file return. *)
Definition responsive (es : gmap string entry) : Prop :=
  map_Forall (λ _ e, entry_blocks e = false) es.

Global Instance responsive_dec es : Decision (responsive es).
Proof. unfold responsive. apply _. Defined.

(** An entry that comes from a call of [processFile] that returned. *)
Definition returned (fs : FS) (folder : string) (e : LogEntry) : Prop :=
  ∃ clock, processFile_blocks fs (Join folder (Filename e)) clock = false.

(** Ascending order of file names, byte by byte. *)
Definition by_name (a b : LogEntry) : Prop := String.le (Filename a) (Filename b).

Definition is_regular (e : entry) : bool :=
  match e with RegFile _ => true | SubDir => false end.

(** The names [processFolder] hashes: the regular files of the listing. *)
Definition scanned (es : gmap string entry) : list string :=
  Name <$> collect_files (to_DirEntry <$> merge_sort name_le (map_to_list es)).

(** Every way [writeLogAtomic] can end, with the file system it leaves. *)
Inductive log_written (json_MarshalIndent : list LogEntry -> result (list byte))
    (fs : FS) (flt : faults) (folder : string)
    (results : list LogEntry) : FS * option string -> Prop :=
  | log_marshal_failed cause :
      json_MarshalIndent results = Err cause ->
      log_written json_MarshalIndent fs flt folder results (fs, Some (wrap "marshal results" cause))
  | log_create_failed data cause :
      json_MarshalIndent results = Ok data ->
      log_written json_MarshalIndent fs flt folder results (fs, Some (wrap "create tmp log" cause))
  | log_write_failed data es n cause :
      json_MarshalIndent results = Ok data ->
      fs !! folder = Some (Folder es) ->
      write_fault flt = Some (n, cause) ->
      log_written json_MarshalIndent fs flt folder results
        (<[folder := Folder (if remove_fault flt
                             then <["log.tmp" := RegFile (plain (take n data))]> es
                             else delete "log.tmp" es)]> fs,
         Some (wrap "write tmp log" cause))
  | log_close_failed data es cause :
      json_MarshalIndent results = Ok data ->
      fs !! folder = Some (Folder es) ->
      write_fault flt = None ->
      close_fault flt = Some cause ->
      log_written json_MarshalIndent fs flt folder results
        (<[folder := Folder (<["log.tmp" := RegFile (plain data)]> es)]> fs,
         Some (wrap "close tmp log" cause))
  | log_publish_failed data es cause :
      json_MarshalIndent results = Ok data ->
      fs !! folder = Some (Folder es) ->
      write_fault flt = None ->
      close_fault flt = None ->
      log_written json_MarshalIndent fs flt folder results
        (<[folder := Folder (if remove_fault flt
                             then <["log.tmp" := RegFile (plain data)]> es
                             else delete "log.tmp" es)]> fs,
         Some (wrap "rename tmp->final" cause))
  | log_published data es :
      json_MarshalIndent results = Ok data ->
      fs !! folder = Some (Folder es) ->
      log_written json_MarshalIndent fs flt folder results
        (<[folder := Folder (<["log.json" := RegFile (plain data)]> (delete "log.tmp" es))]> fs,
         None).

(** ** Vocabulary of the batch *)

(** The entries of a work folder that are no log of the program. *)
Definition same_files (es es' : gmap string entry) : Prop :=
  ∀ name, name ≠ "log.tmp" -> name ≠ "log.json" -> es' !! name = es !! name.

(** Every way a call of [processFolder] that returns can leave the input
    directory: untouched; the folder in place with its logs changed; the
    folder moved to a free name, which carries the failed marker when an
    error is returned. *)
Inductive folder_effect (fs : FS) (folder : string) (clock : Z)
    : FS -> option string -> Prop :=
  | effect_none err :
      folder_effect fs folder clock fs (Some err)
  | effect_in_place es es' err :
      fs !! folder = Some (Folder es) ->
      same_files es es' ->
      folder_effect fs folder clock (<[folder := Folder es']> fs) (Some err)
  | effect_moved es es' verdict err :
      fs !! folder = Some (Folder es) ->
      same_files es es' ->
      fs !! target_name fs folder verdict clock = None ->
      target_name fs folder verdict clock ≠ folder ->
      (is_Some err -> verdict = false) ->
      folder_effect fs folder clock
        (<[target_name fs folder verdict clock := Folder es']> (delete folder fs)) err.

(** A folder [processAll] selects: a directory whose name starts with [r_]. *)
Definition pending (fs : FS) (name : string) : Prop :=
  Text.HasPrefix name "r_" = true ∧ ∃ es, fs !! name = Some (Folder es).

(** The names [processAll] selects from the input directory. *)
Definition targets (fs : FS) : list string :=
  find_targets (node_DirEntry <$> merge_sort node_le (map_to_list fs)).

(** A file that opens and streams without failure. *)
Definition streams (f : file) : Prop := open_error f = None ∧ read_error f = None.

Definition is_target (nn : string * node) : bool :=
  match nn.2 with
  | Folder _ => Text.HasPrefix nn.1 "r_"
  | PlainFile => false
  end.

(** A log entry without its timestamp. *)
Definition untimed (e : LogEntry) : string * string * string * string :=
  (Filename e, Status e, MD5 e, Error e).

(** The regular files of a folder of the input directory. *)
Definition files_in (fs : FS) (folder : string) : list string :=
  match fs !! folder with
  | Some (Folder es) => scanned es
  | _ => []
  end.

(** The environment [env] with, for every folder, the schedule that hashes
    the files of the folder one after the other. *)
Definition in_turn (fs : FS) (env : string -> folder_run) (folder : string) : folder_run :=
  {| run_faults := run_faults (env folder);
     run_sched := Pool.sequential 0 (length (files_in fs folder));
     run_clock := run_clock (env folder) |}.

(** ** Example data *)

(** A file that opens and streams, and one that cannot be opened. *)
Definition readable (s : string) : file :=
  {| content := bytes_of s; open_error := None; read_error := None;
     open_time := 0; read_time := 1; open_blocks := false; read_blocks := false |}.

Definition unreadable (cause : string) : file :=
  {| content := []; open_error := Some cause; read_error := None;
     open_time := 0; read_time := 0; open_blocks := false; read_blocks := false |}.

(** A pending folder with two files and a nested directory. *)
Definition sample_entries : gmap string entry :=
  {[ "b.txt" := RegFile (readable "world");
     "a.txt" := RegFile (readable "hello");
     "nested" := SubDir ]}.

Definition sample_fs : FS := {[ "r_001" := Folder sample_entries ]}.

(** Both files in progress at once; [b.txt] is hashed and sent first. *)
Definition b_first : list Pool.action :=
  [Pool.Dispatch; Pool.Dispatch; Pool.Hash 1 100; Pool.Hash 0 105;
   Pool.Send 0; Pool.Send 0; Pool.Release; Pool.Release; Pool.Done; Pool.Done].

(** A stand-in for [json.MarshalIndent] to run the examples with: one
    line per entry. *)
Definition line_encoder (results : list LogEntry) : result (list byte) :=
  Ok (bytes_of (foldr (λ e acc, Filename e +:+ " " +:+ Status e +:+ " " +:+ MD5 e
                                +:+ Error e +:+ " " +:+ Timestamp e +:+ ";" +:+ acc)
                  "" results)).

(** The environment makes [tmpFile.Close()] fail. *)
Definition close_fails : faults :=
  {| readdir_fault := None; create_fault := None; write_fault := None;
     sync_fault := None; close_fault := Some "input/output error";
     publish_fault := None; remove_fault := false; move_fault := None |}.

(** The environment makes the move of the folder fail too. *)
Definition close_and_move_fail : faults :=
  {| readdir_fault := None; create_fault := None; write_fault := None;
     sync_fault := None; close_fault := Some "input/output error";
     publish_fault := None; remove_fault := false;
     move_fault := Some "read-only file system" |}.

Definition sample_listing : list DirEntry :=
  [ {| Name := "a.txt"; IsDir := false |}; {| Name := "b.txt"; IsDir := false |};
    {| Name := "nested"; IsDir := true |} ].

Definition sample_results : list LogEntry :=
  [ {| Filename := "a.txt"; Status := "success";
       MD5 := "5d41402abc4b2a76b9719d911017c592"; Error := "";
       Timestamp := "1970-01-01T00:01:45Z" |};
    {| Filename := "b.txt"; Status := "success";
       MD5 := "7d793037a0760186574b0282f2f435e7"; Error := "";
       Timestamp := "1970-01-01T00:01:40Z" |} ].

(** The encoded log of the example and the input directory after it ran. *)
Definition sample_log : list byte :=
  Eval vm_compute in
    match line_encoder sample_results with Ok data => data | Err _ => [] end.

Definition sample_done : FS :=
  {[ "d_001" := Folder (<["log.json" := RegFile (plain sample_log)]> sample_entries) ]}.

(** What the example becomes when the log cannot be closed. *)
Definition sample_unclosed : FS :=
  {[ "r_001" := Folder (<["log.tmp" := RegFile (plain sample_log)]> sample_entries) ]}.

Definition sample_failed : FS :=
  {[ "f_001" := Folder (<["log.tmp" := RegFile (plain sample_log)]> sample_entries) ]}.

(** Two goroutines inside [processFile], a third file waiting. *)
Definition two_in_flight : Pool.state :=
  {| Pool.todo := ["c.txt"]; Pool.hashing := ["a.txt"; "b.txt"]; Pool.computed := [];
     Pool.sent := 0; Pool.released := 0; Pool.sem := 2; Pool.wg := 2;
     Pool.resultsCh := [] |}.

(** [c.txt], which does not exist, failed and its entry was sent; its
    goroutine is about to release its slot; [a.txt] is in progress and
    [b.txt] waiting. *)
Definition one_sent : Pool.state :=
  {| Pool.todo := ["b.txt"]; Pool.hashing := ["a.txt"]; Pool.computed := [];
     Pool.sent := 1; Pool.released := 0; Pool.sem := 2; Pool.wg := 2;
     Pool.resultsCh :=
       [ {| Filename := "c.txt"; Status := "error"; MD5 := "";
            Error := "failed to open file: no such file or directory";
            Timestamp := "1970-01-01T00:01:40Z" |} ] |}.

(** Scenario D: [d_004] exists when [r_004] is finalized. *)
Definition earlier_run : gmap string entry := {[ "log.json" := RegFile (plain []) ]}.

Definition collision_fs : FS :=
  {[ "r_004" := Folder ∅; "d_004" := Folder earlier_run ]}.

Definition collision_resolved : FS :=
  {[ "d_004_20240229T235959Z" := Folder ∅; "d_004" := Folder earlier_run ]}.

(** The example folder when both names with the failed marker are taken,
    and what the failed close leaves of it. *)
Definition failed_taken_fs : FS :=
  {[ "r_001" := Folder sample_entries; "f_001" := Folder ∅;
     "f_001_19700101T001640Z" := Folder ∅ ]}.

Definition failed_taken_unclosed : FS :=
  <["r_001" := Folder (<["log.tmp" := RegFile (plain sample_log)]> sample_entries)]>
    failed_taken_fs.

(** The example folder when both names with the done marker are taken, and
    the same with the log published. *)
Definition done_taken_fs : FS :=
  {[ "r_001" := Folder sample_entries; "d_001" := Folder ∅;
     "d_001_19700101T001640Z" := Folder ∅ ]}.

Definition done_taken_logged : FS :=
  <["r_001" := Folder (<["log.json" := RegFile (plain sample_log)]> sample_entries)]>
    done_taken_fs.

(** Two collisions within one second: the name with the suffix exists too. *)
Definition twice_collided_fs : FS :=
  {[ "r_004" := Folder ∅; "d_004" := Folder earlier_run;
     "d_004_20240229T235959Z" := Folder ∅ ]}.

(** A folder whose name does not carry the pending marker. *)
Definition unexpected_fs : FS := {[ "batch_7" := Folder ∅ ]}.

(** Scenario B: one file that cannot be opened. Scenario C: no file. *)
Definition locked_fs : FS :=
  {[ "r_002" := Folder {[ "locked.bin" := RegFile (unreadable "permission denied") ]} ]}.

Definition empty_fs : FS := {[ "r_003" := Folder ∅ ]}.

(** A file whose opening takes one second and whose streaming takes four. *)
Definition slow_file : file :=
  {| content := bytes_of "hello"; open_error := None; read_error := None;
     open_time := 1; read_time := 4; open_blocks := false; read_blocks := false |}.

Definition slow_fs : FS := {[ "r_001" := Folder {[ "a.txt" := RegFile slow_file ]} ]}.

(** ** Example data of the batch *)

(** Scenario D after the whole of [processFolder] ran on [r_004]. *)
Definition collision_done : FS :=
  {[ "d_004_20240229T235959Z" := Folder {[ "log.json" := RegFile (plain []) ]};
     "d_004" := Folder earlier_run ]}.

(** Scenario B after [processFolder] ran on [r_002]. *)
Definition locked_done : FS :=
  {[ "f_002" :=
       Folder {[ "locked.bin" := RegFile (unreadable "permission denied");
                 "log.json" :=
                   RegFile (plain (bytes_of
                     "locked.bin error failed to open file: permission denied 1970-01-01T00:00:00Z;")) ]} ]}.

(** The environment makes [tmpFile.Write] fail after three bytes. *)
Definition write_fails : faults :=
  {| readdir_fault := None; create_fault := None;
     write_fault := Some (3%nat, "no space left on device");
     sync_fault := None; close_fault := None; publish_fault := None;
     remove_fault := false; move_fault := None |}.

(** A folder in which an earlier run left a [log.tmp] behind. *)
Definition stale_entries : gmap string entry :=
  {[ "a.txt" := RegFile (readable "hello"); "log.tmp" := RegFile (plain (bytes_of "old")) ]}.

Definition stale_fs : FS := {[ "r_005" := Folder stale_entries ]}.

(** The entries of the example when the files are hashed one at a time,
    at the instant 0. *)
Definition sample_results_in_turn : list LogEntry :=
  Eval vm_compute in
    match pool_results sample_fs "r_001" 1 (collect_files sample_listing)
            (Pool.sequential 0 2) with
    | Some results => results
    | None => []
    end.

(** An input directory with two pending folders, a finalized one, a plain
    file and a plain file whose name starts with [r_]. *)
Definition batch_fs : FS :=
  {[ "r_001" := Folder sample_entries;
     "r_002" := Folder {[ "locked.bin" := RegFile (unreadable "permission denied") ]};
     "d_000" := Folder earlier_run;
     "notes.txt" := PlainFile;
     "r_readme" := PlainFile ]}.

(** The runs of the two folders: nothing fails. *)
Definition batch_env (folder : string) : folder_run :=
  if decide (folder = "r_001")
  then {| run_faults := no_faults; run_sched := b_first; run_clock := 1000 |}
  else {| run_faults := no_faults; run_sched := Pool.sequential 0 1; run_clock := 1000 |}.

Definition batch_done : FS :=
  {[ "d_001" := Folder (<["log.json" := RegFile (plain sample_log)]> sample_entries);
     "f_002" :=
       Folder {[ "locked.bin" := RegFile (unreadable "permission denied");
                 "log.json" :=
                   RegFile (plain (bytes_of
                     "locked.bin error failed to open file: permission denied 1970-01-01T00:00:00Z;")) ]};
     "d_000" := Folder earlier_run;
     "notes.txt" := PlainFile;
     "r_readme" := PlainFile ]}.

(** The environment makes the listing of a folder fail. *)
Definition unlistable : faults :=
  {| readdir_fault := Some "permission denied"; create_fault := None;
     write_fault := None; sync_fault := None; close_fault := None;
     publish_fault := None; remove_fault := false; move_fault := None |}.

(** The runs of the two folders when [r_001] cannot be listed. *)
Definition failing_env (folder : string) : folder_run :=
  if decide (folder = "r_001")
  then {| run_faults := unlistable; run_sched := []; run_clock := 1000 |}
  else {| run_faults := no_faults; run_sched := Pool.sequential 0 1; run_clock := 1000 |}.

Definition batch_partial : FS :=
  {[ "r_001" := Folder sample_entries;
     "f_002" :=
       Folder {[ "locked.bin" := RegFile (unreadable "permission denied");
                 "log.json" :=
                   RegFile (plain (bytes_of
                     "locked.bin error failed to open file: permission denied 1970-01-01T00:00:00Z;")) ]};
     "d_000" := Folder earlier_run;
     "notes.txt" := PlainFile;
     "r_readme" := PlainFile ]}.

(** A FIFO that no writer opens, and a folder that holds one. *)
Definition fifo : file :=
  {| content := []; open_error := None; read_error := None;
     open_time := 0; read_time := 0; open_blocks := true; read_blocks := false |}.

Definition fifo_fs : FS :=
  {[ "r_006" := Folder {[ "a.txt" := RegFile (readable "hello");
                           "pipe" := RegFile fifo ]} ]}.

(** The flags [-input ./input -concurrency 0]. *)
Definition sample_flags : flags :=
  {| input_flag := "./input"; concurrency_flag := 0; v_flag := false |}.

(** Both files of the example dispatched, [b.txt] hashed at the instant
    100, [a.txt] still inside [processFile]. *)
Definition one_hashed : Pool.state :=
  {| Pool.todo := []; Pool.hashing := ["a.txt"];
     Pool.computed :=
       [ {| Filename := "b.txt"; Status := "success";
            MD5 := "7d793037a0760186574b0282f2f435e7"; Error := "";
            Timestamp := "1970-01-01T00:01:40Z" |} ];
     Pool.sent := 0; Pool.released := 0; Pool.sem := 2; Pool.wg := 2;
     Pool.resultsCh := [] |}.

(** * Properties *)

(** ** Test vectors *)

Example md5_empty :
  hex.EncodeToString (md5.Sum []) = "d41d8cd98f00b204e9800998ecf8427e".
Proof. vm_compute. reflexivity. Qed.

Example md5_hello :
  hex.EncodeToString (md5.Sum (bytes_of "hello")) = "5d41402abc4b2a76b9719d911017c592".
Proof. vm_compute. reflexivity. Qed.

Example md5_world :
  hex.EncodeToString (md5.Sum (bytes_of "world")) = "7d793037a0760186574b0282f2f435e7".
Proof. vm_compute. reflexivity. Qed.

Example md5_two_blocks :
  hex.EncodeToString (md5.Sum (repeat "a"%byte 56)) = "3b0c8ac703f828b04c6c197006d17218".
Proof. vm_compute. reflexivity. Qed.

Example format_epoch : Clock.FormatRFC3339 0 = "1970-01-01T00:00:00Z".
Proof. vm_compute. reflexivity. Qed.

Example format_2025 : Clock.FormatRFC3339 1744816930 = "2025-04-16T15:22:10Z".
Proof. vm_compute. reflexivity. Qed.

Example format_leap_day : Clock.FormatRFC3339 951868799 = "2000-02-29T23:59:59Z".
Proof. vm_compute. reflexivity. Qed.

Example format_last : Clock.FormatRFC3339 253402300799 = "9999-12-31T23:59:59Z".
Proof. vm_compute. reflexivity. Qed.

Example format_compact_2024 : Clock.FormatCompact 1709251199 = "20240229T235959Z".
Proof. vm_compute. reflexivity. Qed.

Example format_is_rfc3339 : Clock.is_RFC3339_UTC (Clock.FormatRFC3339 1744816930) = true.
Proof. vm_compute. reflexivity. Qed.

(** Go compares strings byte by byte: upper case sorts before lower case
    and digits are not read as numbers. *)
Example byte_order :
  less (mkLogEntry "B.txt" "" "" "" "") (mkLogEntry "a.txt" "" "" "" "") = true ∧
  less (mkLogEntry "a10" "" "" "" "") (mkLogEntry "a2" "" "" "" "") = true ∧
  less (mkLogEntry "a" "" "" "" "") (mkLogEntry "a.txt" "" "" "" "") = true.
Proof. by vm_compute. Qed.

(** ** Text *)

Lemma app_String c s t : String c s +:+ t = String c (s +:+ t).
Proof. reflexivity. Qed.

Lemma app_empty t : "" +:+ t = t.
Proof. reflexivity. Qed.

Lemma append_length s t : String.length (s +:+ t) = (String.length s + String.length t)%nat.
Proof. induction s as [|c s IH]; simpl; [done | by rewrite IH]. Qed.

Lemma append_empty_r s : s +:+ "" = s.
Proof. induction s as [|c s IH]; [done|]. rewrite app_String. by f_equal. Qed.

Lemma suffixed_ne s t : s +:+ "_" +:+ t ≠ s.
Proof.
  intros H. apply (f_equal String.length) in H.
  rewrite !append_length in H. simpl in H. lia.
Qed.

Lemma HasPrefix_app s prefix : Text.HasPrefix (prefix +:+ s) prefix = true.
Proof.
  induction prefix as [|c prefix IH]; [by destruct s|].
  simpl. by rewrite decide_True.
Qed.

Lemma HasPrefix_inv s prefix :
  Text.HasPrefix s prefix = true -> ∃ rest, s = prefix +:+ rest.
Proof.
  revert s. induction prefix as [|c prefix IH]; intros s H; [by exists s|].
  destruct s as [|d s]; [done|]. simpl in H.
  destruct (decide (c = d)) as [->|]; [|done].
  destruct (IH _ H) as [rest ->]. by exists rest.
Qed.

Lemma skip_app prefix s : Text.skip (String.length prefix) (prefix +:+ s) = s.
Proof. induction prefix as [|c prefix IH]; [by destruct s | done]. Qed.

Lemma TrimPrefix_app prefix s : Text.TrimPrefix (prefix +:+ s) prefix = s.
Proof. unfold Text.TrimPrefix. by rewrite HasPrefix_app, skip_app. Qed.

Lemma cut_app sep before after :
  Text.contains sep before = false ->
  Text.cut sep (before +:+ String sep after) = Some (before, after).
Proof.
  induction before as [|c before IH]; simpl.
  - intros _. by rewrite decide_True.
  - destruct (decide (c = sep)); [done|]. intros H. by rewrite IH.
Qed.

Lemma cut_Some sep s before after :
  Text.cut sep s = Some (before, after) ->
  s = before +:+ String sep after ∧ Text.contains sep before = false.
Proof.
  revert before. induction s as [|c s IH]; intros before; simpl; [done|].
  destruct (decide (c = sep)) as [->|Hne].
  - by intros [= <- <-].
  - destruct (Text.cut sep s) as [[b a]|]; [|done]. intros [= <- <-].
    destruct (IH b eq_refl) as [-> Hb]. simpl. by rewrite decide_False.
Qed.

Lemma cut_None sep s : Text.cut sep s = None <-> Text.contains sep s = false.
Proof.
  induction s as [|c s IH]; simpl; [done|].
  destruct (decide (c = sep)); [done|].
  destruct (Text.cut sep s) as [[b a]|]; [|tauto].
  split; [done|]. intros H. apply IH in H. done.
Qed.

(** ** Formatting instants *)

Section ClockFacts.
Import Clock.

Lemma forall_range_spec n i p :
  forall_range n i p = true -> forall j, i <= j < i + Z.of_nat n -> p j = true.
Proof.
  revert i. induction n as [|n IH]; intros i H j Hj; [lia|].
  simpl in H. apply andb_prop in H as [Hi Hn].
  destruct (decide (j = i)) as [->|Hne]; [done|].
  apply (IH (i + 1)); [done | lia].
Qed.

Lemma forall_below k p :
  forall_range (Z.to_nat k) 0 p = true -> forall j, 0 <= j < k -> p j = true.
Proof. intros H j Hj. apply (forall_range_spec _ _ _ H). lia. Qed.

Lemma appendInt_2 x : 0 <= x < 100 -> appendInt x 2 = two_digits x.
Proof.
  intros Hx.
  assert (H : forall_range (Z.to_nat 100) 0
                (fun x => bool_decide (appendInt x 2 = two_digits x)) = true)
    by (vm_compute; reflexivity).
  pose proof (forall_below _ _ H x Hx) as Hb.
  by apply bool_decide_eq_true in Hb.
Qed.

Lemma appendInt_4 x : 0 <= x < 10000 -> appendInt x 4 = four_digits x.
Proof.
  intros Hx.
  assert (H : forall_range (Z.to_nat 10000) 0
                (fun x => bool_decide (appendInt x 4 = four_digits x)) = true)
    by (vm_compute; reflexivity).
  pose proof (forall_below _ _ H x Hx) as Hb.
  by apply bool_decide_eq_true in Hb.
Qed.

Lemma digit_is_digit k : 0 <= k < 10 -> is_digit (digit k) = true.
Proof.
  intros Hk.
  assert (H : forall_range (Z.to_nat 10) 0 (fun k => is_digit (digit k)) = true)
    by (vm_compute; reflexivity).
  exact (forall_below _ _ H k Hk).
Qed.

Lemma day_of_era_range days : 0 <= day_of_era days < 146097.
Proof. unfold day_of_era. apply Z.mod_pos_bound. lia. Qed.

Lemma year_of_era_range doe : 0 <= doe < 146097 -> 0 <= year_of_era doe <= 399.
Proof. intros H. unfold year_of_era. Z.div_mod_to_equations. lia. Qed.

Lemma day_of_year_range doe : 0 <= doe < 146097 -> 0 <= day_of_year doe <= 365.
Proof.
  intros H. unfold day_of_year, year_of_era. Z.div_mod_to_equations. lia.
Qed.

Lemma month_of_range doe : 0 <= doe < 146097 -> 1 <= month_of doe <= 12.
Proof.
  intros H. pose proof (day_of_year_range doe H) as Hd.
  unfold month_of, month_index. destruct (Z.ltb_spec ((5 * day_of_year doe + 2) / 153) 10);
    Z.div_mod_to_equations; lia.
Qed.

Lemma day_of_range doe : 0 <= doe < 146097 -> 1 <= day_of doe <= 31.
Proof.
  intros H. pose proof (day_of_year_range doe H) as Hd.
  unfold day_of, month_index. Z.div_mod_to_equations. lia.
Qed.

Lemma Month_range t : 1 <= Month t <= 12.
Proof. apply month_of_range, day_of_era_range. Qed.

Lemma Day_range t : 1 <= Day t <= 31.
Proof. apply day_of_range, day_of_era_range. Qed.

Lemma Hour_range t : 0 <= Hour t < 24.
Proof. unfold Hour. Z.div_mod_to_equations. lia. Qed.

Lemma Minute_range t : 0 <= Minute t < 60.
Proof. unfold Minute. Z.div_mod_to_equations. lia. Qed.

Lemma Second_range t : 0 <= Second t < 60.
Proof. unfold Second. Z.div_mod_to_equations. lia. Qed.

Lemma month_of_early doe :
  0 <= doe < 146097 -> (month_of doe <= 2 <-> 306 <= day_of_year doe).
Proof.
  intros H. pose proof (day_of_year_range doe H) as Hd.
  unfold month_of, month_index.
  destruct (Z.ltb_spec ((5 * day_of_year doe + 2) / 153) 10);
    Z.div_mod_to_equations; lia.
Qed.

(** From 1970 to the end of year 9999 the year has four digits. *)
Lemma Year_range t : 0 <= t < 253402300800 -> 1970 <= Year t <= 9999.
Proof.
  intros Ht. unfold Year.
  pose proof (month_of_early _ (day_of_era_range (t / 86400))) as Hm.
  fold (Month t) in Hm.
  destruct (Z.leb_spec (Month t) 2) as [Hle|Hgt];
    [apply Hm in Hle | assert (~ 306 <= day_of_year (day_of_era (t / 86400))) as Hlt by lia];
    clear Hm; unfold day_of_year, year_of_era, era, day_of_era in *;
    Z.div_mod_to_equations; lia.
Qed.

End ClockFacts.

Lemma FormatRFC3339_digits t :
  0 <= t < 253402300800 ->
  Clock.FormatRFC3339 t =
    Clock.four_digits (Clock.Year t) +:+ "-" +:+ Clock.two_digits (Clock.Month t) +:+ "-" +:+
    Clock.two_digits (Clock.Day t) +:+ "T" +:+ Clock.two_digits (Clock.Hour t) +:+ ":" +:+
    Clock.two_digits (Clock.Minute t) +:+ ":" +:+ Clock.two_digits (Clock.Second t) +:+ "Z".
Proof.
  intros Ht. unfold Clock.FormatRFC3339.
  pose proof (Year_range t Ht). pose proof (Month_range t). pose proof (Day_range t).
  pose proof (Hour_range t). pose proof (Minute_range t). pose proof (Second_range t).
  rewrite appendInt_4 by lia. rewrite !appendInt_2 by lia. reflexivity.
Qed.

Lemma FormatRFC3339_shape t :
  0 <= t < 253402300800 -> Clock.is_RFC3339_UTC (Clock.FormatRFC3339 t) = true.
Proof.
  intros Ht. rewrite FormatRFC3339_digits by done.
  pose proof (Year_range t Ht). pose proof (Month_range t). pose proof (Day_range t).
  pose proof (Hour_range t). pose proof (Minute_range t). pose proof (Second_range t).
  unfold Clock.is_RFC3339_UTC, Clock.rfc3339_utc, Clock.four_digits, Clock.two_digits.
  rewrite !app_String, !app_empty.
  cbn -[Clock.digit Clock.is_digit Z.div Z.modulo].
  rewrite !digit_is_digit by (Z.div_mod_to_equations; lia).
  reflexivity.
Qed.

Lemma FormatCompact_shape t :
  0 <= t < 253402300800 ->
  Clock.has_shape Clock.compact_utc (Clock.FormatCompact t) = true.
Proof.
  intros Ht. unfold Clock.FormatCompact.
  pose proof (Year_range t Ht). pose proof (Month_range t). pose proof (Day_range t).
  pose proof (Hour_range t). pose proof (Minute_range t). pose proof (Second_range t).
  rewrite appendInt_4 by lia. rewrite !appendInt_2 by lia.
  unfold Clock.compact_utc, Clock.four_digits, Clock.two_digits.
  rewrite !app_String, !app_empty.
  cbn -[Clock.digit Clock.is_digit Z.div Z.modulo].
  rewrite !digit_is_digit by (Z.div_mod_to_equations; lia).
  reflexivity.
Qed.

(** ** processFile *)

Lemma hex_byte_lower b :
  hex.is_lower_hex (hex.hextable (Z.shiftr (hex.byteZ b) 4)) &&
  hex.is_lower_hex (hex.hextable (Z.land (hex.byteZ b) 15)) = true.
Proof. destruct b; vm_compute; reflexivity. Qed.

Lemma EncodeToString_lower src :
  hex.all_chars hex.is_lower_hex (hex.EncodeToString src) = true.
Proof.
  induction src as [|b src IH]; [done|].
  cbn [hex.EncodeToString hex.all_chars]. rewrite IH, andb_true_r.
  apply hex_byte_lower.
Qed.

Lemma EncodeToString_length src :
  String.length (hex.EncodeToString src) = (2 * length src)%nat.
Proof. induction src as [|b src IH]; simpl; [done | rewrite IH; lia]. Qed.

Lemma md5_Sum_length data : length (md5.Sum data) = 16%nat.
Proof.
  unfold md5.Sum. destruct (md5.blocks _ _ _) as [[[a b] c] d]. reflexivity.
Qed.

Lemma populated_length s : populated s = true <-> (0 < String.length s)%nat.
Proof. destruct s; simpl; [split; [done | lia] | split; [lia | done]]. Qed.

Lemma digest_populated data : populated (hex.EncodeToString (md5.Sum data)) = true.
Proof.
  apply populated_length. rewrite EncodeToString_length, md5_Sum_length. lia.
Qed.

Lemma processFile_Filename (fs : FS) fullpath basename clock :
  Filename (processFile fs fullpath basename clock).1 = basename.
Proof.
  unfold processFile. destruct (os_Open _ _ _) as [[h|err] c1]; [|done].
  destruct (io_Copy_md5 h c1) as [[sum|err] c2]; done.
Qed.

(** C6. In every record [processFile] returns, exactly one of the digest
    and the error text is populated, and the status tells which: a file
    that opens and streams to its end gives status [success], the MD5 digest
    in lowercase hexadecimal and no error text; an open or a read failure
    gives status [error], a description made of a fixed context and the
    underlying cause, and no digest. *)
Theorem processFile_record fs fullpath basename clock :
  let e := (processFile fs fullpath basename clock).1 in
  Filename e = basename ∧
  populated (MD5 e) = negb (populated (Error e)) ∧
  populated (MD5 e) = bool_decide (Status e = "success") ∧
  populated (Error e) = bool_decide (Status e = "error") ∧
  match lookup_entry fs fullpath with
  | Some (RegFile f) =>
      match open_error f, read_error f with
      | None, None =>
          Status e = "success" ∧
          MD5 e = hex.EncodeToString (md5.Sum (content f)) ∧
          hex.all_chars hex.is_lower_hex (MD5 e) = true ∧
          Error e = ""
      | Some cause, _ =>
          Status e = "error" ∧ Error e = "failed to open file: " +:+ cause ∧ MD5 e = ""
      | None, Some cause =>
          Status e = "error" ∧ Error e = "failed to read file: " +:+ cause ∧ MD5 e = ""
      end
  | Some SubDir =>
      Status e = "error" ∧ Error e = "failed to read file: is a directory" ∧ MD5 e = ""
  | None =>
      Status e = "error" ∧
      Error e = "failed to open file: no such file or directory" ∧ MD5 e = ""
  end.
Proof.
  unfold processFile, os_Open.
  destruct (lookup_entry fs fullpath) as [[f|]|]; cbn.
  - destruct (open_error f) as [c1|]; cbn; [done|].
    destruct (read_error f) as [c2|]; cbn; [done|].
    rewrite digest_populated. split_and!; try done. apply EncodeToString_lower.
  - done.
  - done.
Qed.

(** C7, as stated, fails: a call that starts at instant 0 on a file that
    takes five seconds to open and stream returns at instant 5, and the
    record carries the instant 0. *)
Lemma timestamp_not_completion_time :
  let r := processFile slow_fs (Join "r_001" "a.txt") "a.txt" 0 in
  r.2 = 5 ∧
  Timestamp r.1 = "1970-01-01T00:00:00Z" ∧
  Timestamp r.1 ≠ Clock.FormatRFC3339 r.2.
Proof. vm_compute. split_and!; [reflexivity | reflexivity | discriminate]. Qed.

(** C7, amended. The timestamp of every record is the instant at which
    [processFile] was entered, before the file is opened, formatted in UTC
    as an RFC 3339 date-time [YYYY-MM-DDTHH:MM:SSZ]. *)
Theorem timestamp_is_start_time fs fullpath basename clock :
  0 <= clock < 253402300800 ->
  let e := (processFile fs fullpath basename clock).1 in
  Timestamp e = Clock.FormatRFC3339 clock ∧
  Clock.is_RFC3339_UTC (Timestamp e) = true.
Proof.
  intros Hclock e.
  assert (Timestamp e = Clock.FormatRFC3339 clock) as ->.
  { subst e. unfold processFile.
    destruct (os_Open fs fullpath clock) as [[h|err] c1]; [|done].
    destruct (io_Copy_md5 h c1) as [[sum|err] c2]; done. }
  split; [done | by apply FormatRFC3339_shape].
Qed.

(** A call entered on 2025-04-16 at 15:22:10 UTC. *)
Lemma timestamp_is_start_time_witness :
  0 <= 1744816930 < 253402300800 ∧
  (let e := (processFile slow_fs (Join "r_001" "a.txt") "a.txt" 1744816930).1 in
   Timestamp e = Clock.FormatRFC3339 1744816930 ∧
   Clock.is_RFC3339_UTC (Timestamp e) = true).
Proof.
  split; [lia | apply (timestamp_is_start_time slow_fs (Join "r_001" "a.txt")); lia].
Defined.

(** ** The pool *)

(** Brings the single elements of both sides of a permutation to the front. *)
Ltac perm_front :=
  rewrite <- ?(assoc_L (++)); simpl;
  rewrite <- ?Permutation_middle, ?app_nil_r; simpl.

Section PoolFacts.
Variable fs : FS.
Variable folder : string.
Variable concurrency : Z.
Variable files : list string.

Lemma pool_inv_start : pool_inv fs folder concurrency files (Pool.start files).
Proof.
  split; simpl; try done; [lia | by rewrite app_nil_r].
Qed.

Lemma pool_inv_step a p p' :
  pool_inv fs folder concurrency files p ->
  Pool.step fs folder concurrency a p = Some p' ->
  pool_inv fs folder concurrency files p'.
Proof.
  intros [Hsem Hwg Hcap Hnames Hprod] Hstep.
  destruct a as [|i clock|j| |]; simpl in Hstep.
  - destruct (Pool.todo p) as [|f rest] eqn:Htodo; [done|].
    destruct (Z.ltb_spec (Z.of_nat (Pool.sem p)) concurrency); [|done].
    inversion Hstep; subst; clear Hstep. split; simpl; try done.
    + rewrite length_app. simpl. lia.
    + lia.
    + lia.
    + rewrite <- Hnames. by perm_front.
  - destruct (Pool.hashing p !! i) as [fname|] eqn:Hi; [|done].
    destruct (processFile_blocks fs (Join folder fname) clock); [done|].
    pose proof (length_delete (Pool.hashing p) i (mk_is_Some _ _ Hi)) as Hlen.
    pose proof (delete_Permutation _ _ _ Hi) as Hperm.
    apply lookup_lt_Some in Hi.
    inversion Hstep; subst; clear Hstep.
    set (d := delete i (Pool.hashing p)) in *.
    split; simpl; try done.
    + rewrite length_app. simpl. lia.
    + rewrite <- Hnames, fmap_app, Hperm. simpl. rewrite processFile_Filename.
      by perm_front.
    + rewrite <- (assoc_L (++)). apply Forall_app in Hprod as [H1 H2].
      apply Forall_app; split; [done|]. constructor; [|done].
      exists clock. by rewrite processFile_Filename.
  - destruct (Pool.computed p !! j) as [entry|] eqn:Hj; [|done].
    pose proof (length_delete (Pool.computed p) j (mk_is_Some _ _ Hj)) as Hlen.
    pose proof (delete_Permutation _ _ _ Hj) as Hperm.
    apply lookup_lt_Some in Hj.
    inversion Hstep; subst; clear Hstep.
    set (d := delete j (Pool.computed p)) in *.
    split; simpl; try done.
    + lia.
    + rewrite <- Hnames, fmap_app, Hperm. simpl. by perm_front.
    + rewrite Hperm in Hprod. revert Hprod.
      rewrite !Forall_app, !Forall_cons, Forall_nil. tauto.
  - destruct (Pool.sent p) as [|n] eqn:Hn; [done|].
    destruct (Pool.sem p) as [|s] eqn:Hs; [done|].
    inversion Hstep; subst; clear Hstep. split; simpl; try done; lia.
  - destruct (Pool.released p) as [|n] eqn:Hn; [done|].
    destruct (Pool.wg p) as [|w] eqn:Hw; [done|].
    inversion Hstep; subst; clear Hstep. split; simpl; try done; lia.
Qed.

Lemma pool_inv_run sched p p' :
  pool_inv fs folder concurrency files p ->
  Pool.run fs folder concurrency sched p = Some p' ->
  pool_inv fs folder concurrency files p'.
Proof.
  revert p. induction sched as [|a sched IH]; intros p Hinv Hrun; simpl in Hrun.
  - by inversion Hrun; subst.
  - destruct (Pool.step fs folder concurrency a p) as [q|] eqn:Hstep; [|done].
    eauto using pool_inv_step.
Qed.

Lemma pool_reachable_inv sched p :
  Pool.run fs folder concurrency sched (Pool.start files) = Some p ->
  pool_inv fs folder concurrency files p.
Proof. apply pool_inv_run, pool_inv_start. Qed.

End PoolFacts.

Section PoolRuns.
Variable fs : FS.
Variable folder : string.
Variable concurrency : Z.
Variable files : list string.

Lemma pool_finished_inv p :
  pool_inv fs folder concurrency files p ->
  Pool.finished p = true ->
  Pool.hashing p = [] ∧ Pool.computed p = [] ∧ Pool.sem p = 0%nat ∧
  Filename <$> Pool.resultsCh p ≡ₚ files ∧
  Forall (produced fs folder) (Pool.resultsCh p).
Proof.
  intros [Hsem Hwg Hcap Hnames Hprod] Hfin.
  apply andb_prop in Hfin as [Htodo Hw].
  apply bool_decide_eq_true in Htodo, Hw.
  assert (Pool.hashing p = []) as Hh by (apply length_zero_iff_nil; lia).
  assert (Pool.computed p = []) as Hc by (apply length_zero_iff_nil; lia).
  rewrite Htodo, Hh, Hc in Hnames. rewrite Hc in Hprod.
  split_and!; try done. lia.
Qed.

(** With at least one slot, running every file to completion in turn
    completes the pool, when every call of [processFile] returns: the for
    loop and the wait terminate. *)
Lemma sequential_run clock todo ch :
  0 < concurrency ->
  Forall (λ f, processFile_blocks fs (Join folder f) clock = false) todo ->
  ∃ p, Pool.run fs folder concurrency (Pool.sequential clock (length todo))
         {| Pool.todo := todo; Pool.hashing := []; Pool.computed := [];
            Pool.sent := 0; Pool.released := 0; Pool.sem := 0; Pool.wg := 0;
            Pool.resultsCh := ch |} = Some p ∧
       Pool.finished p = true ∧
       Pool.resultsCh p =
         ch ++ ((λ f, (processFile fs (Join folder f) f clock).1) <$> todo).
Proof.
  intros Hc Hret. revert ch. induction todo as [|f todo IH]; intros ch.
  - eexists. split; [reflexivity|]. split; [done|]. simpl. by rewrite app_nil_r.
  - apply Forall_cons in Hret as [Hf Hret].
    cbn [length Pool.sequential app Pool.run Pool.step Pool.todo Pool.sem].
    destruct (Z.ltb_spec (Z.of_nat 0) concurrency); [|lia].
    cbn. rewrite Hf. cbn.
    destruct (IH Hret (ch ++ [(processFile fs (Join folder f) f clock).1]))
      as (p & Hrun & Hfin & Hch).
    exists p. split; [done|]. split; [done|].
    rewrite Hch. by rewrite <- (assoc_L (++)).
Qed.

End PoolRuns.

Section PoolProgress.
Variable fs : FS.
Variable folder : string.
Variable concurrency : Z.

Lemma run_app s1 s2 p :
  Pool.run fs folder concurrency (s1 ++ s2) p
  = match Pool.run fs folder concurrency s1 p with
    | Some q => Pool.run fs folder concurrency s2 q
    | None => None
    end.
Proof.
  revert p. induction s1 as [|a s1 IH]; intros p; simpl; [done|].
  by destruct (Pool.step fs folder concurrency a p).
Qed.

(** Every goroutine inside a call of [processFile] that returns leaves it. *)
Lemma drain_hashing clock p :
  Forall (λ f, processFile_blocks fs (Join folder f) clock = false) (Pool.hashing p) ->
  ∃ q, Pool.run fs folder concurrency
         (replicate (length (Pool.hashing p)) (Pool.Hash 0 clock)) p = Some q ∧
       Pool.hashing q = [] ∧
       length (Pool.computed q) = (length (Pool.hashing p) + length (Pool.computed p))%nat ∧
       Pool.todo q = Pool.todo p ∧ Pool.sent q = Pool.sent p ∧
       Pool.released q = Pool.released p ∧ Pool.sem q = Pool.sem p ∧
       Pool.wg q = Pool.wg p.
Proof.
  remember (length (Pool.hashing p)) as n eqn:Hn. revert p Hn.
  induction n as [|n IH]; intros p Hn Hret.
  - exists p. simpl. split_and!; try done. by apply length_zero_iff_nil.
  - destruct (Pool.hashing p) as [|f rest] eqn:Hh; [done|].
    apply Forall_cons in Hret as [Hf Hret].
    simpl. rewrite Hh. simpl. rewrite Hf.
    edestruct IH as (q & Hrun & Hq); [| |exists q; split; [exact Hrun|]].
    + simpl. simpl in Hn. lia.
    + done.
    + simpl in Hq. destruct Hq as (? & Hlen & ? & ? & ? & ? & ?).
      split_and!; try done. rewrite Hlen, length_app. simpl. simpl in Hn. lia.
Qed.

(** Every goroutine that holds an entry sends it. *)
Lemma drain_computed p :
  ∃ q, Pool.run fs folder concurrency
         (replicate (length (Pool.computed p)) (Pool.Send 0)) p = Some q ∧
       Pool.computed q = [] ∧
       Pool.sent q = (length (Pool.computed p) + Pool.sent p)%nat ∧
       Pool.todo q = Pool.todo p ∧ Pool.hashing q = Pool.hashing p ∧
       Pool.released q = Pool.released p ∧ Pool.sem q = Pool.sem p ∧
       Pool.wg q = Pool.wg p ∧
       Pool.resultsCh q = Pool.resultsCh p ++ Pool.computed p.
Proof.
  remember (length (Pool.computed p)) as n eqn:Hn. revert p Hn.
  induction n as [|n IH]; intros p Hn.
  - exists p. simpl. apply eq_sym, length_zero_iff_nil in Hn.
    split_and!; try done. by rewrite Hn, app_nil_r.
  - destruct (Pool.computed p) as [|e rest] eqn:Hc; [done|].
    simpl. rewrite Hc. simpl.
    edestruct IH as (q & Hrun & Hq); [|exists q; split; [exact Hrun|]].
    + simpl. simpl in Hn. lia.
    + simpl in Hq. destruct Hq as (? & Hsent & ? & ? & ? & ? & ? & Hch).
      split_and!; try done; [simpl in Hn; lia|].
      by rewrite Hch, <- (assoc_L (++)).
Qed.

(** Every goroutine that sent releases its slot. *)
Lemma drain_sent p :
  (Pool.sent p <= Pool.sem p)%nat ->
  ∃ q, Pool.run fs folder concurrency (replicate (Pool.sent p) Pool.Release) p = Some q ∧
       Pool.sent q = 0%nat ∧
       Pool.sem q = (Pool.sem p - Pool.sent p)%nat ∧
       Pool.released q = (Pool.released p + Pool.sent p)%nat ∧
       Pool.todo q = Pool.todo p ∧ Pool.hashing q = Pool.hashing p ∧
       Pool.computed q = Pool.computed p ∧ Pool.wg q = Pool.wg p ∧
       Pool.resultsCh q = Pool.resultsCh p.
Proof.
  remember (Pool.sent p) as n eqn:Hn. revert p Hn.
  induction n as [|n IH]; intros p Hn Hle.
  - exists p. simpl. split_and!; try done; lia.
  - destruct (Pool.sem p) as [|s] eqn:Hs; [lia|].
    simpl. rewrite <- Hn, Hs.
    edestruct IH as (q & Hrun & Hq); [| |exists q; split; [exact Hrun|]].
    + done.
    + simpl. lia.
    + simpl in Hq. destruct Hq as (? & Hsem & Hrel & ? & ? & ? & ? & ?).
      split_and!; try done; lia.
Qed.

(** Every goroutine that released its slot signals the wait group. *)
Lemma drain_released p :
  (Pool.released p <= Pool.wg p)%nat ->
  ∃ q, Pool.run fs folder concurrency (replicate (Pool.released p) Pool.Done) p = Some q ∧
       Pool.released q = 0%nat ∧
       Pool.wg q = (Pool.wg p - Pool.released p)%nat ∧
       Pool.todo q = Pool.todo p ∧ Pool.hashing q = Pool.hashing p ∧
       Pool.computed q = Pool.computed p ∧ Pool.sent q = Pool.sent p ∧
       Pool.sem q = Pool.sem p ∧
       Pool.resultsCh q = Pool.resultsCh p.
Proof.
  remember (Pool.released p) as n eqn:Hn. revert p Hn.
  induction n as [|n IH]; intros p Hn Hle.
  - exists p. simpl. split_and!; try done; lia.
  - destruct (Pool.wg p) as [|w] eqn:Hw; [lia|].
    simpl. rewrite <- Hn, Hw.
    edestruct IH as (q & Hrun & Hq); [| |exists q; split; [exact Hrun|]].
    + done.
    + simpl. lia.
    + simpl in Hq. destruct Hq as (? & Hwg & ? & ? & ? & ? & ? & ?).
      split_and!; try done; lia.
Qed.

(** Every goroutine whose call of [processFile] has returned sends its
    entry, releases its slot and signals the wait group, by steps of its
    own: the slots still held are those of the calls in progress. *)
Lemma drain_returned p :
  Pool.sem p = (length (Pool.hashing p) + length (Pool.computed p) + Pool.sent p)%nat ->
  Pool.wg p = (Pool.sem p + Pool.released p)%nat ->
  ∃ rest q,
    Forall (λ a, after_call a = true) rest ∧
    Pool.run fs folder concurrency rest p = Some q ∧
    Pool.todo q = Pool.todo p ∧ Pool.hashing q = Pool.hashing p ∧
    Pool.computed q = [] ∧ Pool.sent q = 0%nat ∧ Pool.released q = 0%nat ∧
    Pool.resultsCh q = Pool.resultsCh p ++ Pool.computed p ∧
    Pool.sem q = length (Pool.hashing p) ∧
    Pool.wg q = length (Pool.hashing p).
Proof.
  intros Hsem Hwg.
  destruct (drain_computed p) as (p2 & Hr2 & Hc2 & Hs2 & Ht2 & Hh2 & Hd2 & Hm2 & Hw2 & Hch2).
  destruct (drain_sent p2) as (p3 & Hr3 & Hs3 & Hm3 & Hd3 & Ht3 & Hh3 & Hc3 & Hw3 & Hch3);
    [lia|].
  destruct (drain_released p3) as (p4 & Hr4 & Hd4 & Hw4 & Ht4 & Hh4 & Hc4 & Hs4 & Hm4 & Hch4);
    [lia|].
  exists (replicate (length (Pool.computed p)) (Pool.Send 0)
            ++ replicate (Pool.sent p2) Pool.Release
            ++ replicate (Pool.released p3) Pool.Done), p4.
  split_and!.
  - rewrite !Forall_app. split_and!; by apply Forall_replicate.
  - by rewrite run_app, Hr2, run_app, Hr3.
  - congruence.
  - congruence.
  - congruence.
  - congruence.
  - done.
  - congruence.
  - lia.
  - lia.
Qed.

(** With at least one slot, and when every call of [processFile] returns,
    the pool cannot get stuck: from every state it can reach, some
    continuation completes it. *)
Lemma pool_can_finish files sched p :
  0 < concurrency ->
  Forall (λ f, processFile_blocks fs (Join folder f) 0 = false) files ->
  Pool.run fs folder concurrency sched (Pool.start files) = Some p ->
  ∃ rest q, Pool.run fs folder concurrency (sched ++ rest) (Pool.start files) = Some q ∧
            Pool.finished q = true.
Proof.
  intros Hc Hret Hrun.
  destruct (pool_reachable_inv _ _ _ _ _ _ Hrun) as [Hsem Hwg _ Hnames _].
  assert (Forall (λ f, processFile_blocks fs (Join folder f) 0 = false) (Pool.todo p)
          ∧ Forall (λ f, processFile_blocks fs (Join folder f) 0 = false) (Pool.hashing p))
    as [Hrt Hrh].
  { rewrite <- Hnames in Hret. apply Forall_app in Hret as [? Hret].
    apply Forall_app in Hret as [? _]. done. }
  destruct (drain_hashing 0 p Hrh)
    as (p1 & Hr1 & Hh1 & Hc1 & Ht1 & Hs1 & Hd1 & Hm1 & Hw1).
  destruct (drain_computed p1) as (p2 & Hr2 & Hc2 & Hs2 & Ht2 & Hh2 & Hd2 & Hm2 & Hw2 & _).
  destruct (drain_sent p2) as (p3 & Hr3 & Hs3 & Hm3 & Hd3 & Ht3 & Hh3 & Hc3 & Hw3 & _);
    [lia|].
  destruct (drain_released p3) as (p4 & Hr4 & Hd4 & Hw4 & Ht4 & Hh4 & Hc4 & Hs4 & Hm4 & _);
    [lia|].
  destruct (sequential_run fs folder concurrency 0 (Pool.todo p4) (Pool.resultsCh p4) Hc)
    as (q & Hr5 & Hfin & _); [congruence|].
  assert (p4 = {| Pool.todo := Pool.todo p4; Pool.hashing := []; Pool.computed := [];
                  Pool.sent := 0; Pool.released := 0; Pool.sem := 0; Pool.wg := 0;
                  Pool.resultsCh := Pool.resultsCh p4 |}) as Hp4.
  { destruct p4 as [t h c s r m w ch]. simpl in *. f_equal; try congruence; lia. }
  rewrite <- Hp4 in Hr5.
  eexists (_ ++ _ ++ _ ++ _ ++ _), q. split; [|done].
  rewrite run_app, Hrun, run_app, Hr1, run_app, Hr2, run_app, Hr3, run_app, Hr4.
  exact Hr5.
Qed.

End PoolProgress.

(** C8. Whatever the schedule, at no point of the processing of a folder
    are more than [concurrency] calls of [processFile] in progress. A
    goroutine is started only by a dispatch that takes a free slot of the
    semaphore, and none is started when no slot is free; it keeps the slot
    while its call is in progress and, whatever the status of the entry the
    call returns, until it has sent the entry; its release gives back
    exactly one slot. From every state, the goroutines whose call has
    returned send, release and signal by steps of their own, after which
    the slots held are exactly those of the calls still in progress; at the
    end every slot has been released. *)
Theorem pool_bounded fs folder concurrency files sched p :
  0 <= concurrency ->
  Pool.run fs folder concurrency sched (Pool.start files) = Some p ->
  Z.of_nat (length (Pool.hashing p)) <= concurrency ∧
  Pool.sem p = (length (Pool.hashing p) + length (Pool.computed p) + Pool.sent p)%nat ∧
  Z.of_nat (Pool.sem p) <= concurrency ∧
  (Pool.finished p = true -> Pool.sem p = 0%nat) ∧
  (∀ q, Pool.step fs folder concurrency Pool.Dispatch p = Some q ->
        Z.of_nat (Pool.sem p) < concurrency ∧ Pool.sem q = S (Pool.sem p) ∧
        length (Pool.hashing q) = S (length (Pool.hashing p))) ∧
  (∀ i clock q, Pool.step fs folder concurrency (Pool.Hash i clock) p = Some q ->
        Pool.sem q = Pool.sem p ∧
        S (length (Pool.hashing q)) = length (Pool.hashing p) ∧
        ∃ e, Pool.computed q = Pool.computed p ++ [e]) ∧
  (∀ q, Pool.step fs folder concurrency Pool.Release p = Some q ->
        S (Pool.sem q) = Pool.sem p ∧ S (Pool.sent q) = Pool.sent p ∧
        Pool.hashing q = Pool.hashing p) ∧
  ∃ rest q,
    Forall (λ a, after_call a = true) rest ∧
    Pool.run fs folder concurrency rest p = Some q ∧
    Pool.todo q = Pool.todo p ∧ Pool.hashing q = Pool.hashing p ∧
    Pool.computed q = [] ∧ Pool.sent q = 0%nat ∧ Pool.released q = 0%nat ∧
    Pool.resultsCh q = Pool.resultsCh p ++ Pool.computed p ∧
    Pool.sem q = length (Pool.hashing p).
Proof.
  intros Hc Hrun. pose proof (pool_reachable_inv _ _ _ _ _ _ Hrun) as Hinv.
  destruct Hinv as [Hsem Hwg Hcap Hnames Hprod].
  split_and!; [lia | done | lia | | | | |].
  - intros Hfin. apply andb_prop in Hfin as [_ Hw].
    apply bool_decide_eq_true in Hw. lia.
  - intros q Hstep. simpl in Hstep.
    destruct (Pool.todo p) as [|f rest]; [done|].
    destruct (Z.ltb_spec (Z.of_nat (Pool.sem p)) concurrency); [|done].
    injection Hstep as <-. simpl. split_and!; [done..|].
    rewrite length_app. simpl. lia.
  - intros i clock q Hstep. simpl in Hstep.
    destruct (Pool.hashing p !! i) as [fname|] eqn:Hi; [|done].
    destruct (processFile_blocks fs (Join folder fname) clock); [done|].
    injection Hstep as <-. simpl. split_and!; [done| |eauto].
    rewrite length_delete by eauto.
    apply lookup_lt_Some in Hi. lia.
  - intros q Hstep. simpl in Hstep.
    destruct (Pool.sent p) as [|n]; [done|].
    destruct (Pool.sem p) as [|m]; [done|].
    by injection Hstep as <-.
  - destruct (drain_returned fs folder concurrency p Hsem Hwg)
      as (rest & q & Hown & Hq & Ht & Hh & Hcq & Hs & Hr & Hch & Hm & _).
    exists rest, q. split_and!; done.
Qed.

(** Two slots, three files: the call on [c.txt] has failed and its entry
    is sent while [a.txt] is in progress; the goroutine of [c.txt] gives its
    slot back by steps of its own, and the only slot then held is that of
    [a.txt]. *)
Lemma pool_bounded_witness :
  0 <= 2 ∧
  Pool.run sample_fs "r_001" 2 [Pool.Dispatch; Pool.Dispatch; Pool.Hash 0 100; Pool.Send 0]
    (Pool.start ["c.txt"; "a.txt"; "b.txt"]) = Some one_sent ∧
  Z.of_nat (length (Pool.hashing one_sent)) <= 2 ∧
  ∃ rest q,
    Forall (λ a, after_call a = true) rest ∧
    Pool.run sample_fs "r_001" 2 rest one_sent = Some q ∧
    Pool.todo q = Pool.todo one_sent ∧ Pool.hashing q = Pool.hashing one_sent ∧
    Pool.computed q = [] ∧ Pool.sent q = 0%nat ∧ Pool.released q = 0%nat ∧
    Pool.resultsCh q = Pool.resultsCh one_sent ++ Pool.computed one_sent ∧
    Pool.sem q = length (Pool.hashing one_sent).
Proof.
  assert (H1 : 0 <= 2) by lia.
  assert (H2 : Pool.run sample_fs "r_001" 2
                 [Pool.Dispatch; Pool.Dispatch; Pool.Hash 0 100; Pool.Send 0]
                 (Pool.start ["c.txt"; "a.txt"; "b.txt"]) = Some one_sent)
    by (vm_compute; reflexivity).
  destruct (pool_bounded sample_fs "r_001" 2 ["c.txt"; "a.txt"; "b.txt"]
              [Pool.Dispatch; Pool.Dispatch; Pool.Hash 0 100; Pool.Send 0] one_sent H1 H2)
    as (Hbound & _ & _ & _ & _ & _ & _ & Hdrain).
  split; [exact H1|]. split; [exact H2|]. split; [exact Hbound | exact Hdrain].
Defined.

(** ** sort.Slice *)

Section Sorting.

Lemma less_true a b : less a b = true -> by_name a b.
Proof.
  unfold less, by_name, String.le, String.ltb, String.leb.
  by destruct (String.compare (Filename a) (Filename b)).
Qed.

Lemma less_false a b : less a b = false -> by_name b a.
Proof.
  unfold less, by_name, String.le, String.ltb, String.leb.
  rewrite (String.compare_antisym (Filename a) (Filename b)).
  by destruct (String.compare (Filename b) (Filename a)).
Qed.

Lemma insert_sorted_Permutation x l : insert_sorted less x l ≡ₚ x :: l.
Proof.
  induction l as [|y l IH]; simpl; [done|].
  destruct (less x y); [done|]. by rewrite IH, Permutation_swap.
Qed.

Lemma sort_Slice_Permutation l : sort_Slice less l ≡ₚ l.
Proof.
  induction l as [|x l IH]; simpl; [done|].
  by rewrite insert_sorted_Permutation, IH.
Qed.

Lemma insert_sorted_HdRel y x l :
  by_name y x -> HdRel by_name y l -> HdRel by_name y (insert_sorted less x l).
Proof.
  intros Hyx Hl. destruct l as [|z l]; simpl; [by constructor|].
  inversion Hl; subst. destruct (less x z); by constructor.
Qed.

Lemma insert_sorted_Sorted x l :
  Sorted by_name l -> Sorted by_name (insert_sorted less x l).
Proof.
  induction 1 as [|y l Hl IH Hhd]; simpl; [by repeat constructor|].
  destruct (less x y) eqn:Hxy.
  - constructor; [by constructor|]. constructor. by apply less_true.
  - constructor; [done|]. apply insert_sorted_HdRel; [by apply less_false | done].
Qed.

Lemma sort_Slice_Sorted l : Sorted by_name (sort_Slice less l).
Proof.
  induction l as [|x l IH]; simpl; [constructor|]. by apply insert_sorted_Sorted.
Qed.

Lemma sort_Slice_names_Sorted l : Sorted String.le (Filename <$> sort_Slice less l).
Proof. apply (Sorted_fmap _ by_name); [done | apply sort_Slice_Sorted]. Qed.

End Sorting.

Lemma by_name_antisym_NoDup (l : list LogEntry) x y :
  NoDup (Filename <$> l) -> x ∈ l -> y ∈ l ->
  by_name x y -> by_name y x -> x = y.
Proof.
  intros Hnd Hx Hy Hxy Hyx.
  assert (Filename x = Filename y) as Heq
    by (apply (anti_symm String.le); done).
  apply list_elem_of_lookup in Hx as [i Hi], Hy as [j Hj].
  assert (i = j) as ->.
  { apply (NoDup_lookup (Filename <$> l) i j (Filename x)); [done|..];
      rewrite list_lookup_fmap; [by rewrite Hi | by rewrite Hj, Heq]. }
  congruence.
Qed.

(** Whatever order [sort.Slice] leaves equal elements in, on entries
    with pairwise distinct file names there is one sorted arrangement. *)
Lemma sorted_log_unique (l l' : list LogEntry) :
  NoDup (Filename <$> l) -> l' ≡ₚ l -> Sorted by_name l' ->
  l' = sort_Slice less l.
Proof.
  intros Hnd Hperm Hsorted.
  assert (Transitive by_name) as Htrans.
  { intros a b c. unfold by_name. apply (transitivity (R := String.le)). }
  apply (StronglySorted_unique_strong by_name).
  - intros x1 x2 H1 H2. apply (by_name_antisym_NoDup l); [done| |].
    + by rewrite <- Hperm.
    + by rewrite <- (sort_Slice_Permutation l).
  - by apply Sorted_StronglySorted.
  - apply Sorted_StronglySorted; [done | apply sort_Slice_Sorted].
  - by rewrite sort_Slice_Permutation.
Qed.

(** ** The listing of a folder *)

Section Scan.
Variable es : gmap string entry.

Global Instance name_le_total : Total name_le.
Proof. intros a b. unfold name_le. apply (total String.le). Qed.

Global Instance name_le_trans : Transitive name_le.
Proof. intros a b c. unfold name_le. apply (transitivity (R := String.le)). Qed.

Lemma collect_files_names (l : list (string * entry)) :
  Name <$> collect_files (to_DirEntry <$> l)
  = (filter (λ ne, is_regular ne.2 = true) l).*1.
Proof.
  unfold collect_files. induction l as [|[n e] l IH]; [done|].
  rewrite fmap_cons, !filter_cons.
  destruct e as [f|]; simpl; repeat case_decide; try done.
  f_equal. exact IH.
Qed.

Lemma StronglySorted_filter {A} (R : relation A) (P : A -> Prop)
    `{∀ x, Decision (P x)} l :
  StronglySorted R l -> StronglySorted R (filter P l).
Proof.
  induction 1 as [|x l Hl IH Hx]; [constructor|].
  rewrite filter_cons. destruct (decide (P x)); [|done].
  constructor; [done|].
  apply Forall_forall. intros y [_ Hy]%list_elem_of_filter.
  rewrite Forall_forall in Hx. by apply Hx.
Qed.

Lemma listing_sorted : StronglySorted name_le (merge_sort name_le (map_to_list es)).
Proof. apply Sorted_StronglySorted; [apply _|]. apply Sorted_merge_sort; apply _. Qed.

Lemma scanned_Sorted : Sorted String.le (scanned es).
Proof.
  unfold scanned. rewrite collect_files_names.
  apply StronglySorted_Sorted.
  apply (StronglySorted_fmap _ name_le); [done|].
  apply StronglySorted_filter, listing_sorted.
Qed.


Lemma scanned_elem name :
  name ∈ scanned es ↔ ∃ f, es !! name = Some (RegFile f).
Proof.
  unfold scanned. rewrite collect_files_names, list_elem_of_fmap. split.
  - intros ([n e] & -> & Hin). apply list_elem_of_filter in Hin as [Hreg Hin].
    rewrite merge_sort_Permutation in Hin. apply elem_of_map_to_list in Hin.
    destruct e as [f|]; [eauto | done].
  - intros [f Hf]. exists (name, RegFile f). split; [done|].
    apply list_elem_of_filter. split; [done|].
    rewrite merge_sort_Permutation. by apply elem_of_map_to_list.
Qed.

Lemma os_ReadDir_scanned fs flt folder dirEntries :
  os_ReadDir fs flt folder = Ok dirEntries ->
  ∃ es', fs !! folder = Some (Folder es') ∧
         dirEntries = to_DirEntry <$> merge_sort name_le (map_to_list es').
Proof.
  unfold os_ReadDir. destruct (readdir_fault flt); [done|].
  destruct (fs !! folder) as [[|es']|]; [done| |done].
  intros [= <-]. eauto.
Qed.

End Scan.

(** ** The results of a folder *)

Section Results.
Variable fs : FS.
Variable folder : string.
Variable concurrency : Z.

Lemma pool_results_inv files sched results :
  pool_results fs folder concurrency files sched = Some results ->
  Filename <$> results ≡ₚ Name <$> files ∧
  Forall (produced fs folder) results ∧
  Sorted by_name results.
Proof.
  unfold pool_results.
  destruct (Pool.run _ _ _ _ _) as [p|] eqn:Hrun; [|done].
  destruct (Pool.finished p) eqn:Hfin; [|done].
  intros [= <-].
  apply pool_reachable_inv in Hrun.
  destruct (pool_finished_inv _ _ _ _ _ Hrun Hfin) as (_ & _ & _ & Hnames & Hprod).
  split_and!.
  - by rewrite sort_Slice_Permutation.
  - by rewrite sort_Slice_Permutation.
  - apply sort_Slice_Sorted.
Qed.

(** With at least one slot some schedule completes the pool. *)
Lemma pool_results_sequential files clock :
  0 < concurrency ->
  Forall (λ f, processFile_blocks fs (Join folder f) clock = false) (Name <$> files) ->
  pool_results fs folder concurrency files
    (Pool.sequential clock (length files))
  = Some (sort_Slice less
            ((λ f, (processFile fs (Join folder f) f clock).1) <$> (Name <$> files))).
Proof.
  intros Hc Hret. unfold pool_results.
  destruct (sequential_run fs folder concurrency clock (Name <$> files) [] Hc Hret)
    as (p & Hrun & Hfin & Hch).
  rewrite length_fmap in Hrun. unfold Pool.start. rewrite Hrun, Hfin.
  by rewrite Hch.
Qed.

End Results.

(** A semaphore without a slot: the loop blocks on the first file for
    ever, whatever the schedule. *)
Lemma zero_slots_never_finish fs folder (files : list DirEntry) sched :
  files ≠ [] -> pool_results fs folder 0 files sched = None.
Proof.
  intros Hfiles. unfold pool_results.
  destruct sched as [|a sched]; simpl.
  - unfold Pool.finished. simpl. rewrite bool_decide_eq_false_2; [done|].
    by destruct files.
  - destruct a as [|i clock|j| |]; simpl; try done.
    by destruct (Name <$> files).
Qed.

Example sample_scan : os_ReadDir sample_fs no_faults "r_001" = Ok sample_listing.
Proof. vm_compute. reflexivity. Qed.

Example sample_run :
  pool_results sample_fs "r_001" 2 (collect_files sample_listing) b_first
  = Some sample_results.
Proof. vm_compute. reflexivity. Qed.

Example sample_blocked :
  pool_results sample_fs "r_001" 1 (collect_files sample_listing) b_first = None.
Proof. vm_compute. reflexivity. Qed.



(** ** The [os] calls *)

Lemma lookup_entry_insert (fs : FS) folder es name :
  lookup_entry (<[folder := Folder es]> fs) (folder, name) = es !! name.
Proof. unfold lookup_entry. simpl. by rewrite lookup_insert_eq. Qed.

Lemma os_Create_ok fs flt folder name fs1 h :
  os_Create fs flt (folder, name) = (fs1, Ok h) ->
  ∃ es, fs !! folder = Some (Folder es) ∧ es !! name ≠ Some SubDir ∧
        h = (folder, name) ∧
        fs1 = <[folder := Folder (<[name := RegFile (plain [])]> es)]> fs.
Proof.
  unfold os_Create, set_entries. simpl. destruct (create_fault flt); [done|].
  destruct (fs !! folder) as [[|es]|]; [done| |done].
  destruct (es !! name) as [[f|]|] eqn:Hn; [|done|];
    intros [= <- <-]; exists es; by rewrite Hn.
Qed.

Lemma os_Create_err fs flt p fs1 err :
  os_Create fs flt p = (fs1, Err err) -> fs1 = fs.
Proof.
  unfold os_Create. destruct (create_fault flt); [by intros [= <-]|].
  destruct (fs !! p.1) as [[|es]|]; [by intros [= <-]| |by intros [= <-]].
  destruct (es !! p.2) as [[f|]|]; [done|by intros [= <-]|done].
Qed.

Lemma file_Write_created (fs : FS) flt folder name es g data :
  file_Write (<[folder := Folder (<[name := RegFile g]> es)]> fs) flt (folder, name) data
  = match write_fault flt with
    | Some (n, cause) =>
        (<[folder := Folder (<[name := RegFile (plain (take n data))]> es)]> fs, Some cause)
    | None => (<[folder := Folder (<[name := RegFile (plain data)]> es)]> fs, None)
    end.
Proof.
  unfold file_Write, set_entries. simpl.
  rewrite lookup_insert_eq, lookup_insert_eq.
  destruct (write_fault flt) as [[n cause]|]; by rewrite !insert_insert_eq.
Qed.

Lemma os_Remove_written (fs : FS) flt folder name es g :
  os_Remove (<[folder := Folder (<[name := RegFile g]> es)]> fs) flt (folder, name)
  = if remove_fault flt
    then <[folder := Folder (<[name := RegFile g]> es)]> fs
    else <[folder := Folder (delete name es)]> fs.
Proof.
  unfold os_Remove, set_entries. simpl. destruct (remove_fault flt); [done|].
  rewrite lookup_insert_eq, lookup_insert_eq.
  by rewrite insert_insert_eq, delete_insert_eq.
Qed.

Lemma insert_folder_if (fs : FS) (b : bool) folder (es1 es2 : gmap string entry) :
  (if b then <[folder := Folder es1]> fs else <[folder := Folder es2]> fs)
  = <[folder := Folder (if b then es1 else es2)]> fs.
Proof. by destruct b. Qed.

Lemma os_Rename_file_written (fs : FS) flt folder old new es g :
  old ≠ new ->
  os_Rename_file (<[folder := Folder (<[old := RegFile g]> es)]> fs) flt
    (folder, old) (folder, new)
  = match publish_fault flt with
    | Some cause => (<[folder := Folder (<[old := RegFile g]> es)]> fs, Some cause)
    | None =>
        match es !! new with
        | Some SubDir =>
            (<[folder := Folder (<[old := RegFile g]> es)]> fs, Some "file exists")
        | _ => (<[folder := Folder (<[new := RegFile g]> (delete old es))]> fs, None)
        end
    end.
Proof.
  intros Hne. unfold os_Rename_file, set_entries. simpl.
  destruct (publish_fault flt); [done|].
  rewrite lookup_insert_eq, lookup_insert_eq, lookup_insert_ne by done.
  destruct (es !! new) as [[h|]|]; try done;
    by rewrite insert_insert_eq, delete_insert_eq.
Qed.

Lemma os_Rename_err fs flt src target fs' err :
  os_Rename fs flt src target = (fs', Some err) -> fs' = fs.
Proof.
  unfold os_Rename. destruct (move_fault flt); [by intros [= <-]|].
  destruct (fs !! src) as [[|es]|], (fs !! target) as [[|es']|];
    by intros [= <-].
Qed.

Lemma os_Rename_ok fs flt src target fs' :
  os_Rename fs flt src target = (fs', None) ->
  ∃ n, fs !! src = Some n ∧ move_fault flt = None ∧
       fs' = <[target := n]> (delete src fs) ∧
       (fs !! target = None ∨ (n = PlainFile ∧ fs !! target = Some PlainFile)).
Proof.
  unfold os_Rename. destruct (move_fault flt); [done|].
  destruct (fs !! src) as [[|es]|], (fs !! target) as [[|es']|];
    try done; intros [= <-]; eexists; split_and!; eauto.
Qed.

Lemma os_Rename_free fs flt src target n :
  move_fault flt = None -> fs !! src = Some n -> fs !! target = None ->
  os_Rename fs flt src target = (<[target := n]> (delete src fs), None).
Proof. intros Hf Hs Ht. unfold os_Rename. rewrite Hf, Hs, Ht. by destruct n. Qed.

(** ** writeLogAtomic *)

Section LogWriter.
Variable json_MarshalIndent : list LogEntry -> result (list byte).

Lemma writeLogAtomic_cases fs flt folder results :
  log_written json_MarshalIndent fs flt folder results
    (writeLogAtomic json_MarshalIndent fs flt folder results).
Proof.
  unfold writeLogAtomic, Join.
  destruct (json_MarshalIndent results) as [data|cause] eqn:Hdata;
    [|by constructor].
  destruct (os_Create fs flt (folder, "log.tmp")) as [fs1 [h|cause]] eqn:Hcreate.
  2: { apply os_Create_err in Hcreate as ->. by econstructor. }
  apply os_Create_ok in Hcreate as (es & Hes & Htmp & -> & ->).
  rewrite file_Write_created.
  destruct (write_fault flt) as [[n cause]|] eqn:Hwrite.
  { rewrite os_Remove_written, insert_folder_if.
    by econstructor. }
  unfold file_Close. destruct (close_fault flt) as [cause|] eqn:Hclose.
  { by econstructor. }
  rewrite os_Rename_file_written by done.
  destruct (publish_fault flt) as [cause|] eqn:Hpublish.
  { rewrite os_Remove_written, insert_folder_if.
    by econstructor. }
  destruct (es !! "log.json") as [[g|]|] eqn:Hfinal.
  - by econstructor.
  - rewrite os_Remove_written, insert_folder_if.
    by econstructor.
  - by econstructor.
Qed.

Lemma writeLogAtomic_ok fs flt folder results fs1 :
  writeLogAtomic json_MarshalIndent fs flt folder results = (fs1, None) ->
  ∃ es data,
    fs !! folder = Some (Folder es) ∧
    json_MarshalIndent results = Ok data ∧
    fs1 = <[folder := Folder (<["log.json" := RegFile (plain data)]> (delete "log.tmp" es))]> fs.
Proof.
  intros H. pose proof (writeLogAtomic_cases fs flt folder results) as Hc.
  rewrite H in Hc. inversion Hc; subst. eauto.
Qed.

(** A failed write of the log leaves [log.json], every other entry of the
    folder but [log.tmp], and every other folder as they were. *)
Lemma writeLogAtomic_failed fs flt folder results fs1 err :
  writeLogAtomic json_MarshalIndent fs flt folder results = (fs1, Some err) ->
  fs1 = fs ∨
  ∃ es es1, fs !! folder = Some (Folder es) ∧ fs1 = <[folder := Folder es1]> fs ∧
            ∀ name, name ≠ "log.tmp" -> es1 !! name = es !! name.
Proof.
  intros H. pose proof (writeLogAtomic_cases fs flt folder results) as Hc.
  rewrite H in Hc. inversion Hc; subst; [by left | by left | right..].
  - eexists _, _. split_and!; [done..|]. intros name Hn.
    destruct (remove_fault flt); [by rewrite lookup_insert_ne | by rewrite lookup_delete_ne].
  - eexists _, _. split_and!; [done..|]. intros name Hn. by rewrite lookup_insert_ne.
  - eexists _, _. split_and!; [done..|]. intros name Hn.
    destruct (remove_fault flt); [by rewrite lookup_insert_ne | by rewrite lookup_delete_ne].
Qed.

Lemma writeLogAtomic_failure_keeps_final fs flt folder results fs1 err :
  writeLogAtomic json_MarshalIndent fs flt folder results = (fs1, Some err) ->
  lookup_entry fs1 (Join folder "log.json") = lookup_entry fs (Join folder "log.json").
Proof.
  intros [->|(es & es1 & Hes & -> & Hsame)]%writeLogAtomic_failed; [done|].
  unfold Join. rewrite lookup_entry_insert. unfold lookup_entry. simpl.
  rewrite Hes. by apply Hsame.
Qed.

(** Writing the log changes no name of the input directory. *)
Lemma writeLogAtomic_names fs flt folder results fs1 r name :
  writeLogAtomic json_MarshalIndent fs flt folder results = (fs1, r) ->
  (is_Some (fs1 !! name) ↔ is_Some (fs !! name)) ∧
  (name ≠ folder -> fs1 !! name = fs !! name).
Proof.
  intros H.
  assert (fs1 = fs ∨ ∃ es es1, fs !! folder = Some (Folder es) ∧
                               fs1 = <[folder := Folder es1]> fs) as [->|(es & es1 & Hes & ->)].
  { destruct r as [err|].
    - apply writeLogAtomic_failed in H as [->|(es & es1 & ? & ? & ?)]; eauto.
    - apply writeLogAtomic_ok in H as (es & data & ? & ? & ?). eauto. }
  - done.
  - destruct (decide (name = folder)) as [->|Hne].
    + rewrite lookup_insert_eq, Hes. split; [split; eauto | done].
    + rewrite lookup_insert_ne by done. done.
Qed.

Lemma writeLogAtomic_target fs flt folder results fs1 r src allSuccess clock :
  writeLogAtomic json_MarshalIndent fs flt folder results = (fs1, r) ->
  target_name fs1 src allSuccess clock = target_name fs src allSuccess clock.
Proof.
  intros H. unfold target_name, os_Stat_ok.
  erewrite (bool_decide_ext (is_Some (fs1 !! _))); [done|].
  by apply (writeLogAtomic_names _ _ _ _ _ _ _ H).
Qed.

(** The path of [writeLogAtomic] on which [tmpFile.Write] fails: [log.tmp]
    is removed. *)
Lemma writeLogAtomic_write_failure fs flt folder results es data n cause :
  json_MarshalIndent results = Ok data ->
  fs !! folder = Some (Folder es) ->
  es !! "log.tmp" ≠ Some SubDir ->
  create_fault flt = None -> write_fault flt = Some (n, cause) ->
  remove_fault flt = false ->
  writeLogAtomic json_MarshalIndent fs flt folder results
  = (<[folder := Folder (delete "log.tmp" es)]> fs, Some (wrap "write tmp log" cause)).
Proof.
  intros Hdata Hes Htmp Hcreate Hwrite Hremove.
  unfold writeLogAtomic, Join. rewrite Hdata.
  assert (os_Create fs flt (folder, "log.tmp")
          = (<[folder := Folder (<["log.tmp" := RegFile (plain [])]> es)]> fs,
             Ok (folder, "log.tmp"))) as ->.
  { unfold os_Create, set_entries. simpl. rewrite Hcreate, Hes.
    by destruct (es !! "log.tmp") as [[f|]|]. }
  rewrite file_Write_created, Hwrite, os_Remove_written. by rewrite Hremove.
Qed.

(** The path of [writeLogAtomic] on which [tmpFile.Close()] fails. *)
Lemma writeLogAtomic_close_failure fs flt folder results es data cause :
  json_MarshalIndent results = Ok data ->
  fs !! folder = Some (Folder es) ->
  es !! "log.tmp" ≠ Some SubDir ->
  create_fault flt = None -> write_fault flt = None ->
  close_fault flt = Some cause ->
  writeLogAtomic json_MarshalIndent fs flt folder results
  = (<[folder := Folder (<["log.tmp" := RegFile (plain data)]> es)]> fs,
     Some (wrap "close tmp log" cause)).
Proof.
  intros Hdata Hes Htmp Hcreate Hwrite Hclose.
  unfold writeLogAtomic, Join. rewrite Hdata.
  assert (os_Create fs flt (folder, "log.tmp")
          = (<[folder := Folder (<["log.tmp" := RegFile (plain [])]> es)]> fs,
             Ok (folder, "log.tmp"))) as ->.
  { unfold os_Create, set_entries. simpl. rewrite Hcreate, Hes.
    by destruct (es !! "log.tmp") as [[f|]|]. }
  rewrite file_Write_created, Hwrite. unfold file_Close. by rewrite Hclose.
Qed.

End LogWriter.

(** C1, where the code departs from it: [tmpFile.Close()] fails after the
    results were written to [log.tmp]. [writeLogAtomic] reports the failure
    and [log.json] is not created, but [log.tmp] is still in the folder,
    with the whole encoded log in it. *)
Theorem close_failure_leaves_tmp :
  let r := writeLogAtomic line_encoder sample_fs close_fails "r_001" sample_results in
  r.2 = Some "close tmp log: input/output error" ∧
  lookup_entry r.1 (Join "r_001" "log.tmp") = Some (RegFile (plain sample_log)) ∧
  lookup_entry r.1 (Join "r_001" "log.json") = None ∧
  lookup_entry sample_fs (Join "r_001" "log.tmp") = None.
Proof.
  rewrite (writeLogAtomic_close_failure line_encoder sample_fs close_fails "r_001"
             sample_results sample_entries sample_log "input/output error");
    [|by vm_compute..].
  cbn [fst snd]. unfold Join. rewrite !lookup_entry_insert.
  split_and!; [done | by rewrite lookup_insert_eq | by vm_compute | by vm_compute].
Qed.

(** C4. The log that is written is in ascending order of file names,
    compared byte by byte; its sequence of file names is the sorted listing
    of the folder's regular files, the same for every schedule; and when
    the write succeeds [log.json] holds the encoding of that sequence. *)
Theorem log_sorted_by_filename json_MarshalIndent fs flt folder es concurrency
    dirEntries sched results :
  fs !! folder = Some (Folder es) ->
  os_ReadDir fs flt folder = Ok dirEntries ->
  pool_results fs folder concurrency (collect_files dirEntries) sched = Some results ->
  Sorted by_name results ∧
  Filename <$> results = scanned es ∧
  (∀ sched' results',
     pool_results fs folder concurrency (collect_files dirEntries) sched' = Some results' ->
     Filename <$> results' = Filename <$> results) ∧
  (∀ fs1,
     writeLogAtomic json_MarshalIndent fs flt folder results = (fs1, None) ->
     ∃ data, json_MarshalIndent results = Ok data ∧
             lookup_entry fs1 (Join folder "log.json") = Some (RegFile (plain data))).
Proof.
  intros Hes Hdir Hres.
  destruct (os_ReadDir_scanned _ _ _ _ Hdir) as (es' & Hes' & ->).
  assert (es' = es) as -> by congruence.
  assert (Hall : ∀ s r,
    pool_results fs folder concurrency
      (collect_files (to_DirEntry <$> merge_sort name_le (map_to_list es))) s = Some r ->
    Sorted by_name r ∧ Filename <$> r = scanned es).
  { intros s r Hr.
    destruct (pool_results_inv _ _ _ _ _ _ Hr) as (Hnames & _ & Hsorted).
    split; [done|].
    apply (Sorted_unique String.le).
    - by apply (Sorted_fmap _ by_name).
    - apply scanned_Sorted.
    - exact Hnames. }
  destruct (Hall _ _ Hres) as [Hs Hn]. split_and!; [done..| |].
  - intros s r Hr. destruct (Hall _ _ Hr) as [_ Hn']. congruence.
  - intros fs1 (es1 & data & _ & Hdata & ->)%writeLogAtomic_ok.
    exists data. split; [done|].
    unfold Join. by rewrite lookup_entry_insert, lookup_insert_eq.
Qed.

(** The example folder: [b.txt] completes first and [a.txt] is logged first. *)
Lemma log_sorted_by_filename_witness :
  sample_fs !! "r_001" = Some (Folder sample_entries) ∧
  os_ReadDir sample_fs no_faults "r_001" = Ok sample_listing ∧
  pool_results sample_fs "r_001" 2 (collect_files sample_listing) b_first
    = Some sample_results ∧
  Sorted by_name sample_results ∧
  Filename <$> sample_results = scanned sample_entries.
Proof.
  assert (H1 : sample_fs !! "r_001" = Some (Folder sample_entries)) by (vm_compute; reflexivity).
  assert (H2 : os_ReadDir sample_fs no_faults "r_001" = Ok sample_listing)
    by (vm_compute; reflexivity).
  assert (H3 : pool_results sample_fs "r_001" 2 (collect_files sample_listing) b_first
               = Some sample_results) by (vm_compute; reflexivity).
  split_and!; [done..| |];
    apply (log_sorted_by_filename line_encoder sample_fs no_faults "r_001" sample_entries 2
             sample_listing b_first sample_results H1 H2 H3).
Defined.

(** ** renameFolderSafe *)

Lemma folder_id_pending id : folder_id ("r_" +:+ id) = id.
Proof.
  unfold folder_id. rewrite (HasPrefix_app id "r_"). simpl negb. cbv iota.
  apply (TrimPrefix_app "r_").
Qed.

Lemma folder_id_other base :
  Text.HasPrefix base "r_" = false ->
  folder_id base =
    match Text.cut "_" base with Some (_, after) => after | None => base end.
Proof.
  intros H. unfold folder_id, Text.SplitN2. rewrite H. simpl.
  by destruct (Text.cut "_" base) as [[b a]|].
Qed.

Lemma targetPrefix_not_pending allSuccess s :
  Text.HasPrefix (targetPrefix allSuccess +:+ s) "r_" = false.
Proof. by destruct allSuccess. Qed.

Lemma target_not_pending allSuccess id t :
  Text.HasPrefix t "r_" = true -> t ≠ targetPrefix allSuccess +:+ id.
Proof. intros H ->. by rewrite targetPrefix_not_pending in H. Qed.

Lemma target_name_cases fs src allSuccess clock :
  let target := targetPrefix allSuccess +:+ folder_id src in
  (fs !! target = None ∧ target_name fs src allSuccess clock = target) ∨
  (is_Some (fs !! target) ∧
   target_name fs src allSuccess clock
     = target +:+ "_" +:+ Clock.FormatCompact clock).
Proof.
  intros target. unfold target_name, os_Stat_ok. fold target.
  destruct (fs !! target) as [n|] eqn:Ht.
  - right. split; [eauto|]. rewrite bool_decide_eq_true_2 by eauto.
    subst target. by destruct allSuccess.
  - left. split; [done|]. rewrite bool_decide_eq_false_2; [done|].
    by intros [? ?].
Qed.

Lemma target_name_prefix fs src allSuccess clock :
  Text.HasPrefix (target_name fs src allSuccess clock) (targetPrefix allSuccess) = true.
Proof.
  unfold target_name. destruct (os_Stat_ok _ _); apply HasPrefix_app.
Qed.

Lemma renameFolderSafe_err fs flt src allSuccess clock fs' err :
  renameFolderSafe fs flt src allSuccess clock = (fs', Some err) -> fs' = fs.
Proof.
  unfold renameFolderSafe.
  destruct (os_Rename _ _ _ _) as [fs2 [e|]] eqn:Hr; [|done].
  intros [= <- _]. by apply os_Rename_err in Hr.
Qed.

Lemma renameFolderSafe_ok fs flt src allSuccess clock fs' :
  renameFolderSafe fs flt src allSuccess clock = (fs', None) ->
  os_Rename fs flt src (target_name fs src allSuccess clock) = (fs', None).
Proof.
  unfold renameFolderSafe.
  destruct (os_Rename _ _ _ _) as [fs2 [e|]] eqn:Hr; [done|]. by intros [= <-].
Qed.

(** The move of a folder that succeeds: the folder is at the target name
    and no longer at its own. *)
Lemma renameFolderSafe_folder fs flt src es allSuccess clock fs' :
  fs !! src = Some (Folder es) ->
  renameFolderSafe fs flt src allSuccess clock = (fs', None) ->
  let target := target_name fs src allSuccess clock in
  fs !! target = None ∧ src ≠ target ∧
  fs' = <[target := Folder es]> (delete src fs).
Proof.
  intros Hsrc Hren target. apply renameFolderSafe_ok in Hren. fold target in Hren.
  apply os_Rename_ok in Hren as (n & Hn & _ & -> & [Hfree|[-> _]]); [|congruence].
  assert (n = Folder es) as -> by congruence.
  split_and!; [done | congruence | done].
Qed.

(** When the name with the suffix is free and the move is not made to
    fail, the move succeeds. *)
Lemma collision_move_succeeds fs flt src n allSuccess clock :
  let target := targetPrefix allSuccess +:+ folder_id src in
  let renamed := target +:+ "_" +:+ Clock.FormatCompact clock in
  fs !! src = Some n -> is_Some (fs !! target) -> fs !! renamed = None ->
  move_fault flt = None ->
  renameFolderSafe fs flt src allSuccess clock
  = (<[renamed := n]> (delete src fs), None).
Proof.
  intros target renamed Hsrc Htarget Hfree Hflt. unfold renameFolderSafe.
  destruct (target_name_cases fs src allSuccess clock) as [[Hnone _]|[_ Hname]].
  { fold target in Hnone. rewrite Hnone in Htarget. by destruct Htarget. }
  rewrite Hname. fold target renamed. by rewrite (os_Rename_free _ _ _ _ n).
Qed.

(** When the name with the suffix is taken too, or the move is made to
    fail, the move of a directory fails and nothing changes. *)
Lemma collision_move_fails fs flt src es allSuccess clock :
  let target := targetPrefix allSuccess +:+ folder_id src in
  let renamed := target +:+ "_" +:+ Clock.FormatCompact clock in
  fs !! src = Some (Folder es) -> is_Some (fs !! target) ->
  is_Some (fs !! renamed) ∨ is_Some (move_fault flt) ->
  ∃ e, renameFolderSafe fs flt src allSuccess clock = (fs, Some e).
Proof.
  intros target renamed Hsrc Htarget Hfail. unfold renameFolderSafe.
  destruct (target_name_cases fs src allSuccess clock) as [[Hnone _]|[_ Hname]].
  { fold target in Hnone. rewrite Hnone in Htarget. by destruct Htarget. }
  rewrite Hname. fold target renamed. unfold os_Rename.
  destruct (move_fault flt) as [cause|] eqn:Hflt; [eauto|].
  destruct Hfail as [[n Hn]|[? ?]]; [|done].
  rewrite Hsrc, Hn. destruct n; eauto.
Qed.

(** C9, as stated, fails. [d_004] and [d_004_20240229T235959Z] both exist
    when [r_004] is finalized at that second: the name with the suffix is
    not checked, the move fails and the folder keeps its name. *)
Theorem suffix_does_not_guarantee_free_name :
  twice_collided_fs !! "d_004" = Some (Folder earlier_run) ∧
  target_name twice_collided_fs "r_004" true 1709251199 = "d_004_20240229T235959Z" ∧
  renameFolderSafe twice_collided_fs no_faults "r_004" true 1709251199
  = (twice_collided_fs,
     Some "os.Rename r_004 -> d_004_20240229T235959Z: file exists") ∧
  twice_collided_fs !! "r_004" = Some (Folder ∅).
Proof. split_and!; vm_compute; reflexivity. Qed.

(** C9, amended. A directory is in the way at the name computed for a
    folder that is being finalized: the name tried instead is that name
    followed by an underscore and the instant of the move in UTC, a name
    different from the computed one. When that name is free and the move is
    not made to fail, the folder is moved there and is no longer at its own
    name. When that name is taken too, or the move is made to fail, the move
    fails and nothing changes: nothing is overwritten. In every case the
    directory that was in the way is as it was. *)
Theorem collision_gets_timestamp_suffix fs flt src es allSuccess clock other :
  let target := targetPrefix allSuccess +:+ folder_id src in
  let renamed := target +:+ "_" +:+ Clock.FormatCompact clock in
  fs !! src = Some (Folder es) ->
  fs !! target = Some (Folder other) ->
  src ≠ target ->
  renamed ≠ target ∧
  target_name fs src allSuccess clock = renamed ∧
  (move_fault flt = None -> fs !! renamed = None ->
   ∃ fs', renameFolderSafe fs flt src allSuccess clock = (fs', None) ∧
          fs' !! renamed = Some (Folder es) ∧
          fs' !! src = None ∧
          (∀ name, name ≠ src -> name ≠ renamed -> fs' !! name = fs !! name)) ∧
  (is_Some (fs !! renamed) ∨ is_Some (move_fault flt) ->
   ∃ e, renameFolderSafe fs flt src allSuccess clock = (fs, Some e)) ∧
  (∀ fs' r, renameFolderSafe fs flt src allSuccess clock = (fs', r) ->
            fs' !! target = Some (Folder other)).
Proof.
  intros target renamed Hsrc Htarget Hne.
  assert (renamed ≠ target) as Hrt by apply suffixed_ne.
  assert (target_name fs src allSuccess clock = renamed) as Hname.
  { destruct (target_name_cases fs src allSuccess clock) as [[Hnone _]|[_ Hname]]; [|done].
    fold target in Hnone. congruence. }
  split_and!; [done | done | | |].
  - intros Hflt Hfree. eexists. split.
    { apply (collision_move_succeeds fs flt src (Folder es) allSuccess clock);
        [done | by exists (Folder other) | done | done]. }
    assert (src ≠ renamed) as Hsr by congruence.
    split_and!.
    + by rewrite lookup_insert_eq.
    + rewrite lookup_insert_ne by done. by rewrite lookup_delete_eq.
    + intros name H1 H2. rewrite lookup_insert_ne by done. by rewrite lookup_delete_ne.
  - intros Hfail.
    apply (collision_move_fails fs flt src es allSuccess clock);
      [done | by exists (Folder other) | done].
  - intros fs' [e|] Hren.
    + apply renameFolderSafe_err in Hren as ->. exact Htarget.
    + destruct (renameFolderSafe_folder _ _ _ _ _ _ _ Hsrc Hren) as (_ & _ & ->).
      rewrite Hname. rewrite lookup_insert_ne by done. by rewrite lookup_delete_ne.
Qed.

(** Scenario D of the specification. *)
Lemma collision_gets_timestamp_suffix_witness :
  collision_fs !! "r_004" = Some (Folder ∅) ∧
  collision_fs !! "d_004" = Some (Folder earlier_run) ∧
  "r_004" ≠ "d_004" ∧
  move_fault no_faults = None ∧
  collision_fs !! "d_004_20240229T235959Z" = None ∧
  target_name collision_fs "r_004" true 1709251199
    = "d_004" +:+ "_" +:+ Clock.FormatCompact 1709251199 ∧
  ∃ fs', renameFolderSafe collision_fs no_faults "r_004" true 1709251199 = (fs', None) ∧
         fs' !! ("d_004" +:+ "_" +:+ Clock.FormatCompact 1709251199) = Some (Folder ∅) ∧
         fs' !! "r_004" = None ∧
         (∀ name, name ≠ "r_004" ->
                  name ≠ "d_004" +:+ "_" +:+ Clock.FormatCompact 1709251199 ->
                  fs' !! name = collision_fs !! name).
Proof.
  assert (H1 : collision_fs !! "r_004" = Some (Folder ∅)) by (vm_compute; reflexivity).
  assert (H2 : collision_fs !! (targetPrefix true +:+ folder_id "r_004")
               = Some (Folder earlier_run)) by (vm_compute; reflexivity).
  assert (H3 : "r_004" ≠ targetPrefix true +:+ folder_id "r_004") by discriminate.
  assert (H4 : move_fault no_faults = None) by reflexivity.
  assert (H5 : collision_fs !! (targetPrefix true +:+ folder_id "r_004" +:+ "_"
                                +:+ Clock.FormatCompact 1709251199) = None)
    by (vm_compute; reflexivity).
  destruct (collision_gets_timestamp_suffix collision_fs no_faults "r_004" ∅ true
              1709251199 earlier_run H1 H2 H3)
    as (_ & Hname & Hmoved & _ & _).
  split; [exact H1|]. split; [exact H2|]. split; [exact H3|]. split; [exact H4|].
  split; [exact H5|]. split; [exact Hname|]. exact (Hmoved H4 H5).
Defined.

Example collision_run :
  renameFolderSafe collision_fs no_faults "r_004" true 1709251199
  = (collision_resolved, None).
Proof. vm_compute. reflexivity. Qed.

(** C10. A base name that does not start with [r_] is not rejected: the
    identifier is what follows its first underscore, or the whole name when
    it has none; the target is the [d_] or [f_] prefix, that identifier and,
    on a collision, the suffix; and the folder is moved there unless the
    move itself fails. *)
Theorem unexpected_name_still_renamed fs flt src n allSuccess clock :
  Text.HasPrefix src "r_" = false ->
  (∀ before after,
     src = before +:+ "_" +:+ after -> Text.contains "_" before = false ->
     folder_id src = after) ∧
  (Text.contains "_" src = false -> folder_id src = src) ∧
  (let target := target_name fs src allSuccess clock in
   (∃ suffix, target = targetPrefix allSuccess +:+ folder_id src +:+ suffix) ∧
   (fs !! src = Some n -> move_fault flt = None -> fs !! target = None ->
    renameFolderSafe fs flt src allSuccess clock
    = (<[target := n]> (delete src fs), None))).
Proof.
  intros Hpre. cbv zeta. split_and!.
  - intros before after -> Hb. rewrite (folder_id_other _ Hpre).
    change (before +:+ "_" +:+ after) with (before +:+ String "_" after).
    by rewrite (cut_app "_" before after Hb).
  - intros Hc. rewrite (folder_id_other _ Hpre). apply cut_None in Hc. by rewrite Hc.
  - destruct (target_name_cases fs src allSuccess clock) as [[_ ->]|[_ ->]].
    + exists "". by rewrite append_empty_r.
    + exists ("_" +:+ Clock.FormatCompact clock). by destruct allSuccess.
  - intros Hsrc Hflt Hfree. unfold renameFolderSafe.
    by rewrite (os_Rename_free _ _ _ _ n).
Qed.

(** The folder [batch_7] is moved to [f_7]. *)
Lemma unexpected_name_still_renamed_witness :
  Text.HasPrefix "batch_7" "r_" = false ∧
  folder_id "batch_7" = "7" ∧
  renameFolderSafe unexpected_fs no_faults "batch_7" false 1000
    = (<["f_7" := Folder ∅]> (delete "batch_7" unexpected_fs), None).
Proof.
  assert (H : Text.HasPrefix "batch_7" "r_" = false) by reflexivity.
  destruct (unexpected_name_still_renamed unexpected_fs no_faults "batch_7" (Folder ∅)
              false 1000 H) as (Hid & _ & _ & Hmove).
  split_and!; [done | by apply (Hid "batch" "7") |].
  rewrite Hmove; [| by vm_compute..]. by vm_compute.
Defined.

(** ** processFolder *)

Lemma allSuccess_spec results :
  allSuccess results = true <-> Forall (λ r, Status r = "success") results.
Proof.
  induction results as [|r rest IH]; simpl; [by split|].
  rewrite Forall_cons, <- IH. case_bool_decide as Hs; [|tauto].
  split; [done | tauto].
Qed.

Section FolderFacts.
Variable json_MarshalIndent : list LogEntry -> result (list byte).

(** [processFolder] once the listing and the pool have given their results. *)
Lemma processFolder_after_pool fs flt folder concurrency sched clock dirEntries results :
  os_ReadDir fs flt folder = Ok dirEntries ->
  0 <= concurrency ->
  pool_results fs folder concurrency (collect_files dirEntries) sched = Some results ->
  processFolder json_MarshalIndent fs flt folder concurrency sched clock
  = match writeLogAtomic json_MarshalIndent fs flt folder results with
    | (fs1, Some err) =>
        match renameFolderSafe fs1 flt folder false clock with
        | (fs2, Some renameErr) =>
            Returned fs2 (Some ("logging error: " +:+ err +:+
                                "; folder rename error: " +:+ renameErr))
        | (fs2, None) => Returned fs2 (Some (wrap "failed to write log" err))
        end
    | (fs1, None) =>
        match renameFolderSafe fs1 flt folder (allSuccess results) clock with
        | (fs2, Some err) => Returned fs2 (Some (wrap "rename folder" err))
        | (fs2, None) => Returned fs2 None
        end
    end.
Proof.
  intros Hdir Hc Hres. unfold processFolder. rewrite Hdir.
  destruct (Z.ltb_spec concurrency 0); [lia|]. by rewrite Hres.
Qed.

(** A call that returns went through the listing and the pool. *)
Lemma processFolder_returned fs flt folder concurrency sched clock fs' err :
  processFolder json_MarshalIndent fs flt folder concurrency sched clock = Returned fs' err ->
  (∃ cause, os_ReadDir fs flt folder = Err cause ∧ fs' = fs ∧
            err = Some (wrap "read folder" cause)) ∨
  (∃ es results,
     fs !! folder = Some (Folder es) ∧
     os_ReadDir fs flt folder = Ok (to_DirEntry <$> merge_sort name_le (map_to_list es)) ∧
     0 <= concurrency ∧
     pool_results fs folder concurrency
       (collect_files (to_DirEntry <$> merge_sort name_le (map_to_list es))) sched
     = Some results).
Proof.
  unfold processFolder.
  destruct (os_ReadDir fs flt folder) as [dirEntries|cause] eqn:Hdir.
  2: { intros [= <- <-]. left. eauto. }
  destruct (os_ReadDir_scanned _ _ _ _ Hdir) as (es & Hes & ->).
  destruct (Z.ltb_spec concurrency 0); [done|].
  destruct (pool_results _ _ _ _ _) as [results|] eqn:Hres; [|done].
  intros _. right. exists es, results. split_and!; [done..|lia|done].
Qed.

(** C3, amended. The log of a folder could not be published:
    [processFolder] still calls [renameFolderSafe], with [allSuccess] false
    whatever the entries are, and reports an error. That move succeeds
    exactly when it is not made to fail and the name it targets is free;
    then a folder that carried the pending marker [r_] is at a name that
    starts with the failed marker [f_] and no longer at its own. When the
    move fails too, the folder stays at its own name, still pending, and
    the error returned names both failures. *)
Theorem log_failure_finalizes_failed fs flt folder concurrency sched clock
    dirEntries results fs1 err :
  os_ReadDir fs flt folder = Ok dirEntries ->
  0 <= concurrency ->
  pool_results fs folder concurrency (collect_files dirEntries) sched = Some results ->
  writeLogAtomic json_MarshalIndent fs flt folder results = (fs1, Some err) ->
  let finalized := renameFolderSafe fs1 flt folder false clock in
  (∃ e, processFolder json_MarshalIndent fs flt folder concurrency sched clock
        = Returned finalized.1 (Some e)) ∧
  (finalized.2 = None -> Text.HasPrefix folder "r_" = true ->
   let target := target_name fs folder false clock in
   Text.HasPrefix target "f_" = true ∧
   finalized.1 !! folder = None ∧
   finalized.1 !! target = fs1 !! folder ∧
   is_Some (fs1 !! folder)) ∧
  (finalized.2 = None ↔
   move_fault flt = None ∧ fs !! target_name fs folder false clock = None) ∧
  (∀ renameErr, finalized.2 = Some renameErr ->
     finalized.1 = fs1 ∧
     is_Some (fs1 !! folder) ∧
     processFolder json_MarshalIndent fs flt folder concurrency sched clock
     = Returned fs1 (Some ("logging error: " +:+ err +:+
                           "; folder rename error: " +:+ renameErr))).
Proof.
  intros Hdir Hc Hres Hwrite finalized. subst finalized.
  assert (target_name fs1 folder false clock = target_name fs folder false clock) as Ht
    by apply (writeLogAtomic_target _ _ _ _ _ _ _ _ _ _ Hwrite).
  assert (∃ es1, fs1 !! folder = Some (Folder es1)) as [es1 Hes1].
  { destruct (os_ReadDir_scanned _ _ _ _ Hdir) as (es & Hes & _).
    apply writeLogAtomic_failed in Hwrite as [->|(es0 & es1 & _ & -> & _)]; [eauto|].
    exists es1. by rewrite lookup_insert_eq. }
  split_and!.
  - rewrite (processFolder_after_pool _ _ _ _ _ _ _ _ Hdir Hc Hres), Hwrite.
    destruct (renameFolderSafe fs1 flt folder false clock) as [fs2 [e|]]; eauto.
  - destruct (renameFolderSafe fs1 flt folder false clock) as [fs2 r] eqn:Hren.
    cbn [fst snd]. intros -> Hpending.
    set (target := target_name fs folder false clock) in *.
    apply renameFolderSafe_ok in Hren. rewrite Ht in Hren.
    apply os_Rename_ok in Hren as (n & Hn & _ & -> & _).
    assert (Hpre : Text.HasPrefix target "f_" = true)
      by apply (target_name_prefix fs folder false clock).
    assert (folder ≠ target) as Hne.
    { intros Heq. rewrite <- Heq in Hpre.
      destruct (HasPrefix_inv _ _ Hpending) as [rest ->]. done. }
    split_and!.
    + done.
    + rewrite lookup_insert_ne by done. by rewrite lookup_delete_eq.
    + by rewrite lookup_insert_eq.
    + eauto.
  - pose proof (writeLogAtomic_names _ _ _ _ _ _ _
                  (target_name fs folder false clock) Hwrite) as [Hsome _].
    split.
    + intros Hok.
      destruct (renameFolderSafe fs1 flt folder false clock) as [fs2 r] eqn:Hren.
      cbn [snd] in Hok. subst r.
      apply renameFolderSafe_ok in Hren. rewrite Ht in Hren.
      apply os_Rename_ok in Hren as (n & Hn & Hflt & _ & [Hfree|[-> _]]); [|congruence].
      split; [done|].
      destruct (fs !! target_name fs folder false clock) eqn:E; [|done].
      destruct Hsome as [_ Hs]. destruct Hs as [x Hx]; [eauto | congruence].
    + intros [Hflt Hfree].
      assert (fs1 !! target_name fs folder false clock = None) as Hfree1.
      { destruct (fs1 !! target_name fs folder false clock) eqn:E; [|done].
        destruct Hsome as [Hs _]. destruct Hs as [x Hx]; [eauto | congruence]. }
      unfold renameFolderSafe. rewrite Ht.
      by rewrite (os_Rename_free fs1 flt folder _ (Folder es1) Hflt Hes1 Hfree1).
  - intros renameErr Hfail.
    rewrite (processFolder_after_pool _ _ _ _ _ _ _ _ Hdir Hc Hres), Hwrite.
    destruct (renameFolderSafe fs1 flt folder false clock) as [fs2 r] eqn:Hren.
    cbn [fst snd] in *. subst r.
    apply renameFolderSafe_err in Hren as ->. split_and!; [done | eauto | done].
Qed.

(** C2, amended. A call of [processFolder] that returns without error has moved
    the folder, with its published log, to a name that starts with the done
    marker [d_] when every record of the log has status [success], and with
    the failed marker [f_] otherwise; a folder without files has an empty
    log and the done marker. *)
Theorem verdict_done_iff_all_success fs flt folder concurrency sched clock fs' :
  processFolder json_MarshalIndent fs flt folder concurrency sched clock = Returned fs' None ->
  ∃ es results data,
    fs !! folder = Some (Folder es) ∧
    pool_results fs folder concurrency
      (collect_files (to_DirEntry <$> merge_sort name_le (map_to_list es))) sched
    = Some results ∧
    json_MarshalIndent results = Ok data ∧
    (allSuccess results = true ↔ Forall (λ r, Status r = "success") results) ∧
    (let target := target_name fs folder (allSuccess results) clock in
     target = targetPrefix (allSuccess results) +:+ folder_id folder
       +:+ (if os_Stat_ok fs (targetPrefix (allSuccess results) +:+ folder_id folder)
            then "_" +:+ Clock.FormatCompact clock else "") ∧
     Text.HasPrefix target (if allSuccess results then "d_" else "f_") = true ∧
     fs' !! target
     = Some (Folder (<["log.json" := RegFile (plain data)]> (delete "log.tmp" es)))) ∧
    (scanned es = [] -> results = [] ∧ allSuccess results = true).
Proof.
  intros Hret.
  destruct (processFolder_returned _ _ _ _ _ _ _ _ Hret)
    as [(cause & _ & _ & ?)|(es & results & Hes & Hdir & Hc & Hres)]; [done|].
  rewrite (processFolder_after_pool _ _ _ _ _ _ _ _ Hdir Hc Hres) in Hret.
  destruct (writeLogAtomic _ _ _ _ _) as [fs1 [err|]] eqn:Hwrite.
  { by destruct (renameFolderSafe fs1 flt folder false clock) as [fs2 [e|]]. }
  destruct (renameFolderSafe _ _ _ _ _) as [fs2 [e|]] eqn:Hren; [done|].
  injection Hret as ->.
  pose proof (writeLogAtomic_target _ _ _ _ _ _ _ folder (allSuccess results) clock Hwrite)
    as Ht.
  apply writeLogAtomic_ok in Hwrite as (es' & data & Hes' & Hdata & ->).
  assert (es' = es) as -> by congruence.
  eapply renameFolderSafe_folder in Hren as (_ & _ & ->);
    [|by rewrite lookup_insert_eq].
  rewrite Ht.
  exists es, results, data. cbv zeta. split_and!; try done.
  - apply allSuccess_spec.
  - unfold target_name. destruct (os_Stat_ok _ _); [done|].
    destruct (allSuccess results); simpl; by rewrite append_empty_r.
  - pose proof (target_name_prefix fs folder (allSuccess results) clock) as Hp.
    by destruct (allSuccess results).
  - by rewrite lookup_insert_eq.
  - intros Hempty.
    destruct (pool_results_inv _ _ _ _ _ _ Hres) as (Hnames & _ & _).
    fold (scanned es) in Hnames. rewrite Hempty in Hnames.
    apply Permutation_nil_r in Hnames. apply fmap_nil_inv in Hnames as ->.
    done.
Qed.

End FolderFacts.

(** C3, as stated, fails. The log of [r_001] cannot be closed while
    [f_001] and [f_001_19700101T001640Z] exist: no move is made to fail,
    yet the move to the failed marker fails and the folder keeps the pending
    marker. *)
Theorem log_failure_may_stay_pending :
  writeLogAtomic line_encoder failed_taken_fs close_fails "r_001" sample_results
    = (failed_taken_unclosed, Some "close tmp log: input/output error") ∧
  move_fault close_fails = None ∧
  processFolder line_encoder failed_taken_fs close_fails "r_001" 2 b_first 1000
    = Returned failed_taken_unclosed
        (Some ("logging error: close tmp log: input/output error; " +:+
               "folder rename error: " +:+
               "os.Rename r_001 -> f_001_19700101T001640Z: file exists")) ∧
  failed_taken_unclosed !! "r_001"
    = Some (Folder (<["log.tmp" := RegFile (plain sample_log)]> sample_entries)).
Proof. split_and!; vm_compute; reflexivity. Qed.

(** C2, as stated, fails. Every record of [r_001] has status [success],
    yet the folder ends as [f_001] when the log cannot be closed, and keeps
    the pending marker, with its log published, when [d_001] and
    [d_001_19700101T001640Z] exist. *)
Theorem all_success_is_not_always_done :
  pool_results sample_fs "r_001" 2 (collect_files sample_listing) b_first
    = Some sample_results ∧
  Forall (λ r, Status r = "success") sample_results ∧
  processFolder line_encoder sample_fs close_fails "r_001" 2 b_first 1000
    = Returned sample_failed
        (Some "failed to write log: close tmp log: input/output error") ∧
  sample_failed !! "d_001" = None ∧
  sample_failed !! "f_001"
    = Some (Folder (<["log.tmp" := RegFile (plain sample_log)]> sample_entries)) ∧
  processFolder line_encoder done_taken_fs no_faults "r_001" 2 b_first 1000
    = Returned done_taken_logged
        (Some "rename folder: os.Rename r_001 -> d_001_19700101T001640Z: file exists") ∧
  done_taken_logged !! "r_001"
    = Some (Folder (<["log.json" := RegFile (plain sample_log)]> sample_entries)).
Proof.
  split_and!; try (vm_compute; reflexivity).
  repeat constructor.
Qed.

(** The example folder when the log cannot be closed: it ends as [f_001],
    since the move is not made to fail and [f_001] is free. *)
Lemma log_failure_finalizes_failed_witness :
  os_ReadDir sample_fs close_fails "r_001" = Ok sample_listing ∧
  0 <= 2 ∧
  pool_results sample_fs "r_001" 2 (collect_files sample_listing) b_first
    = Some sample_results ∧
  writeLogAtomic line_encoder sample_fs close_fails "r_001" sample_results
    = (sample_unclosed, Some "close tmp log: input/output error") ∧
  move_fault close_fails = None ∧
  sample_fs !! target_name sample_fs "r_001" false 1000 = None ∧
  Text.HasPrefix "r_001" "r_" = true ∧
  (let finalized := renameFolderSafe sample_unclosed close_fails "r_001" false 1000 in
   (∃ e, processFolder line_encoder sample_fs close_fails "r_001" 2 b_first 1000
         = Returned finalized.1 (Some e)) ∧
   finalized.2 = None ∧
   finalized.1 !! "r_001" = None ∧
   finalized.1 !! target_name sample_fs "r_001" false 1000 = sample_unclosed !! "r_001").
Proof.
  assert (H1 : os_ReadDir sample_fs close_fails "r_001" = Ok sample_listing)
    by (vm_compute; reflexivity).
  assert (H2 : 0 <= 2) by lia.
  assert (H3 : pool_results sample_fs "r_001" 2 (collect_files sample_listing) b_first
               = Some sample_results) by (vm_compute; reflexivity).
  assert (H4 : writeLogAtomic line_encoder sample_fs close_fails "r_001" sample_results
               = (sample_unclosed, Some "close tmp log: input/output error"))
    by (vm_compute; reflexivity).
  assert (H5 : move_fault close_fails = None) by reflexivity.
  assert (H6 : sample_fs !! target_name sample_fs "r_001" false 1000 = None)
    by (vm_compute; reflexivity).
  assert (H7 : Text.HasPrefix "r_001" "r_" = true) by reflexivity.
  destruct (log_failure_finalizes_failed line_encoder sample_fs close_fails "r_001" 2
              b_first 1000 sample_listing sample_results sample_unclosed _ H1 H2 H3 H4)
    as (Hret & Hmoved & Hiff & _).
  pose proof (proj2 Hiff (conj H5 H6)) as Hok.
  destruct (Hmoved Hok H7) as (_ & Hgone & Hthere & _).
  cbv zeta.
  split_and!;
    [exact H1 | exact H2 | exact H3 | exact H4 | exact H5 | exact H6 | exact H7
    | exact Hret | exact Hok | exact Hgone | exact Hthere].
Defined.

(** The example folder ends as [d_001] with its log, and the folder with a
    file that cannot be opened as [f_002]. *)
Lemma verdict_done_iff_all_success_witness :
  processFolder line_encoder sample_fs no_faults "r_001" 2 b_first 1000
    = Returned sample_done None ∧
  (∃ es results data,
    sample_fs !! "r_001" = Some (Folder es) ∧
    pool_results sample_fs "r_001" 2
      (collect_files (to_DirEntry <$> merge_sort name_le (map_to_list es))) b_first
    = Some results ∧
    line_encoder results = Ok data ∧
    (allSuccess results = true ↔ Forall (λ r, Status r = "success") results) ∧
    (let target := target_name sample_fs "r_001" (allSuccess results) 1000 in
     target = targetPrefix (allSuccess results) +:+ folder_id "r_001"
       +:+ (if os_Stat_ok sample_fs (targetPrefix (allSuccess results) +:+ folder_id "r_001")
            then "_" +:+ Clock.FormatCompact 1000 else "") ∧
     Text.HasPrefix target (if allSuccess results then "d_" else "f_") = true ∧
     sample_done !! target
     = Some (Folder (<["log.json" := RegFile (plain data)]> (delete "log.tmp" es)))) ∧
    (scanned es = [] -> results = [] ∧ allSuccess results = true)) ∧
  processFolder line_encoder locked_fs no_faults "r_002" 4 (Pool.sequential 0 1) 1000
    = Returned locked_done None ∧
  (∃ es results data,
    locked_fs !! "r_002" = Some (Folder es) ∧
    pool_results locked_fs "r_002" 4
      (collect_files (to_DirEntry <$> merge_sort name_le (map_to_list es)))
      (Pool.sequential 0 1)
    = Some results ∧
    line_encoder results = Ok data ∧
    (allSuccess results = true ↔ Forall (λ r, Status r = "success") results) ∧
    (let target := target_name locked_fs "r_002" (allSuccess results) 1000 in
     target = targetPrefix (allSuccess results) +:+ folder_id "r_002"
       +:+ (if os_Stat_ok locked_fs (targetPrefix (allSuccess results) +:+ folder_id "r_002")
            then "_" +:+ Clock.FormatCompact 1000 else "") ∧
     Text.HasPrefix target (if allSuccess results then "d_" else "f_") = true ∧
     locked_done !! target
     = Some (Folder (<["log.json" := RegFile (plain data)]> (delete "log.tmp" es)))) ∧
    (scanned es = [] -> results = [] ∧ allSuccess results = true)).
Proof.
  assert (H : processFolder line_encoder sample_fs no_faults "r_001" 2 b_first 1000
              = Returned sample_done None) by (vm_compute; reflexivity).
  assert (H' : processFolder line_encoder locked_fs no_faults "r_002" 4
                 (Pool.sequential 0 1) 1000 = Returned locked_done None)
    by (vm_compute; reflexivity).
  split; [exact H|]. split.
  { exact (verdict_done_iff_all_success line_encoder sample_fs no_faults "r_001" 2 b_first
             1000 sample_done H). }
  split; [exact H'|].
  exact (verdict_done_iff_all_success line_encoder locked_fs no_faults "r_002" 4
           (Pool.sequential 0 1) 1000 locked_done H').
Defined.

(** ** The scenarios of the specification *)

Example sample_processed :
  processFolder line_encoder sample_fs no_faults "r_001" 2 b_first 1000
  = Returned sample_done None.
Proof. vm_compute. reflexivity. Qed.

Example sample_close_failure :
  processFolder line_encoder sample_fs close_fails "r_001" 2 b_first 1000
  = Returned sample_failed (Some "failed to write log: close tmp log: input/output error").
Proof. vm_compute. reflexivity. Qed.

(** When the move fails as well, both errors are reported and the folder
    keeps its name. *)
Example log_and_move_fail :
  processFolder line_encoder sample_fs close_and_move_fail "r_001" 2 b_first 1000
  = Returned sample_unclosed
      (Some ("logging error: close tmp log: input/output error; " +:+
             "folder rename error: os.Rename r_001 -> f_001: read-only file system")).
Proof. vm_compute. reflexivity. Qed.

Example scenario_locked :
  processFolder line_encoder locked_fs no_faults "r_002" 4 (Pool.sequential 0 1) 1000
  = Returned
      {[ "f_002" :=
           Folder {[ "locked.bin" := RegFile (unreadable "permission denied");
                     "log.json" :=
                       RegFile (plain (bytes_of
                         "locked.bin error failed to open file: permission denied 1970-01-01T00:00:00Z;")) ]} ]}
      None.
Proof. vm_compute. reflexivity. Qed.

Example scenario_empty :
  processFolder line_encoder empty_fs no_faults "r_003" 4 [] 1000
  = Returned {[ "d_003" := Folder {[ "log.json" := RegFile (plain []) ]} ]} None.
Proof. vm_compute. reflexivity. Qed.

(** Without a slot the loop blocks on its first file, and a negative
    capacity makes [make] panic. *)
Example no_slot_blocks :
  processFolder line_encoder sample_fs no_faults "r_001" 0 [Pool.Dispatch] 1000
  = Unfinished.
Proof. vm_compute. reflexivity. Qed.

Example negative_capacity_panics :
  processFolder line_encoder sample_fs no_faults "r_001" (-1) [] 1000 = Panicked.
Proof. vm_compute. reflexivity. Qed.

(** * Further properties *)

(** ** The digest of a file *)

(** X1. The digest field of a record is the 32 hexadecimal digits of the
    16 bytes of an MD5 sum when the status is [success], and empty
    otherwise. *)
Theorem digest_has_32_digits fs fullpath basename clock :
  let e := (processFile fs fullpath basename clock).1 in
  String.length (MD5 e) = if bool_decide (Status e = "success") then 32%nat else 0%nat.
Proof.
  unfold processFile, os_Open.
  destruct (lookup_entry fs fullpath) as [[f|]|]; simpl; [|done..].
  destruct (open_error f); simpl; [done|].
  destruct (read_error f); simpl; [done|].
  by rewrite EncodeToString_length, md5_Sum_length.
Qed.

(** ** The goroutines of a folder *)

Lemma responsive_scanned fs folder es clock :
  fs !! folder = Some (Folder es) -> responsive es ->
  Forall (λ f, processFile_blocks fs (Join folder f) clock = false) (scanned es).
Proof.
  intros Hes Hresp. apply Forall_forall. intros name [f Hf]%scanned_elem.
  specialize (Hresp name (RegFile f) Hf). simpl in Hresp.
  apply orb_false_elim in Hresp as [Ho Hr].
  unfold processFile_blocks, os_Open_blocks, os_Open, lookup_entry, Join. simpl.
  rewrite Hes, Hf, Ho. by destruct (open_error f).
Qed.

(** X2. With at least one slot, and in a folder where the opening and the
    reading of every regular file return, the pool never deadlocks: every
    state the goroutines can reach, under any interleaving, has a
    continuation after which the loop is over and [wg.Wait()] returns, and
    with it [processFolder] returns. *)
Theorem pool_never_deadlocks json_MarshalIndent fs flt folder es concurrency dirEntries
    sched p clock :
  0 < concurrency ->
  fs !! folder = Some (Folder es) ->
  responsive es ->
  os_ReadDir fs flt folder = Ok dirEntries ->
  Pool.run fs folder concurrency sched (Pool.start (Name <$> collect_files dirEntries))
    = Some p ->
  ∃ rest q,
    Pool.run fs folder concurrency (sched ++ rest)
      (Pool.start (Name <$> collect_files dirEntries)) = Some q ∧
    Pool.finished q = true ∧
    ∃ fs' err,
      processFolder json_MarshalIndent fs flt folder concurrency (sched ++ rest) clock
      = Returned fs' err.
Proof.
  intros Hc Hes Hresp Hdir Hrun.
  assert (Forall (λ f, processFile_blocks fs (Join folder f) 0 = false)
            (Name <$> collect_files dirEntries)) as Hret.
  { destruct (os_ReadDir_scanned _ _ _ _ Hdir) as (es' & Hes' & ->).
    assert (es' = es) as -> by congruence.
    by apply (responsive_scanned fs folder es 0). }
  destruct (pool_can_finish fs folder concurrency _ sched p Hc Hret Hrun)
    as (rest & q & Hq & Hfin).
  exists rest, q. split_and!; [done..|].
  erewrite processFolder_after_pool; [|done|lia|].
  2: { unfold pool_results. by rewrite Hq, Hfin. }
  destruct (writeLogAtomic _ _ _ _ _) as [fs1 [e|]].
  - destruct (renameFolderSafe fs1 flt folder false clock) as [fs2 [e2|]]; eauto.
  - destruct (renameFolderSafe fs1 flt folder _ clock) as [fs2 [e2|]]; eauto.
Qed.

Lemma pool_never_deadlocks_witness :
  0 < 2 ∧
  sample_fs !! "r_001" = Some (Folder sample_entries) ∧
  responsive sample_entries ∧
  os_ReadDir sample_fs no_faults "r_001" = Ok sample_listing ∧
  Pool.run sample_fs "r_001" 2 [Pool.Dispatch; Pool.Dispatch; Pool.Hash 1 100]
    (Pool.start (Name <$> collect_files sample_listing)) = Some one_hashed ∧
  ∃ rest q,
    Pool.run sample_fs "r_001" 2 ([Pool.Dispatch; Pool.Dispatch; Pool.Hash 1 100] ++ rest)
      (Pool.start (Name <$> collect_files sample_listing)) = Some q ∧
    Pool.finished q = true ∧
    ∃ fs' err,
      processFolder line_encoder sample_fs no_faults "r_001" 2
        ([Pool.Dispatch; Pool.Dispatch; Pool.Hash 1 100] ++ rest) 1000
      = Returned fs' err.
Proof.
  assert (H1 : 0 < 2) by lia.
  assert (H0 : sample_fs !! "r_001" = Some (Folder sample_entries)) by reflexivity.
  assert (Hr : responsive sample_entries)
    by (apply (bool_decide_unpack (responsive sample_entries)); vm_compute; exact I).
  assert (H2 : os_ReadDir sample_fs no_faults "r_001" = Ok sample_listing)
    by (vm_compute; reflexivity).
  assert (H3 : Pool.run sample_fs "r_001" 2 [Pool.Dispatch; Pool.Dispatch; Pool.Hash 1 100]
                 (Pool.start (Name <$> collect_files sample_listing)) = Some one_hashed)
    by (vm_compute; reflexivity).
  split; [exact H1|]. split; [exact H0|]. split; [exact Hr|].
  split; [exact H2|]. split; [exact H3|].
  exact (pool_never_deadlocks line_encoder sample_fs no_faults "r_001" sample_entries 2
           sample_listing [Pool.Dispatch; Pool.Dispatch; Pool.Hash 1 100] one_hashed 1000
           H1 H0 Hr H2 H3).
Defined.

(** X3. No goroutine ever blocks or panics on the channel, the semaphore
    or the wait group: in every reachable state, [resultsCh], whose capacity
    is the number of files, has room for the entry of each goroutine about
    to send; [sem] holds a token for each goroutine about to release its
    slot; and the wait group counts each goroutine about to call
    [wg.Done()]. *)
Theorem started_goroutines_never_block fs folder concurrency files sched p :
  Pool.run fs folder concurrency sched (Pool.start files) = Some p ->
  (length (Pool.resultsCh p) + length (Pool.computed p) <= length files)%nat ∧
  ((0 < Pool.sent p)%nat -> is_Some (Pool.step fs folder concurrency Pool.Release p)) ∧
  ((0 < Pool.released p)%nat -> is_Some (Pool.step fs folder concurrency Pool.Done p)).
Proof.
  intros [Hsem Hwg _ Hnames _]%pool_reachable_inv.
  apply Permutation_length in Hnames. rewrite !length_app, !length_fmap in Hnames.
  split_and!; [lia|..].
  - intros Hs. simpl. destruct (Pool.sent p); [lia|].
    destruct (Pool.sem p); [lia|]. eauto.
  - intros Hr. simpl. destruct (Pool.released p); [lia|].
    destruct (Pool.wg p); [lia|]. eauto.
Qed.

Lemma started_goroutines_never_block_witness :
  Pool.run sample_fs "r_001" 2 [Pool.Dispatch; Pool.Dispatch]
    (Pool.start ["a.txt"; "b.txt"; "c.txt"]) = Some two_in_flight ∧
  (length (Pool.resultsCh two_in_flight) + length (Pool.computed two_in_flight)
   <= length ["a.txt"; "b.txt"; "c.txt"])%nat.
Proof.
  assert (H : Pool.run sample_fs "r_001" 2 [Pool.Dispatch; Pool.Dispatch]
                (Pool.start ["a.txt"; "b.txt"; "c.txt"]) = Some two_in_flight)
    by reflexivity.
  split; [exact H|].
  exact (proj1 (started_goroutines_never_block sample_fs "r_001" 2
                  ["a.txt"; "b.txt"; "c.txt"] [Pool.Dispatch; Pool.Dispatch]
                  two_in_flight H)).
Defined.

(** ** The content of the log *)

Lemma processFile_untimed fs fullpath basename clock clock' :
  untimed (processFile fs fullpath basename clock).1
  = untimed (processFile fs fullpath basename clock').1.
Proof.
  unfold processFile, os_Open.
  destruct (lookup_entry fs fullpath) as [[f|]|]; simpl; [|done..].
  destruct (open_error f); simpl; [done|].
  by destruct (read_error f).
Qed.

Lemma untimed_by_name fs folder results :
  Forall (produced fs folder) results ->
  untimed <$> results
  = (λ name, untimed (processFile fs (Join folder name) name 0).1) <$> (Filename <$> results).
Proof.
  induction 1 as [|e l [clock He] _ IH]; [done|].
  rewrite !fmap_cons. f_equal; [|exact IH].
  rewrite He at 1. apply processFile_untimed.
Qed.

Lemma allSuccess_untimed l l' :
  untimed <$> l = untimed <$> l' -> allSuccess l = allSuccess l'.
Proof.
  revert l'. induction l as [|e l IH]; intros [|e' l']; try done.
  rewrite !fmap_cons. intros [= _ Hs _ _ Hl]. simpl. rewrite Hs.
  case_bool_decide; [done | by apply IH].
Qed.

(** X4. What [log.json] records about the files does not depend on the
    interleaving of the goroutines nor on the number of slots: two runs of
    the pool on the same folder give entries that agree, position by
    position, on the file name, the status, the digest and the error text
    (only the timestamps may differ), and so the same verdict. *)
Theorem log_independent_of_schedule fs flt folder es concurrency concurrency'
    dirEntries sched sched' results results' :
  fs !! folder = Some (Folder es) ->
  os_ReadDir fs flt folder = Ok dirEntries ->
  pool_results fs folder concurrency (collect_files dirEntries) sched = Some results ->
  pool_results fs folder concurrency' (collect_files dirEntries) sched' = Some results' ->
  untimed <$> results = untimed <$> results' ∧
  allSuccess results = allSuccess results'.
Proof.
  intros Hes Hdir Hres Hres'.
  destruct (os_ReadDir_scanned _ _ _ _ Hdir) as (es' & Hes' & ->).
  assert (es' = es) as -> by congruence.
  assert (Hall : ∀ c s r,
    pool_results fs folder c
      (collect_files (to_DirEntry <$> merge_sort name_le (map_to_list es))) s = Some r ->
    untimed <$> r
    = (λ name, untimed (processFile fs (Join folder name) name 0).1) <$> scanned es).
  { intros c s r Hr.
    destruct (pool_results_inv _ _ _ _ _ _ Hr) as (Hnames & Hprod & Hsorted).
    rewrite (untimed_by_name fs folder r Hprod). f_equal.
    apply (Sorted_unique String.le).
    - by apply (Sorted_fmap _ by_name).
    - apply scanned_Sorted.
    - exact Hnames. }
  assert (untimed <$> results = untimed <$> results') as Heq.
  { rewrite (Hall _ _ _ Hres), (Hall _ _ _ Hres'). done. }
  split; [done | by apply allSuccess_untimed].
Qed.

Lemma log_independent_of_schedule_witness :
  sample_fs !! "r_001" = Some (Folder sample_entries) ∧
  os_ReadDir sample_fs no_faults "r_001" = Ok sample_listing ∧
  pool_results sample_fs "r_001" 2 (collect_files sample_listing) b_first
    = Some sample_results ∧
  pool_results sample_fs "r_001" 1 (collect_files sample_listing) (Pool.sequential 0 2)
    = Some sample_results_in_turn ∧
  untimed <$> sample_results = untimed <$> sample_results_in_turn ∧
  allSuccess sample_results = allSuccess sample_results_in_turn.
Proof.
  assert (H1 : sample_fs !! "r_001" = Some (Folder sample_entries)) by reflexivity.
  assert (H2 : os_ReadDir sample_fs no_faults "r_001" = Ok sample_listing)
    by (vm_compute; reflexivity).
  assert (H3 : pool_results sample_fs "r_001" 2 (collect_files sample_listing) b_first
               = Some sample_results) by (vm_compute; reflexivity).
  assert (H4 : pool_results sample_fs "r_001" 1 (collect_files sample_listing)
                 (Pool.sequential 0 2) = Some sample_results_in_turn)
    by (vm_compute; reflexivity).
  split_and!; [exact H1 | exact H2 | exact H3 | exact H4 | |].
  - exact (proj1 (log_independent_of_schedule sample_fs no_faults "r_001" sample_entries
                    2 1 sample_listing b_first (Pool.sequential 0 2) sample_results
                    sample_results_in_turn H1 H2 H3 H4)).
  - exact (proj2 (log_independent_of_schedule sample_fs no_faults "r_001" sample_entries
                    2 1 sample_listing b_first (Pool.sequential 0 2) sample_results
                    sample_results_in_turn H1 H2 H3 H4)).
Defined.

(** ** The log of a folder *)

(** X5. A call of [writeLogAtomic] that fails, at whatever step, leaves
    every entry of the folder other than [log.tmp] as it was, [log.json]
    included, and touches no other entry of the input directory. *)
Theorem log_failure_touches_only_tmp json_MarshalIndent fs flt folder results fs1 err :
  writeLogAtomic json_MarshalIndent fs flt folder results = (fs1, Some err) ->
  (∀ name, name ≠ "log.tmp" ->
           lookup_entry fs1 (Join folder name) = lookup_entry fs (Join folder name)) ∧
  (∀ other, other ≠ folder -> fs1 !! other = fs !! other).
Proof.
  intros H. split.
  - intros name Hname.
    apply writeLogAtomic_failed in H as [->|(es & es1 & Hes & -> & Hsame)]; [done|].
    unfold Join. rewrite lookup_entry_insert. unfold lookup_entry. simpl.
    rewrite Hes. by apply Hsame.
  - intros other Hne. by apply (writeLogAtomic_names _ _ _ _ _ _ _ other H).
Qed.

Lemma log_failure_touches_only_tmp_witness :
  writeLogAtomic line_encoder sample_fs close_fails "r_001" sample_results
    = (sample_unclosed, Some "close tmp log: input/output error") ∧
  (∀ name, name ≠ "log.tmp" ->
           lookup_entry sample_unclosed (Join "r_001" name)
           = lookup_entry sample_fs (Join "r_001" name)) ∧
  (∀ other, other ≠ "r_001" -> sample_unclosed !! other = sample_fs !! other).
Proof.
  assert (H : writeLogAtomic line_encoder sample_fs close_fails "r_001" sample_results
              = (sample_unclosed, Some "close tmp log: input/output error"))
    by (vm_compute; reflexivity).
  split; [exact H|].
  exact (log_failure_touches_only_tmp line_encoder sample_fs close_fails "r_001"
           sample_results sample_unclosed _ H).
Defined.

(** X6. Once [log.tmp] could be created, a call of [writeLogAtomic] that
    fails at the write or at the rename onto [log.json] leaves no [log.tmp]
    behind, also when an earlier run had left one: provided [Close] does not
    fail and [os.Remove] takes effect. *)
Theorem failed_log_removes_tmp json_MarshalIndent fs flt folder results es data fs1 err :
  json_MarshalIndent results = Ok data ->
  fs !! folder = Some (Folder es) ->
  es !! "log.tmp" ≠ Some SubDir ->
  create_fault flt = None ->
  close_fault flt = None ->
  remove_fault flt = false ->
  writeLogAtomic json_MarshalIndent fs flt folder results = (fs1, Some err) ->
  lookup_entry fs1 (Join folder "log.tmp") = None.
Proof.
  intros Hdata Hes Htmp Hcreate Hclose Hremove.
  unfold writeLogAtomic, Join. rewrite Hdata.
  assert (os_Create fs flt (folder, "log.tmp")
          = (<[folder := Folder (<["log.tmp" := RegFile (plain [])]> es)]> fs,
             Ok (folder, "log.tmp"))) as ->.
  { unfold os_Create, set_entries. simpl. rewrite Hcreate, Hes.
    by destruct (es !! "log.tmp") as [[f|]|]. }
  rewrite file_Write_created.
  destruct (write_fault flt) as [[n cause]|].
  { rewrite os_Remove_written, Hremove. intros [= <- _].
    by rewrite lookup_entry_insert, lookup_delete_eq. }
  unfold file_Close. rewrite Hclose.
  rewrite os_Rename_file_written by done.
  destruct (publish_fault flt) as [cause|].
  { rewrite os_Remove_written, Hremove. intros [= <- _].
    by rewrite lookup_entry_insert, lookup_delete_eq. }
  destruct (es !! "log.json") as [[g|]|]; [done| |done].
  rewrite os_Remove_written, Hremove. intros [= <- _].
  by rewrite lookup_entry_insert, lookup_delete_eq.
Qed.

Lemma failed_log_removes_tmp_witness :
  line_encoder sample_results = Ok sample_log ∧
  stale_fs !! "r_005" = Some (Folder stale_entries) ∧
  stale_entries !! "log.tmp" ≠ Some SubDir ∧
  create_fault write_fails = None ∧
  close_fault write_fails = None ∧
  remove_fault write_fails = false ∧
  writeLogAtomic line_encoder stale_fs write_fails "r_005" sample_results
    = (<["r_005" := Folder (delete "log.tmp" stale_entries)]> stale_fs,
       Some "write tmp log: no space left on device") ∧
  lookup_entry (<["r_005" := Folder (delete "log.tmp" stale_entries)]> stale_fs)
    (Join "r_005" "log.tmp") = None.
Proof.
  assert (H1 : line_encoder sample_results = Ok sample_log) by (vm_compute; reflexivity).
  assert (H2 : stale_fs !! "r_005" = Some (Folder stale_entries)) by reflexivity.
  assert (H3 : stale_entries !! "log.tmp" ≠ Some SubDir) by (vm_compute; discriminate).
  assert (H4 : create_fault write_fails = None) by reflexivity.
  assert (H5 : close_fault write_fails = None) by reflexivity.
  assert (H6 : remove_fault write_fails = false) by reflexivity.
  assert (H7 : writeLogAtomic line_encoder stale_fs write_fails "r_005" sample_results
               = (<["r_005" := Folder (delete "log.tmp" stale_entries)]> stale_fs,
                  Some "write tmp log: no space left on device"))
    by (vm_compute; reflexivity).
  split_and!; [exact H1 | exact H2 | exact H3 | exact H4 | exact H5 | exact H6 | exact H7 |].
  exact (failed_log_removes_tmp line_encoder stale_fs write_fails "r_005" sample_results
           stale_entries sample_log _ _ H1 H2 H3 H4 H5 H6 H7).
Defined.

(** X7. A call of [writeLogAtomic] that succeeds leaves no [log.tmp] in the
    folder, also when an earlier run had left one, and changes nothing but
    [log.tmp] and [log.json]. *)
Theorem published_log_leaves_no_tmp json_MarshalIndent fs flt folder results fs1 :
  writeLogAtomic json_MarshalIndent fs flt folder results = (fs1, None) ->
  lookup_entry fs1 (Join folder "log.tmp") = None ∧
  (∀ name, name ≠ "log.tmp" -> name ≠ "log.json" ->
           lookup_entry fs1 (Join folder name) = lookup_entry fs (Join folder name)) ∧
  (∀ other, other ≠ folder -> fs1 !! other = fs !! other).
Proof.
  intros H. pose proof (writeLogAtomic_names _ _ _ _ _ _ _ folder H) as Hnames.
  apply writeLogAtomic_ok in H as (es & data & Hes & _ & ->). unfold Join.
  split_and!.
  - rewrite lookup_entry_insert, lookup_insert_ne by done. by rewrite lookup_delete_eq.
  - intros name H1 H2. rewrite lookup_entry_insert. unfold lookup_entry. simpl.
    rewrite Hes, lookup_insert_ne by done. by rewrite lookup_delete_ne.
  - intros other Hne. by rewrite lookup_insert_ne.
Qed.

Lemma published_log_leaves_no_tmp_witness :
  writeLogAtomic line_encoder stale_fs no_faults "r_005" sample_results
    = (<["r_005" := Folder (<["log.json" := RegFile (plain sample_log)]>
                              (delete "log.tmp" stale_entries))]> stale_fs, None) ∧
  lookup_entry (<["r_005" := Folder (<["log.json" := RegFile (plain sample_log)]>
                                       (delete "log.tmp" stale_entries))]> stale_fs)
    (Join "r_005" "log.tmp") = None.
Proof.
  assert (H : writeLogAtomic line_encoder stale_fs no_faults "r_005" sample_results
              = (<["r_005" := Folder (<["log.json" := RegFile (plain sample_log)]>
                                        (delete "log.tmp" stale_entries))]> stale_fs, None))
    by (vm_compute; reflexivity).
  split; [exact H|].
  exact (proj1 (published_log_leaves_no_tmp line_encoder stale_fs no_faults "r_005"
                  sample_results _ H)).
Defined.

(** ** The name of a finalized folder *)

Lemma has_shape_length p s :
  Clock.has_shape p s = true -> String.length s = length p.
Proof.
  revert s. induction p as [|x p IH]; intros [|c s]; simpl; try done.
  - by destruct x.
  - destruct x as [|d]; intros [_ H]%andb_prop; by rewrite (IH s H).
Qed.

(** X8. The plain case of [renameFolderSafe]: a pending folder [r_<id>]
    whose target is free is moved to [d_<id>] when every file succeeded and
    to [f_<id>] otherwise, the identifier unchanged; nothing else moves. *)
Theorem pending_folder_takes_marker fs flt id n verdict clock :
  fs !! ("r_" +:+ id) = Some n ->
  fs !! (targetPrefix verdict +:+ id) = None ->
  move_fault flt = None ->
  renameFolderSafe fs flt ("r_" +:+ id) verdict clock
  = (<[targetPrefix verdict +:+ id := n]> (delete ("r_" +:+ id) fs), None).
Proof.
  intros Hsrc Hfree Hmove. unfold renameFolderSafe, target_name, os_Stat_ok.
  rewrite folder_id_pending.
  rewrite bool_decide_eq_false_2 by (rewrite Hfree; by intros [? ?]).
  by rewrite (os_Rename_free fs flt _ _ n Hmove Hsrc Hfree).
Qed.

Lemma pending_folder_takes_marker_witness :
  empty_fs !! ("r_" +:+ "003") = Some (Folder ∅) ∧
  empty_fs !! (targetPrefix false +:+ "003") = None ∧
  move_fault no_faults = None ∧
  renameFolderSafe empty_fs no_faults ("r_" +:+ "003") false 1000
  = (<["f_003" := Folder ∅]> (delete "r_003" empty_fs), None).
Proof.
  assert (H1 : empty_fs !! ("r_" +:+ "003") = Some (Folder ∅)) by reflexivity.
  assert (H2 : empty_fs !! (targetPrefix false +:+ "003") = None) by reflexivity.
  assert (H3 : move_fault no_faults = None) by reflexivity.
  split_and!; [exact H1 | exact H2 | exact H3 |].
  exact (pending_folder_takes_marker empty_fs no_faults "003" (Folder ∅) false 1000
           H1 H2 H3).
Defined.

(** X9. The identifier survives finalization: the identifier
    [renameFolderSafe] derives from the name it gave to a pending folder
    [r_<id>], [d_<id>] or [f_<id>], is [id] again, underscores in [id]
    included. A folder that is finalized a second time keeps its
    identifier. *)
Theorem folder_id_survives verdict id :
  folder_id (targetPrefix verdict +:+ folder_id ("r_" +:+ id)) = id.
Proof.
  rewrite folder_id_pending, folder_id_other by apply targetPrefix_not_pending.
  destruct verdict.
  - change (targetPrefix true +:+ id) with ("d" +:+ String "_" id).
    by rewrite (cut_app "_" "d" id).
  - change (targetPrefix false +:+ id) with ("f" +:+ String "_" id).
    by rewrite (cut_app "_" "f" id).
Qed.

(** X10. When the computed target exists, the name [renameFolderSafe]
    moves to is the target, an underscore and a stamp of sixteen characters
    of the form [YYYYMMDDTHHMMSSZ], for every instant of the years 1970 to
    9999. *)
Theorem collision_suffix_shape fs src verdict clock :
  0 <= clock < 253402300800 ->
  is_Some (fs !! (targetPrefix verdict +:+ folder_id src)) ->
  ∃ stamp,
    target_name fs src verdict clock
      = targetPrefix verdict +:+ folder_id src +:+ "_" +:+ stamp ∧
    String.length stamp = 16%nat ∧
    Clock.has_shape Clock.compact_utc stamp = true.
Proof.
  intros Hclock Hthere. exists (Clock.FormatCompact clock).
  pose proof (FormatCompact_shape clock Hclock) as Hshape.
  split_and!; [|apply (has_shape_length _ _ Hshape)|done].
  unfold target_name, os_Stat_ok. by rewrite bool_decide_eq_true_2.
Qed.

Lemma collision_suffix_shape_witness :
  0 <= 1709251199 < 253402300800 ∧
  is_Some (collision_fs !! (targetPrefix true +:+ folder_id "r_004")) ∧
  ∃ stamp,
    target_name collision_fs "r_004" true 1709251199
      = targetPrefix true +:+ folder_id "r_004" +:+ "_" +:+ stamp ∧
    String.length stamp = 16%nat ∧
    Clock.has_shape Clock.compact_utc stamp = true.
Proof.
  assert (H1 : 0 <= 1709251199 < 253402300800) by lia.
  assert (H2 : is_Some (collision_fs !! (targetPrefix true +:+ folder_id "r_004")))
    by (vm_compute; eauto).
  split; [exact H1|]. split; [exact H2|].
  exact (collision_suffix_shape collision_fs "r_004" true 1709251199 H1 H2).
Defined.

(** ** The effect of processFolder *)

Section Effect.
Variable json_MarshalIndent : list LogEntry -> result (list byte).

Lemma same_files_refl es : same_files es es.
Proof. by intros name _ _. Qed.

Lemma processFolder_effect fs flt folder concurrency sched clock fs' err :
  processFolder json_MarshalIndent fs flt folder concurrency sched clock = Returned fs' err ->
  folder_effect fs folder clock fs' err.
Proof.
  intros H. destruct (processFolder_returned _ _ _ _ _ _ _ _ _ H)
    as [(cause & _ & -> & ->)|(es & results & Hes & Hdir & Hc & Hres)].
  { constructor. }
  rewrite (processFolder_after_pool _ _ _ _ _ _ _ _ _ Hdir Hc Hres) in H.
  destruct (writeLogAtomic _ fs flt folder results) as [fs1 [e|]] eqn:Hlog.
  - assert (∃ es1, fs1 = <[folder := Folder es1]> fs ∧ same_files es es1)
      as (es1 & Hfs1 & Hsame).
    { apply writeLogAtomic_failed in Hlog as [->|(es0 & es1 & Hes0 & -> & Hs)].
      - exists es. split; [by rewrite insert_id | apply same_files_refl].
      - rewrite Hes in Hes0. injection Hes0 as <-.
        exists es1. split; [done|]. intros name Hn _. by apply Hs. }
    destruct (renameFolderSafe fs1 flt folder false clock) as [fs2 [e2|]] eqn:Hmove.
    + injection H as <- <-. apply renameFolderSafe_err in Hmove as ->.
      rewrite Hfs1. by econstructor.
    + injection H as <- <-.
      pose proof (writeLogAtomic_target _ _ _ _ _ _ _ folder false clock Hlog) as Ht.
      pose proof (writeLogAtomic_names _ _ _ _ _ _ _
                    (target_name fs folder false clock) Hlog) as [Hn _].
      destruct (renameFolderSafe_folder fs1 flt folder es1 false clock fs2)
        as (Hfree & Hne & ->); [by rewrite Hfs1, lookup_insert_eq | done |].
      rewrite Ht in *.
      rewrite Hfs1, delete_insert_eq.
      apply (effect_moved _ _ _ es es1 false); [done..| | congruence | done].
      destruct (fs !! target_name fs folder false clock) eqn:E; [|done].
      destruct Hn as [_ Hn]. destruct Hn as [x Hx]; [eauto|]. congruence.
  - apply writeLogAtomic_ok in Hlog as Hok. destruct Hok as (es0 & data & Hes0 & Hdata & Hfs1).
    rewrite Hes in Hes0. injection Hes0 as <-.
    assert (same_files es (<["log.json" := RegFile (plain data)]> (delete "log.tmp" es)))
      as Hsame.
    { intros name H1 H2. by rewrite lookup_insert_ne, lookup_delete_ne. }
    destruct (renameFolderSafe fs1 flt folder (allSuccess results) clock)
      as [fs2 [e2|]] eqn:Hmove.
    + injection H as <- <-. apply renameFolderSafe_err in Hmove as ->.
      rewrite Hfs1. by econstructor.
    + injection H as <- <-.
      pose proof (writeLogAtomic_target _ _ _ _ _ _ _ folder (allSuccess results) clock Hlog)
        as Ht.
      pose proof (writeLogAtomic_names _ _ _ _ _ _ _
                    (target_name fs folder (allSuccess results) clock) Hlog) as [Hn _].
      destruct (renameFolderSafe_folder fs1 flt folder
                  (<["log.json" := RegFile (plain data)]> (delete "log.tmp" es))
                  (allSuccess results) clock fs2)
        as (Hfree & Hne & ->); [by rewrite Hfs1, lookup_insert_eq | done |].
      rewrite Ht in *.
      rewrite Hfs1, delete_insert_eq.
      apply (effect_moved _ _ _ es _ (allSuccess results)); [done..| | congruence | ].
      * destruct (fs !! target_name fs folder (allSuccess results) clock) eqn:E; [|done].
        destruct Hn as [_ Hn]. destruct Hn as [x Hx]; [eauto|]. congruence.
      * by intros [? ?].
Qed.

End Effect.

(** ** What one folder does to the input directory *)

Lemma marker_not_pending s verdict :
  Text.HasPrefix s (targetPrefix verdict) = true -> Text.HasPrefix s "r_" = false.
Proof.
  intros [rest ->]%HasPrefix_inv. apply targetPrefix_not_pending.
Qed.

Lemma marker_done_or_failed s verdict :
  Text.HasPrefix s (targetPrefix verdict) = true ->
  Text.HasPrefix s "d_" = verdict ∧ Text.HasPrefix s "f_" = negb verdict.
Proof.
  intros [rest ->]%HasPrefix_inv.
  destruct verdict; split; try reflexivity; apply HasPrefix_app.
Qed.

Lemma target_name_not_pending fs src verdict clock :
  Text.HasPrefix (target_name fs src verdict clock) "r_" = false.
Proof. eapply marker_not_pending, target_name_prefix. Qed.

Lemma folder_effect_other fs folder clock fs' err name n :
  folder_effect fs folder clock fs' err ->
  name ≠ folder -> fs !! name = Some n -> fs' !! name = Some n.
Proof.
  intros He Hne Hn. inversion He; subst; [done|by rewrite lookup_insert_ne|].
  rewrite lookup_insert_ne by congruence. by rewrite lookup_delete_ne.
Qed.

Lemma folder_effect_no_pending fs folder clock fs' err name :
  folder_effect fs folder clock fs' err ->
  Text.HasPrefix name "r_" = true -> fs !! name = None -> fs' !! name = None.
Proof.
  intros He Hp Hn. inversion He; subst; [done|rewrite lookup_insert_ne; congruence|].
  rewrite lookup_insert_ne.
  - destruct (decide (name = folder)) as [->|];
      [by rewrite lookup_delete_eq | by rewrite lookup_delete_ne].
  - intros <-. by rewrite target_name_not_pending in Hp.
Qed.

Lemma folder_effect_from fs folder clock fs' err name n :
  folder_effect fs folder clock fs' err ->
  Text.HasPrefix name "r_" = true -> name ≠ folder ->
  fs' !! name = Some n -> fs !! name = Some n.
Proof.
  intros He Hp Hne Hn. inversion He; subst; [done|by rewrite lookup_insert_ne in Hn|].
  rewrite lookup_insert_ne in Hn.
  - by rewrite lookup_delete_ne in Hn.
  - intros <-. by rewrite target_name_not_pending in Hp.
Qed.

Lemma folder_effect_moved_away fs folder clock fs' :
  folder_effect fs folder clock fs' None -> fs' !! folder = None.
Proof.
  intros He. inversion He; subst.
  rewrite lookup_insert_ne by done. by rewrite lookup_delete_eq.
Qed.

(** ** processFolder and the input directory *)

(** X11. A call of [processFolder] that returns leaves every other entry of
    the input directory as it was: none is changed, removed or replaced.
    The only name it may add starts with [d_] or [f_], and then the folder
    is no longer at its own name. *)
Theorem processFolder_keeps_other_entries json_MarshalIndent fs flt folder concurrency
    sched clock fs' err :
  processFolder json_MarshalIndent fs flt folder concurrency sched clock = Returned fs' err ->
  (∀ name n, name ≠ folder -> fs !! name = Some n -> fs' !! name = Some n) ∧
  (∀ name, fs !! name = None -> is_Some (fs' !! name) ->
           (Text.HasPrefix name "d_" = true ∨ Text.HasPrefix name "f_" = true) ∧
           fs' !! folder = None).
Proof.
  intros He%processFolder_effect. split.
  { intros name n. exact (folder_effect_other _ _ _ _ _ name n He). }
  intros name Hn Hsome. inversion He; subst.
  - rewrite Hn in Hsome. by destruct Hsome.
  - rewrite lookup_insert_ne, Hn in Hsome by congruence. by destruct Hsome.
  - destruct (decide (name = target_name fs folder verdict clock)) as [->|Hne].
    + split.
      * pose proof (target_name_prefix fs folder verdict clock) as Hp.
        apply marker_done_or_failed in Hp as [Hd Hf].
        destruct verdict; [by left | by right].
      * rewrite lookup_insert_ne by done. by rewrite lookup_delete_eq.
    + rewrite lookup_insert_ne in Hsome by done.
      destruct (decide (name = folder)) as [->|Hnf].
      * rewrite lookup_delete_eq in Hsome. by destruct Hsome.
      * rewrite lookup_delete_ne, Hn in Hsome by done. by destruct Hsome.
Qed.

Lemma processFolder_keeps_other_entries_witness :
  processFolder line_encoder collision_fs no_faults "r_004" 1 [] 1709251199
    = Returned collision_done None ∧
  (∀ name n, name ≠ "r_004" -> collision_fs !! name = Some n ->
             collision_done !! name = Some n) ∧
  (∀ name, collision_fs !! name = None -> is_Some (collision_done !! name) ->
           (Text.HasPrefix name "d_" = true ∨ Text.HasPrefix name "f_" = true) ∧
           collision_done !! "r_004" = None).
Proof.
  assert (H : processFolder line_encoder collision_fs no_faults "r_004" 1 [] 1709251199
              = Returned collision_done None) by (vm_compute; reflexivity).
  split; [exact H|].
  exact (processFolder_keeps_other_entries line_encoder collision_fs no_faults "r_004" 1 []
           1709251199 collision_done None H).
Defined.

(** X12. Whatever the outcome of a call that returns, the regular files and
    the nested directories of the folder are still in it, unchanged: only
    [log.tmp] and [log.json] may differ. The folder is at its own name or,
    once moved, at a name that was free. *)
Theorem processFolder_keeps_files json_MarshalIndent fs flt folder es concurrency
    sched clock fs' err :
  fs !! folder = Some (Folder es) ->
  processFolder json_MarshalIndent fs flt folder concurrency sched clock = Returned fs' err ->
  ∃ place es',
    fs' !! place = Some (Folder es') ∧
    (∀ name, name ≠ "log.tmp" -> name ≠ "log.json" -> es' !! name = es !! name) ∧
    (place = folder ∨ (fs' !! folder = None ∧ fs !! place = None)).
Proof.
  intros Hes He%processFolder_effect. inversion He; subst.
  - exists folder, es. split_and!; [done|done|by left].
  - rewrite Hes in H. injection H as <-.
    exists folder, es'. split_and!; [by rewrite lookup_insert_eq | done | by left].
  - rewrite Hes in H. injection H as <-.
    exists (target_name fs folder verdict clock), es'.
    split_and!; [by rewrite lookup_insert_eq | done |].
    right. split; [|done]. rewrite lookup_insert_ne by done. by rewrite lookup_delete_eq.
Qed.

Lemma processFolder_keeps_files_witness :
  sample_fs !! "r_001" = Some (Folder sample_entries) ∧
  processFolder line_encoder sample_fs close_fails "r_001" 2 b_first 1000
    = Returned sample_failed (Some "failed to write log: close tmp log: input/output error") ∧
  ∃ place es',
    sample_failed !! place = Some (Folder es') ∧
    (∀ name, name ≠ "log.tmp" -> name ≠ "log.json" ->
             es' !! name = sample_entries !! name) ∧
    (place = "r_001" ∨ (sample_failed !! "r_001" = None ∧ sample_fs !! place = None)).
Proof.
  assert (H1 : sample_fs !! "r_001" = Some (Folder sample_entries)) by reflexivity.
  assert (H2 : processFolder line_encoder sample_fs close_fails "r_001" 2 b_first 1000
               = Returned sample_failed
                   (Some "failed to write log: close tmp log: input/output error"))
    by (vm_compute; reflexivity).
  split; [exact H1|]. split; [exact H2|].
  exact (processFolder_keeps_files line_encoder sample_fs close_fails "r_001" sample_entries
           2 b_first 1000 sample_failed _ H1 H2).
Defined.

(** X13. When [processFolder] returns an error, it has created, changed or
    removed no entry whose name starts with the done marker [d_]: a folder
    is never marked done by a call that reports a failure. *)
Theorem error_never_marks_done json_MarshalIndent fs flt folder concurrency sched clock
    fs' e :
  Text.HasPrefix folder "d_" = false ->
  processFolder json_MarshalIndent fs flt folder concurrency sched clock
    = Returned fs' (Some e) ->
  ∀ name, Text.HasPrefix name "d_" = true -> fs' !! name = fs !! name.
Proof.
  intros Hf He%processFolder_effect name Hd.
  assert (name ≠ folder) as Hne by (intros ->; congruence).
  inversion He; subst; [done|by rewrite lookup_insert_ne|].
  assert (verdict = false) as -> by eauto.
  pose proof (target_name_prefix fs folder false clock) as Hp.
  apply marker_done_or_failed in Hp as [Hp _].
  rewrite lookup_insert_ne by (intros <-; congruence).
  by rewrite lookup_delete_ne.
Qed.

Lemma error_never_marks_done_witness :
  Text.HasPrefix "r_001" "d_" = false ∧
  processFolder line_encoder sample_fs close_fails "r_001" 2 b_first 1000
    = Returned sample_failed (Some "failed to write log: close tmp log: input/output error") ∧
  ∀ name, Text.HasPrefix name "d_" = true -> sample_failed !! name = sample_fs !! name.
Proof.
  assert (H1 : Text.HasPrefix "r_001" "d_" = false) by reflexivity.
  assert (H2 : processFolder line_encoder sample_fs close_fails "r_001" 2 b_first 1000
               = Returned sample_failed
                   (Some "failed to write log: close tmp log: input/output error"))
    by (vm_compute; reflexivity).
  split; [exact H1|]. split; [exact H2|].
  exact (error_never_marks_done line_encoder sample_fs close_fails "r_001" 2 b_first 1000
           sample_failed _ H1 H2).
Defined.

(** X14. The folder leaves its own name only when the move is not made
    to fail and the name it targets is free. When [processFolder] returns
    and the folder is still at its own name, because the listing failed or
    because [os.Rename] failed, whether the environment made it fail or the
    names it could target were taken, an error is returned, the folder is
    still there with its files as they were, and no other entry of the
    input directory changed. *)
Theorem move_failure_keeps_folder_pending json_MarshalIndent fs flt folder es concurrency
    sched clock fs' err :
  fs !! folder = Some (Folder es) ->
  processFolder json_MarshalIndent fs flt folder concurrency sched clock = Returned fs' err ->
  (fs' !! folder = None ->
   move_fault flt = None ∧
   ∃ verdict, fs !! target_name fs folder verdict clock = None ∧
              is_Some (fs' !! target_name fs folder verdict clock)) ∧
  (is_Some (fs' !! folder) ->
   is_Some err ∧
   (∃ es', fs' !! folder = Some (Folder es') ∧
           ∀ name, name ≠ "log.tmp" -> name ≠ "log.json" -> es' !! name = es !! name) ∧
   (∀ other, other ≠ folder -> fs' !! other = fs !! other)).
Proof.
  intros Hes H.
  assert (∀ fs1 r verdict results,
            writeLogAtomic json_MarshalIndent fs flt folder results = (fs1, r) ->
            (∃ es1, fs1 !! folder = Some (Folder es1) ∧
                    ∀ name, name ≠ "log.tmp" -> name ≠ "log.json" ->
                            es1 !! name = es !! name) ∧
            (∀ other, other ≠ folder -> fs1 !! other = fs !! other) ∧
            (∀ fs2, renameFolderSafe fs1 flt folder verdict clock = (fs2, None) ->
                    fs2 !! folder = None ∧ move_fault flt = None ∧
                    fs !! target_name fs folder verdict clock = None ∧
                    is_Some (fs2 !! target_name fs folder verdict clock))) as Hlog.
  { intros fs1 r verdict results Hw.
    assert (∃ es1, fs1 !! folder = Some (Folder es1) ∧
                   ∀ name, name ≠ "log.tmp" -> name ≠ "log.json" ->
                           es1 !! name = es !! name) as (es1 & Hes1 & Hsame).
    { destruct r as [e|].
      - apply writeLogAtomic_failed in Hw as [->|(es0 & es1 & Hes0 & -> & Hs)].
        + by exists es.
        + rewrite Hes in Hes0. injection Hes0 as <-.
          exists es1. split; [by rewrite lookup_insert_eq|]. intros name Hn _. by apply Hs.
      - apply writeLogAtomic_ok in Hw as (es0 & data & Hes0 & _ & ->).
        rewrite Hes in Hes0. injection Hes0 as <-.
        eexists. split; [by rewrite lookup_insert_eq|].
        intros name H1 H2. by rewrite lookup_insert_ne, lookup_delete_ne. }
    split_and!; [eauto | |].
    - intros other Hne. by apply (writeLogAtomic_names _ _ _ _ _ _ _ other Hw).
    - intros fs2 Hmove.
      pose proof (writeLogAtomic_target _ _ _ _ _ _ _ folder verdict clock Hw) as Ht.
      pose proof (writeLogAtomic_names _ _ _ _ _ _ _
                    (target_name fs folder verdict clock) Hw) as [Hn _].
      pose proof (renameFolderSafe_ok _ _ _ _ _ _ Hmove) as Hren.
      apply os_Rename_ok in Hren as (_ & _ & Hflt & _ & _).
      destruct (renameFolderSafe_folder fs1 flt folder es1 verdict clock fs2 Hes1 Hmove)
        as (Hfree & Hne & ->).
      rewrite Ht in *. split_and!.
      + rewrite lookup_insert_ne by done. by rewrite lookup_delete_eq.
      + done.
      + destruct (fs !! target_name fs folder verdict clock) eqn:E; [|done].
        destruct Hn as [_ Hn]. destruct Hn as [x Hx]; [eauto | congruence].
      + rewrite lookup_insert_eq. eauto. }
  destruct (processFolder_returned _ _ _ _ _ _ _ _ _ H)
    as [(c0 & _ & -> & ->)|(es0 & results & Hes0 & Hdir & Hc & Hres)].
  { split; [by rewrite Hes|]. intros _. split_and!; [eauto | by exists es | done]. }
  rewrite (processFolder_after_pool _ _ _ _ _ _ _ _ _ Hdir Hc Hres) in H.
  destruct (writeLogAtomic _ fs flt folder results) as [fs1 [e|]] eqn:Hw.
  - destruct (Hlog fs1 _ false results Hw) as ((es1 & Hes1 & Hsame) & Hother & Hmoved).
    destruct (renameFolderSafe fs1 flt folder false clock) as [fs2 [e2|]] eqn:Hmove.
    + apply renameFolderSafe_err in Hmove as ->. injection H as <- <-.
      split; [by rewrite Hes1|]. intros _. split_and!; [eauto | eauto | done].
    + injection H as <- <-. destruct (Hmoved fs2 eq_refl) as (Hgone & Hflt & Hfree & Hat).
      split; [eauto|]. rewrite Hgone. by intros [? ?].
  - destruct (Hlog fs1 _ (allSuccess results) results Hw)
      as ((es1 & Hes1 & Hsame) & Hother & Hmoved).
    destruct (renameFolderSafe fs1 flt folder (allSuccess results) clock)
      as [fs2 [e2|]] eqn:Hmove.
    + apply renameFolderSafe_err in Hmove as ->. injection H as <- <-.
      split; [by rewrite Hes1|]. intros _. split_and!; [eauto | eauto | done].
    + injection H as <- <-. destruct (Hmoved fs2 eq_refl) as (Hgone & Hflt & Hfree & Hat).
      split; [eauto|]. rewrite Hgone. by intros [? ?].
Qed.

(** No failure is injected: [d_001] and [d_001_19700101T001640Z] are taken,
    the move fails and the folder stays, with its log. *)
Lemma move_failure_keeps_folder_pending_witness :
  done_taken_fs !! "r_001" = Some (Folder sample_entries) ∧
  processFolder line_encoder done_taken_fs no_faults "r_001" 2 b_first 1000
    = Returned done_taken_logged
        (Some "rename folder: os.Rename r_001 -> d_001_19700101T001640Z: file exists") ∧
  is_Some (done_taken_logged !! "r_001") ∧
  (∃ es', done_taken_logged !! "r_001" = Some (Folder es') ∧
          ∀ name, name ≠ "log.tmp" -> name ≠ "log.json" ->
                  es' !! name = sample_entries !! name) ∧
  (∀ other, other ≠ "r_001" -> done_taken_logged !! other = done_taken_fs !! other).
Proof.
  assert (H1 : done_taken_fs !! "r_001" = Some (Folder sample_entries)) by reflexivity.
  assert (H2 : processFolder line_encoder done_taken_fs no_faults "r_001" 2 b_first 1000
               = Returned done_taken_logged
                   (Some "rename folder: os.Rename r_001 -> d_001_19700101T001640Z: file exists"))
    by (vm_compute; reflexivity).
  assert (H3 : is_Some (done_taken_logged !! "r_001")) by (vm_compute; eauto).
  destruct (move_failure_keeps_folder_pending line_encoder done_taken_fs no_faults "r_001"
              sample_entries 2 b_first 1000 done_taken_logged _ H1 H2) as [_ Hstays].
  destruct (Hstays H3) as (_ & Hfiles & Hothers).
  split; [exact H1|]. split; [exact H2|]. split; [exact H3|].
  split; [exact Hfiles | exact Hothers].
Defined.

(** ** The verdict of a folder *)

Lemma processFile_status fs folder es name f clock :
  fs !! folder = Some (Folder es) ->
  es !! name = Some (RegFile f) ->
  Status (processFile fs (Join folder name) name clock).1 = "success" ↔ streams f.
Proof.
  intros Hes Hf. unfold processFile, os_Open, lookup_entry, Join, streams. simpl.
  rewrite Hes, Hf.
  destruct (open_error f) as [c1|]; simpl; [split; [done|by intros [? ?]]|].
  destruct (read_error f) as [c2|]; simpl; [split; [done|by intros [? ?]]|].
  done.
Qed.

Lemma allSuccess_streams fs folder es concurrency files sched results :
  fs !! folder = Some (Folder es) ->
  Name <$> files = scanned es ->
  pool_results fs folder concurrency files sched = Some results ->
  allSuccess results = true ↔ ∀ name f, es !! name = Some (RegFile f) -> streams f.
Proof.
  intros Hes Hfiles (Hnames & Hprod & _)%pool_results_inv.
  rewrite Hfiles in Hnames. rewrite allSuccess_spec, Forall_forall.
  rewrite Forall_forall in Hprod. split.
  - intros Hall name f Hf.
    assert (name ∈ Filename <$> results) as Hin.
    { rewrite Hnames. apply scanned_elem. eauto. }
    apply list_elem_of_fmap in Hin as (r & -> & Hr).
    destruct (Hprod r Hr) as [clock Hp].
    apply (processFile_status fs folder es (Filename r) f clock Hes Hf).
    rewrite <- Hp. by apply Hall.
  - intros Hall r Hr.
    assert (Filename r ∈ scanned es) as Hin.
    { rewrite <- Hnames. apply list_elem_of_fmap. eauto. }
    apply scanned_elem in Hin as [f Hf].
    destruct (Hprod r Hr) as [clock Hp]. rewrite Hp.
    apply (processFile_status fs folder es (Filename r) f clock Hes Hf). eauto.
Qed.

(** X15. A call of [processFolder] that returns no error has moved the
    folder to a name that starts with [d_] when every regular file of the
    folder opened and streamed without failure, and with [f_] when at least
    one did not. *)
Theorem verdict_follows_files json_MarshalIndent fs flt folder es concurrency sched
    clock fs' :
  fs !! folder = Some (Folder es) ->
  processFolder json_MarshalIndent fs flt folder concurrency sched clock
    = Returned fs' None ->
  ∃ verdict : bool,
    (verdict = true ↔
     ∀ name f, es !! name = Some (RegFile f) ->
               open_error f = None ∧ read_error f = None) ∧
    Text.HasPrefix (target_name fs folder verdict clock)
      (if verdict then "d_" else "f_") = true ∧
    is_Some (fs' !! target_name fs folder verdict clock) ∧
    fs' !! folder = None.
Proof.
  intros Hes H.
  destruct (processFolder_returned _ _ _ _ _ _ _ _ _ H)
    as [(cause & _ & _ & ?)|(es0 & results & Hes0 & Hdir & Hc & Hres)]; [done|].
  rewrite Hes in Hes0. injection Hes0 as <-.
  rewrite (processFolder_after_pool _ _ _ _ _ _ _ _ _ Hdir Hc Hres) in H.
  destruct (writeLogAtomic _ fs flt folder results) as [fs1 [e|]] eqn:Hlog.
  { by destruct (renameFolderSafe fs1 flt folder false clock) as [fs2 [e2|]]. }
  destruct (renameFolderSafe fs1 flt folder (allSuccess results) clock)
    as [fs2 [e2|]] eqn:Hmove; [done|]. injection H as <-.
  pose proof (writeLogAtomic_target _ _ _ _ _ _ _ folder (allSuccess results) clock Hlog)
    as Ht.
  apply writeLogAtomic_ok in Hlog as (es0 & data & Hes0 & Hdata & Hfs1).
  destruct (renameFolderSafe_folder fs1 flt folder
              (<["log.json" := RegFile (plain data)]> (delete "log.tmp" es0))
              (allSuccess results) clock fs2)
    as (Hfree & Hne & ->); [by rewrite Hfs1, lookup_insert_eq | done |].
  rewrite Ht in *.
  exists (allSuccess results). split_and!.
  - eapply allSuccess_streams; [exact Hes| |exact Hres]. reflexivity.
  - apply target_name_prefix.
  - rewrite lookup_insert_eq. eauto.
  - rewrite lookup_insert_ne by done. by rewrite lookup_delete_eq.
Qed.

Lemma verdict_follows_files_witness :
  locked_fs !! "r_002"
    = Some (Folder {[ "locked.bin" := RegFile (unreadable "permission denied") ]}) ∧
  processFolder line_encoder locked_fs no_faults "r_002" 4 (Pool.sequential 0 1) 1000
    = Returned locked_done None ∧
  ∃ verdict : bool,
    (verdict = true ↔
     ∀ name f,
       ({[ "locked.bin" := RegFile (unreadable "permission denied") ]} : gmap string entry)
         !! name = Some (RegFile f) ->
       open_error f = None ∧ read_error f = None) ∧
    Text.HasPrefix (target_name locked_fs "r_002" verdict 1000)
      (if verdict then "d_" else "f_") = true ∧
    is_Some (locked_done !! target_name locked_fs "r_002" verdict 1000) ∧
    locked_done !! "r_002" = None.
Proof.
  assert (H1 : locked_fs !! "r_002"
               = Some (Folder {[ "locked.bin" := RegFile (unreadable "permission denied") ]}))
    by reflexivity.
  assert (H2 : processFolder line_encoder locked_fs no_faults "r_002" 4
                 (Pool.sequential 0 1) 1000 = Returned locked_done None)
    by (vm_compute; reflexivity).
  split; [exact H1|]. split; [exact H2|].
  exact (verdict_follows_files line_encoder locked_fs no_faults "r_002" _ 4
           (Pool.sequential 0 1) 1000 locked_done H1 H2).
Defined.

(** ** Termination of processFolder *)

Section FolderRuns.
Variable json_MarshalIndent : list LogEntry -> result (list byte).

Lemma processFolder_in_turn fs flt folder concurrency clock0 clock :
  0 < concurrency ->
  (∀ es, fs !! folder = Some (Folder es) -> responsive es) ->
  ∃ fs' err,
    processFolder json_MarshalIndent fs flt folder concurrency
      (Pool.sequential clock0 (length (files_in fs folder))) clock = Returned fs' err.
Proof.
  intros Hc Hresp.
  destruct (os_ReadDir fs flt folder) as [dirEntries|cause] eqn:Hdir.
  2: { unfold processFolder. rewrite Hdir. eauto. }
  destruct (os_ReadDir_scanned _ _ _ _ Hdir) as (es & Hes & ->).
  unfold files_in. rewrite Hes.
  erewrite processFolder_after_pool; [|done|lia|].
  2: { unfold scanned. rewrite length_fmap. apply pool_results_sequential; [done|].
       apply (responsive_scanned fs folder es clock0 Hes), Hresp, Hes. }
  destruct (writeLogAtomic _ _ _ _ _) as [fs1 [e|]].
  - destruct (renameFolderSafe fs1 flt folder false clock) as [fs2 [e2|]]; eauto.
  - destruct (renameFolderSafe fs1 flt folder _ clock) as [fs2 [e2|]]; eauto.
Qed.

Lemma processFolder_panics fs flt folder concurrency sched clock :
  processFolder json_MarshalIndent fs flt folder concurrency sched clock = Panicked ->
  concurrency < 0.
Proof.
  unfold processFolder. destruct (os_ReadDir fs flt folder); [|done].
  destruct (Z.ltb_spec concurrency 0); [done|].
  destruct (pool_results _ _ _ _ _); [|done].
  destruct (writeLogAtomic _ _ _ _ _) as [fs1 [e|]].
  - by destruct (renameFolderSafe fs1 flt folder false clock) as [fs2 [e2|]].
  - by destruct (renameFolderSafe fs1 flt folder _ clock) as [fs2 [e2|]].
Qed.

End FolderRuns.

(** X16. With at least one slot, and in a folder where the opening and
    the reading of every regular file return, [processFolder] returns: the
    schedule that runs the files one after the other completes the pool,
    whatever else fails. *)
Theorem processFolder_terminates json_MarshalIndent fs flt folder es concurrency
    clock0 clock :
  0 < concurrency ->
  fs !! folder = Some (Folder es) ->
  responsive es ->
  ∃ fs' err,
    processFolder json_MarshalIndent fs flt folder concurrency
      (Pool.sequential clock0 (length (scanned es))) clock = Returned fs' err.
Proof.
  intros Hc Hes Hresp.
  destruct (processFolder_in_turn json_MarshalIndent fs flt folder concurrency clock0 clock Hc)
    as (fs' & err & Hrun).
  { intros es' Hes'. rewrite Hes in Hes'. by injection Hes' as <-. }
  unfold files_in in Hrun. rewrite Hes in Hrun. eauto.
Qed.

Lemma processFolder_terminates_witness :
  0 < 1 ∧
  sample_fs !! "r_001" = Some (Folder sample_entries) ∧
  responsive sample_entries ∧
  ∃ fs' err,
    processFolder line_encoder sample_fs no_faults "r_001" 1
      (Pool.sequential 0 (length (scanned sample_entries))) 1000 = Returned fs' err.
Proof.
  assert (H1 : 0 < 1) by lia.
  assert (H2 : sample_fs !! "r_001" = Some (Folder sample_entries)) by reflexivity.
  assert (H3 : responsive sample_entries)
    by (apply (bool_decide_unpack (responsive sample_entries)); vm_compute; exact I).
  split; [exact H1|]. split; [exact H2|]. split; [exact H3|].
  exact (processFolder_terminates line_encoder sample_fs no_faults "r_001" sample_entries
           1 0 1000 H1 H2 H3).
Defined.

(** X17. Called with no slot, [processFolder] never returns once the
    listing gave at least one regular file: with a capacity of zero the
    first [sem <- struct{}{}] blocks under every schedule, and with a
    negative capacity [make] panics. *)
Theorem no_slot_no_return json_MarshalIndent fs flt folder es concurrency sched clock :
  fs !! folder = Some (Folder es) ->
  readdir_fault flt = None ->
  scanned es ≠ [] ->
  concurrency <= 0 ->
  processFolder json_MarshalIndent fs flt folder concurrency sched clock
  = if concurrency <? 0 then Panicked else Unfinished.
Proof.
  intros Hes Hflt Hfiles Hc. unfold processFolder, os_ReadDir. rewrite Hflt, Hes.
  destruct (Z.ltb_spec concurrency 0) as [|Hge]; [done|].
  assert (concurrency = 0) as -> by lia.
  rewrite zero_slots_never_finish; [done|].
  intros Hnil. apply Hfiles. unfold scanned. by rewrite Hnil.
Qed.

Lemma no_slot_no_return_witness :
  sample_fs !! "r_001" = Some (Folder sample_entries) ∧
  readdir_fault no_faults = None ∧
  scanned sample_entries ≠ [] ∧
  0 <= 0 ∧
  processFolder line_encoder sample_fs no_faults "r_001" 0 b_first 1000 = Unfinished.
Proof.
  assert (H1 : sample_fs !! "r_001" = Some (Folder sample_entries)) by reflexivity.
  assert (H2 : readdir_fault no_faults = None) by reflexivity.
  assert (H3 : scanned sample_entries ≠ []) by (vm_compute; discriminate).
  assert (H4 : 0 <= 0) by lia.
  split; [exact H1|]. split; [exact H2|]. split; [exact H3|]. split; [exact H4|].
  exact (no_slot_no_return line_encoder sample_fs no_faults "r_001" sample_entries 0
           b_first 1000 H1 H2 H3 H4).
Defined.

(** ** Files that never answer *)

Lemma blocked_call fs folder es name f clock :
  fs !! folder = Some (Folder es) ->
  es !! name = Some (RegFile f) ->
  open_blocks f = true ∨ (open_error f = None ∧ read_blocks f = true) ->
  processFile_blocks fs (Join folder name) clock = true.
Proof.
  intros Hes Hf Hb.
  unfold processFile_blocks, os_Open_blocks, os_Open, lookup_entry, Join. simpl.
  rewrite Hes, Hf. destruct (open_blocks f); [done|].
  destruct Hb as [?|[-> Hr]]; done.
Qed.

Lemma returned_step fs folder concurrency a p q :
  Forall (returned fs folder) (Pool.computed p ++ Pool.resultsCh p) ->
  Pool.step fs folder concurrency a p = Some q ->
  Forall (returned fs folder) (Pool.computed q ++ Pool.resultsCh q).
Proof.
  intros Hinv Hstep. destruct a as [|i clock|j| |]; simpl in Hstep.
  - destruct (Pool.todo p) as [|f rest]; [done|].
    destruct (Z.of_nat (Pool.sem p) <? concurrency); [|done].
    by injection Hstep as <-.
  - destruct (Pool.hashing p !! i) as [fname|]; [|done].
    destruct (processFile_blocks fs (Join folder fname) clock) eqn:Hb; [done|].
    injection Hstep as <-. simpl.
    apply Forall_app in Hinv as [H1 H2]. rewrite !Forall_app. split_and!; [done| |done].
    constructor; [|done]. exists clock. by rewrite processFile_Filename.
  - destruct (Pool.computed p !! j) as [entry|] eqn:Hj; [|done].
    injection Hstep as <-. simpl.
    rewrite (delete_Permutation _ _ _ Hj) in Hinv.
    revert Hinv. rewrite !Forall_app, !Forall_cons, Forall_nil. tauto.
  - destruct (Pool.sent p); [done|]. destruct (Pool.sem p); [done|].
    by injection Hstep as <-.
  - destruct (Pool.released p); [done|]. destruct (Pool.wg p); [done|].
    by injection Hstep as <-.
Qed.

Lemma returned_run fs folder concurrency sched p q :
  Forall (returned fs folder) (Pool.computed p ++ Pool.resultsCh p) ->
  Pool.run fs folder concurrency sched p = Some q ->
  Forall (returned fs folder) (Pool.computed q ++ Pool.resultsCh q).
Proof.
  revert p. induction sched as [|a sched IH]; intros p Hinv Hrun; simpl in Hrun.
  - by injection Hrun as <-.
  - destruct (Pool.step fs folder concurrency a p) as [p'|] eqn:Hstep; [|done].
    eauto using returned_step.
Qed.

(** X26. A folder that holds a regular file whose opening never returns,
    or that opens and whose reading never returns (a FIFO without a writer),
    is never finished: under every schedule and for every number of slots,
    [processFolder] does not return, since [wg.Wait()] waits for the
    goroutine of that file. *)
Theorem blocked_file_blocks_folder json_MarshalIndent fs flt folder es name f
    concurrency sched clock :
  fs !! folder = Some (Folder es) ->
  readdir_fault flt = None ->
  es !! name = Some (RegFile f) ->
  open_blocks f = true ∨ (open_error f = None ∧ read_blocks f = true) ->
  processFolder json_MarshalIndent fs flt folder concurrency sched clock
  = if concurrency <? 0 then Panicked else Unfinished.
Proof.
  intros Hes Hflt Hf Hb. unfold processFolder, os_ReadDir. rewrite Hflt, Hes.
  destruct (concurrency <? 0); [done|].
  destruct (pool_results _ _ _ _ _) as [results|] eqn:Hres; [|done].
  exfalso. unfold pool_results in Hres.
  destruct (Pool.run _ _ _ _ _) as [p|] eqn:Hrun; [|done].
  destruct (Pool.finished p) eqn:Hfin; [|done].
  pose proof (pool_reachable_inv _ _ _ _ _ _ Hrun) as Hinv.
  destruct (pool_finished_inv _ _ _ _ _ Hinv Hfin) as (_ & Hc & _ & Hnames & _).
  assert (Forall (returned fs folder) (Pool.computed p ++ Pool.resultsCh p)) as Hret.
  { eapply returned_run; [|exact Hrun]. constructor. }
  rewrite Hc in Hret. simpl in Hret.
  assert (name ∈ Filename <$> Pool.resultsCh p) as Hin.
  { rewrite Hnames. apply (scanned_elem es). eauto. }
  apply list_elem_of_fmap in Hin as (e & -> & He).
  rewrite Forall_forall in Hret. destruct (Hret e He) as [c0 Hc0].
  by rewrite (blocked_call fs folder es (Filename e) f c0 Hes Hf Hb) in Hc0.
Qed.

Lemma blocked_file_blocks_folder_witness :
  fifo_fs !! "r_006"
    = Some (Folder {[ "a.txt" := RegFile (readable "hello"); "pipe" := RegFile fifo ]}) ∧
  readdir_fault no_faults = None ∧
  ({[ "a.txt" := RegFile (readable "hello"); "pipe" := RegFile fifo ]}
     : gmap string entry) !! "pipe" = Some (RegFile fifo) ∧
  (open_blocks fifo = true ∨ (open_error fifo = None ∧ read_blocks fifo = true)) ∧
  processFolder line_encoder fifo_fs no_faults "r_006" 2
    [Pool.Dispatch; Pool.Dispatch; Pool.Hash 0 0; Pool.Send 0; Pool.Release; Pool.Done] 1000
  = Unfinished.
Proof.
  assert (H1 : fifo_fs !! "r_006"
               = Some (Folder {[ "a.txt" := RegFile (readable "hello");
                                 "pipe" := RegFile fifo ]})) by reflexivity.
  assert (H2 : readdir_fault no_faults = None) by reflexivity.
  assert (H3 : ({[ "a.txt" := RegFile (readable "hello"); "pipe" := RegFile fifo ]}
                  : gmap string entry) !! "pipe" = Some (RegFile fifo))
    by (vm_compute; reflexivity).
  assert (H4 : open_blocks fifo = true ∨ (open_error fifo = None ∧ read_blocks fifo = true))
    by (left; reflexivity).
  split; [exact H1|]. split; [exact H2|]. split; [exact H3|]. split; [exact H4|].
  exact (blocked_file_blocks_folder line_encoder fifo_fs no_faults "r_006" _ "pipe" fifo 2
           [Pool.Dispatch; Pool.Dispatch; Pool.Hash 0 0; Pool.Send 0; Pool.Release; Pool.Done]
           1000 H1 H2 H3 H4).
Defined.

(** ** The targets of a batch *)

Global Instance node_le_total : Total node_le.
Proof. intros a b. unfold node_le. apply (total String.le). Qed.

Global Instance node_le_trans : Transitive node_le.
Proof. intros a b c. unfold node_le. apply (transitivity (R := String.le)). Qed.

Lemma find_targets_names (l : list (string * node)) :
  find_targets (node_DirEntry <$> l) = (filter (λ nn, is_target nn = true) l).*1.
Proof.
  induction l as [|[n x] l IH]; [done|].
  rewrite fmap_cons, filter_cons.
  destruct (decide (is_target (n, x) = true)) as [Ht|Ht];
    unfold is_target in Ht; destruct x as [|es]; simpl in Ht; try done.
  - cbn. rewrite Ht. by f_equal.
  - apply not_true_is_false in Ht. cbn. by rewrite Ht.
Qed.

Lemma targets_elem fs name : name ∈ targets fs ↔ pending fs name.
Proof.
  unfold targets, pending. rewrite find_targets_names, list_elem_of_fmap. split.
  - intros ([n x] & -> & Hin). apply list_elem_of_filter in Hin as [Ht Hin].
    rewrite merge_sort_Permutation in Hin. apply elem_of_map_to_list in Hin.
    unfold is_target in Ht. simpl in *. destruct x as [|es]; [done|]. eauto.
  - intros [Hp [es Hes]]. exists (name, Folder es). split; [done|].
    apply list_elem_of_filter. split; [done|].
    rewrite merge_sort_Permutation. by apply elem_of_map_to_list.
Qed.

Lemma targets_NoDup fs : NoDup (targets fs).
Proof.
  unfold targets. rewrite find_targets_names.
  eapply sublist_NoDup; [|apply fmap_sublist, sublist_filter].
  rewrite merge_sort_Permutation. apply NoDup_fst_map_to_list.
Qed.

Lemma targets_Sorted fs : Sorted String.le (targets fs).
Proof.
  unfold targets. rewrite find_targets_names.
  apply StronglySorted_Sorted.
  apply (StronglySorted_fmap _ node_le); [done|].
  apply StronglySorted_filter.
  apply Sorted_StronglySorted; [apply _|]. apply Sorted_merge_sort; apply _.
Qed.

(** ** The loop of processAll *)

Section BatchFacts.
Variable json_MarshalIndent : list LogEntry -> result (list byte).
Variable env : string -> folder_run.

Lemma process_targets_spec ts concurrency fs rep input' rep' err :
  process_targets json_MarshalIndent env ts concurrency fs rep
    = BatchReturned input' rep' err ->
  err = None ∧
  ∃ fs' new,
    input' = InputDir fs' ∧ rep' = rep ++ new ∧
    (∀ name n, name ∉ ts -> fs !! name = Some n -> fs' !! name = Some n) ∧
    (∀ name, Text.HasPrefix name "r_" = true -> fs !! name = None -> fs' !! name = None) ∧
    (∀ name n, Text.HasPrefix name "r_" = true -> name ∉ ts ->
               fs' !! name = Some n -> fs !! name = Some n) ∧
    (∀ name, name ∈ ts -> Text.HasPrefix name "r_" = true -> is_Some (fs' !! name) ->
             ∃ e, report name e ∈ new) ∧
    (∀ line, line ∈ new -> ∃ folder e, folder ∈ ts ∧ line = report folder e).
Proof.
  revert fs rep. induction ts as [|folder rest IH]; intros fs rep H; simpl in H.
  { injection H as <- <- <-. split; [done|]. exists fs, [].
    split_and!; [done|by rewrite app_nil_r|done..| |].
    - intros name Hin. by apply elem_of_nil in Hin.
    - intros line Hin. by apply elem_of_nil in Hin. }
  destruct (processFolder _ fs _ folder concurrency _ _) as [fs1 oe| |] eqn:Hrun;
    [|done..].
  pose proof (processFolder_effect _ _ _ _ _ _ _ _ _ Hrun) as He.
  destruct oe as [e|].
  - destruct (IH _ _ H) as (-> & fs' & new & -> & -> & Hkeep & Hnone & Hfrom & Hrep & Hlines).
    split; [done|]. exists fs', (report folder e :: new).
    split_and!; [done|by rewrite <- (assoc_L (++))|..].
    + intros name n [Hne Hnin]%not_elem_of_cons Hn.
      apply Hkeep; [done|]. by eapply folder_effect_other.
    + intros name Hp Hn. apply Hnone; [done|]. by eapply folder_effect_no_pending.
    + intros name n Hp [Hne Hnin]%not_elem_of_cons Hn.
      eapply folder_effect_from; [done..|]. by eapply Hfrom.
    + intros name Hin Hp Hsome.
      destruct (decide (name = folder)) as [->|Hne].
      * exists e. by left.
      * apply elem_of_cons in Hin as [?|Hin]; [done|].
        destruct (Hrep name Hin Hp Hsome) as [e' He']. exists e'. by right.
    + intros line [->|Hin]%elem_of_cons.
      * exists folder, e. split; [by left | done].
      * destruct (Hlines line Hin) as (f & e' & Hf & ->).
        exists f, e'. split; [by right | done].
  - destruct (IH _ _ H) as (-> & fs' & new & -> & -> & Hkeep & Hnone & Hfrom & Hrep & Hlines).
    split; [done|]. exists fs', new.
    split_and!; [done..| | | | |].
    + intros name n [Hne Hnin]%not_elem_of_cons Hn.
      apply Hkeep; [done|]. by eapply folder_effect_other.
    + intros name Hp Hn. apply Hnone; [done|]. by eapply folder_effect_no_pending.
    + intros name n Hp [Hne Hnin]%not_elem_of_cons Hn.
      eapply folder_effect_from; [done..|]. by eapply Hfrom.
    + intros name Hin Hp Hsome.
      destruct (decide (name = folder)) as [->|Hne].
      * apply folder_effect_moved_away in He.
        rewrite (Hnone folder Hp He) in Hsome. by destruct Hsome.
      * apply elem_of_cons in Hin as [?|Hin]; [done|]. by apply Hrep.
    + intros line Hin. destruct (Hlines line Hin) as (f & e' & Hf & ->).
      exists f, e'. split; [by right | done].
Qed.

Lemma processAll_listed inputDir fs concurrency :
  processAll json_MarshalIndent env inputDir (InputDir fs) None concurrency
  = process_targets json_MarshalIndent env (targets fs) concurrency fs [].
Proof. done. Qed.

End BatchFacts.

(** ** processAll *)

(** X18. The folders [processAll] selects are exactly the directories of
    the input directory whose name starts with [r_]: plain files and
    directories with another prefix are skipped. Each is selected once, in
    ascending order of names. *)
Theorem targets_are_pending_directories fs :
  os_ReadDir_input (InputDir fs) None
    = Ok (node_DirEntry <$> merge_sort node_le (map_to_list fs)) ∧
  (∀ name, name ∈ targets fs ↔
           Text.HasPrefix name "r_" = true ∧ ∃ es, fs !! name = Some (Folder es)) ∧
  NoDup (targets fs) ∧
  Sorted String.le (targets fs).
Proof.
  split_and!; [done|apply targets_elem|apply targets_NoDup|apply targets_Sorted].
Qed.

Section BatchListed.
Variable json_MarshalIndent : list LogEntry -> result (list byte).
Variable env : string -> folder_run.

Lemma processAll_unlisted inputDir fs cause concurrency :
  processAll json_MarshalIndent env inputDir (InputDir fs) (Some cause) concurrency
  = BatchReturned (InputDir fs) [] (Some (wrap "read input dir" cause)).
Proof. done. Qed.

Lemma processAll_listed_spec inputDir fs concurrency input' rep err :
  processAll json_MarshalIndent env inputDir (InputDir fs) None concurrency
    = BatchReturned input' rep err ->
  err = None ∧
  ∃ fs',
    input' = InputDir fs' ∧
    (∀ name n, name ∉ targets fs -> fs !! name = Some n -> fs' !! name = Some n) ∧
    (∀ name es, Text.HasPrefix name "r_" = true -> fs' !! name = Some (Folder es) ->
                ∃ e, report name e ∈ rep) ∧
    (∀ line, line ∈ rep -> ∃ folder e, folder ∈ targets fs ∧ line = report folder e).
Proof.
  rewrite processAll_listed.
  intros (-> & fs' & new & -> & -> & Hkeep & Hnone & Hfrom & Hrep & Hlines)%process_targets_spec.
  split; [done|]. exists fs'. split_and!; [done..| |done].
  intros name es Hp Hes.
  destruct (decide (name ∈ targets fs)) as [Hin|Hnin].
  - apply Hrep; [done..|]. eauto.
  - exfalso. apply Hnin, targets_elem. split; [done|].
    exists es. by eapply Hfrom.
Qed.

End BatchListed.

Section BatchTheorems.
Variable json_MarshalIndent : list LogEntry -> result (list byte).
Variable env : string -> folder_run.

(** X19. [processAll] returns an error only when the input path cannot be
    examined, is not a directory or cannot be listed; then nothing was
    processed. Otherwise it returns [nil], whatever happened in the
    folders: the failure of a folder never aborts the batch. *)
Theorem processAll_error_only_from_input inputDir input fault concurrency input' rep err :
  processAll json_MarshalIndent env inputDir input fault concurrency
    = BatchReturned input' rep err ->
  err = match input, fault with
        | NoInput cause, _ => Some ("input dir check: " +:+ cause)
        | InputFile, _ => Some ("input path is not a directory: " +:+ inputDir)
        | InputDir _, Some cause => Some ("read input dir: " +:+ cause)
        | InputDir _, None => None
        end ∧
  (is_Some err -> input' = input ∧ rep = []).
Proof.
  destruct input as [cause| |fs]; [by intros [= <- <- <-]..|].
  destruct fault as [cause|].
  - rewrite processAll_unlisted. by intros [= <- <- <-].
  - intros [-> _]%processAll_listed_spec. split; [done|]. by intros [? ?].
Qed.

(** X20. A batch changes, removes or replaces no entry of the input
    directory other than the directories whose name starts with [r_]. *)
Theorem processAll_keeps_non_targets inputDir fs fault concurrency input' rep err :
  processAll json_MarshalIndent env inputDir (InputDir fs) fault concurrency
    = BatchReturned input' rep err ->
  ∃ fs', input' = InputDir fs' ∧
    ∀ name n, fs !! name = Some n ->
              ¬ (Text.HasPrefix name "r_" = true ∧ ∃ es, n = Folder es) ->
              fs' !! name = Some n.
Proof.
  destruct fault as [cause|].
  { rewrite processAll_unlisted. intros [= <- <- <-]. eauto. }
  intros (_ & fs' & -> & Hkeep & _)%processAll_listed_spec.
  exists fs'. split; [done|]. intros name n Hn Hnot. apply Hkeep; [|done].
  intros [Hp [es Hes]]%targets_elem. apply Hnot. split; [done|].
  exists es. congruence.
Qed.

(** X21. After a batch, every directory that still carries the pending
    marker [r_] is one for which [processAll] printed a processing error;
    and every line it printed is about a folder it selected. *)
Theorem still_pending_is_reported inputDir fs fault concurrency fs' rep err :
  processAll json_MarshalIndent env inputDir (InputDir fs) fault concurrency
    = BatchReturned (InputDir fs') rep err ->
  err = None ->
  (∀ name es, Text.HasPrefix name "r_" = true -> fs' !! name = Some (Folder es) ->
              ∃ e, report name e ∈ rep) ∧
  (∀ line, line ∈ rep ->
           ∃ folder e, line = report folder e ∧ Text.HasPrefix folder "r_" = true ∧
                       ∃ es, fs !! folder = Some (Folder es)).
Proof.
  destruct fault as [cause|].
  { rewrite processAll_unlisted. by intros [= <- <- <-]. }
  intros (_ & fs2 & [= <-] & _ & Hrep & Hlines)%processAll_listed_spec _.
  split; [exact Hrep|].
  intros line Hin. destruct (Hlines line Hin) as (folder & e & Hf & ->).
  apply targets_elem in Hf as [Hp Hes]. eauto.
Qed.

(** X22. A batch that printed no processing error leaves no directory with
    the pending marker: every finalized name starts with [d_] or [f_], so a
    second batch selects nothing and changes nothing, whatever its
    environment and its concurrency. *)
Theorem clean_batch_is_final inputDir fs fault concurrency input' :
  processAll json_MarshalIndent env inputDir (InputDir fs) fault concurrency
    = BatchReturned input' [] None ->
  ∃ fs', input' = InputDir fs' ∧ targets fs' = [] ∧
    ∀ env' inputDir' concurrency',
      processAll json_MarshalIndent env' inputDir' input' None concurrency'
      = BatchReturned input' [] None.
Proof.
  destruct fault as [cause|]; [by rewrite processAll_unlisted|].
  intros (_ & fs' & -> & _ & Hrep & _)%processAll_listed_spec.
  assert (targets fs' = []) as Hnil.
  { apply elem_of_nil_inv. intros name [Hp [es Hes]]%targets_elem.
    destruct (Hrep name es Hp Hes) as [e He]. by apply elem_of_nil in He. }
  exists fs'. split_and!; [done..|].
  intros env' inputDir' c'. by rewrite processAll_listed, Hnil.
Qed.

End BatchTheorems.

Lemma processAll_error_only_from_input_witness :
  processAll line_encoder failing_env "./input" (InputDir batch_fs) None 2
    = BatchReturned (InputDir batch_partial)
        ["folder r_001: processing error: read folder: permission denied"] None ∧
  (None : option string) = None ∧
  (is_Some (None : option string) ->
   InputDir batch_partial = InputDir batch_fs ∧
   ["folder r_001: processing error: read folder: permission denied"] = []).
Proof.
  assert (H : processAll line_encoder failing_env "./input" (InputDir batch_fs) None 2
              = BatchReturned (InputDir batch_partial)
                  ["folder r_001: processing error: read folder: permission denied"] None)
    by (vm_compute; reflexivity).
  split; [exact H|].
  exact (processAll_error_only_from_input line_encoder failing_env "./input"
           (InputDir batch_fs) None 2 _ _ _ H).
Defined.

Lemma processAll_keeps_non_targets_witness :
  processAll line_encoder batch_env "./input" (InputDir batch_fs) None 2
    = BatchReturned (InputDir batch_done) [] None ∧
  ∃ fs', InputDir batch_done = InputDir fs' ∧
    ∀ name n, batch_fs !! name = Some n ->
              ¬ (Text.HasPrefix name "r_" = true ∧ ∃ es, n = Folder es) ->
              fs' !! name = Some n.
Proof.
  assert (H : processAll line_encoder batch_env "./input" (InputDir batch_fs) None 2
              = BatchReturned (InputDir batch_done) [] None)
    by (vm_compute; reflexivity).
  split; [exact H|].
  exact (processAll_keeps_non_targets line_encoder batch_env "./input" batch_fs None 2
           _ _ _ H).
Defined.

Lemma still_pending_is_reported_witness :
  processAll line_encoder failing_env "./input" (InputDir batch_fs) None 2
    = BatchReturned (InputDir batch_partial)
        ["folder r_001: processing error: read folder: permission denied"] None ∧
  (None : option string) = None ∧
  (∀ name es, Text.HasPrefix name "r_" = true -> batch_partial !! name = Some (Folder es) ->
              ∃ e, report name e
                   ∈ ["folder r_001: processing error: read folder: permission denied"]).
Proof.
  assert (H : processAll line_encoder failing_env "./input" (InputDir batch_fs) None 2
              = BatchReturned (InputDir batch_partial)
                  ["folder r_001: processing error: read folder: permission denied"] None)
    by (vm_compute; reflexivity).
  split; [exact H|]. split; [reflexivity|].
  exact (proj1 (still_pending_is_reported line_encoder failing_env "./input" batch_fs None 2
                  batch_partial _ None H eq_refl)).
Defined.

Lemma clean_batch_is_final_witness :
  processAll line_encoder batch_env "./input" (InputDir batch_fs) None 2
    = BatchReturned (InputDir batch_done) [] None ∧
  ∃ fs', InputDir batch_done = InputDir fs' ∧ targets fs' = [] ∧
    ∀ env' inputDir' concurrency',
      processAll line_encoder env' inputDir' (InputDir batch_done) None concurrency'
      = BatchReturned (InputDir batch_done) [] None.
Proof.
  assert (H : processAll line_encoder batch_env "./input" (InputDir batch_fs) None 2
              = BatchReturned (InputDir batch_done) [] None)
    by (vm_compute; reflexivity).
  split; [exact H|].
  exact (clean_batch_is_final line_encoder batch_env "./input" batch_fs None 2 _ H).
Defined.

(** ** Termination of a batch *)

Section BatchRuns.
Variable json_MarshalIndent : list LogEntry -> result (list byte).
Variable env : string -> folder_run.

Lemma process_targets_no_panic ts concurrency fs rep :
  0 <= concurrency ->
  process_targets json_MarshalIndent env ts concurrency fs rep ≠ BatchPanicked.
Proof.
  intros Hc. revert fs rep. induction ts as [|folder rest IH]; intros fs rep; [done|].
  simpl. destruct (processFolder _ _ _ _ _ _ _) as [fs1 [e|]| |] eqn:Hrun; [done..| |done].
  apply processFolder_panics in Hrun. lia.
Qed.

Lemma process_targets_in_turn fs0 ts concurrency fs rep :
  0 < concurrency ->
  NoDup ts ->
  Forall (λ f, Text.HasPrefix f "r_" = true) ts ->
  (∀ f es, f ∈ ts -> fs0 !! f = Some (Folder es) -> responsive es) ->
  (∀ f, f ∈ ts -> fs !! f = fs0 !! f) ->
  ∃ fs' rep',
    process_targets json_MarshalIndent (in_turn fs0 env) ts concurrency fs rep
    = BatchReturned (InputDir fs') rep' None.
Proof.
  intros Hc. revert fs rep.
  induction ts as [|folder rest IH]; intros fs rep Hnd Hpre Hresp Hsame; [simpl; eauto|].
  apply NoDup_cons in Hnd as [Hnin Hnd]. apply Forall_cons in Hpre as [Hp Hpre].
  simpl.
  assert (files_in fs0 folder = files_in fs folder) as ->.
  { unfold files_in. rewrite Hsame; [done | by left]. }
  destruct (processFolder_in_turn json_MarshalIndent fs (run_faults (env folder)) folder
              concurrency 0 (run_clock (env folder)) Hc) as (fs1 & err & Hrun).
  { intros es Hes. apply (Hresp folder); [by left|]. rewrite <- Hsame; [done | by left]. }
  rewrite Hrun.
  pose proof (processFolder_effect _ _ _ _ _ _ _ _ _ Hrun) as He.
  assert (∀ f, f ∈ rest -> fs1 !! f = fs0 !! f) as Hsame1.
  { intros f Hf. rewrite <- Hsame by (by right).
    assert (f ≠ folder) as Hne by (intros ->; done).
    destruct (fs !! f) as [n|] eqn:Hn.
    - by eapply folder_effect_other.
    - eapply folder_effect_no_pending; [done| |done].
      rewrite Forall_forall in Hpre. by apply Hpre. }
  assert (∀ f es, f ∈ rest -> fs0 !! f = Some (Folder es) -> responsive es) as Hresp1.
  { intros f es Hf. apply Hresp. by right. }
  destruct err as [e|]; by apply IH.
Qed.

(** ** main *)

(** X23. [main] never panics, whatever the flags, the input and the
    failures: a value of [-concurrency] that is not positive is replaced by
    1, so the process behaves exactly as with [-concurrency 1]. *)
Theorem main_never_panics args input fault :
  main json_MarshalIndent env args input fault ≠ Panic ∧
  (concurrency_flag args <= 0 ->
   main json_MarshalIndent env args input fault
   = main json_MarshalIndent env
       {| input_flag := input_flag args; concurrency_flag := 1; v_flag := v_flag args |}
       input fault).
Proof.
  split.
  - unfold main.
    set (c := if concurrency_flag args <=? 0 then 1 else concurrency_flag args).
    assert (0 <= c) as Hc by (subst c; destruct (Z.leb_spec (concurrency_flag args) 0); lia).
    destruct (processAll _ _ _ _ _ c) as [input' rep [e|]| |] eqn:Hrun; [done..| |done].
    exfalso. revert Hrun. unfold processAll.
    destruct (os_Stat_input input) as [[|]|]; simpl; [|done..].
    destruct (os_ReadDir_input input fault); [|done].
    by apply process_targets_no_panic.
  - intros Hle. unfold main. simpl.
    destruct (Z.leb_spec (concurrency_flag args) 0); [done | lia].
Qed.

(** X24. The exit status of the process is 1 when the input path cannot
    be examined, is not a directory or cannot be listed; then nothing was
    touched and the one line printed is [ERROR:] followed by the error of
    [processAll]. In every other case the status is 0, also when folders
    failed. *)
Theorem main_exit_status args input fault status input' lines :
  main json_MarshalIndent env args input fault = Exit status input' lines ->
  match input, fault with
  | NoInput cause, _ =>
      status = 1 ∧ input' = input ∧ lines = ["ERROR: input dir check: " +:+ cause]
  | InputFile, _ =>
      status = 1 ∧ input' = input ∧
      lines = ["ERROR: input path is not a directory: " +:+ input_flag args]
  | InputDir _, Some cause =>
      status = 1 ∧ input' = input ∧ lines = ["ERROR: read input dir: " +:+ cause]
  | InputDir _, None => status = 0
  end.
Proof.
  unfold main.
  destruct (processAll _ _ _ _ _ _) as [input2 rep err| |] eqn:Hrun; [|done..].
  destruct input as [cause| |fs].
  - injection Hrun as <- <- <-. by intros [= <- <- <-].
  - injection Hrun as <- <- <-. by intros [= <- <- <-].
  - destruct fault as [cause|].
    + rewrite processAll_unlisted in Hrun. injection Hrun as <- <- <-.
      by intros [= <- <- <-].
    + apply processAll_listed_spec in Hrun as [-> _].
      by intros [= <- <- <-].
Qed.

(** X25. [main] terminates when the opening and the reading of every
    regular file of the pending folders return: with the goroutines of each
    folder running one after the other, the process exits, whatever lies at
    the input path and whatever else fails in the folders. *)
Theorem main_terminates args input fault :
  (∀ folder es, content_of input !! folder = Some (Folder es) ->
                Text.HasPrefix folder "r_" = true -> responsive es) ->
  ∃ status input' lines,
    main json_MarshalIndent (in_turn (content_of input) env) args input fault
    = Exit status input' lines.
Proof.
  intros Hresp. unfold main.
  set (c := if concurrency_flag args <=? 0 then 1 else concurrency_flag args).
  assert (0 < c) as Hc by (subst c; destruct (Z.leb_spec (concurrency_flag args) 0); lia).
  destruct input as [cause| |fs]; [simpl; eauto..|].
  destruct fault as [cause|]; [rewrite processAll_unlisted; eauto|].
  rewrite processAll_listed. simpl content_of in *.
  destruct (process_targets_in_turn fs (targets fs) c fs [] Hc) as (fs' & rep' & ->).
  - apply targets_NoDup.
  - apply Forall_forall. by intros f [Hp _]%targets_elem.
  - intros f es [Hp _]%targets_elem Hes. by apply (Hresp f).
  - done.
  - eauto.
Qed.

End BatchRuns.

Lemma main_never_panics_witness :
  main line_encoder batch_env sample_flags (InputDir batch_fs) None ≠ Panic ∧
  (concurrency_flag sample_flags <= 0 ->
   main line_encoder batch_env sample_flags (InputDir batch_fs) None
   = main line_encoder batch_env
       {| input_flag := "./input"; concurrency_flag := 1; v_flag := false |}
       (InputDir batch_fs) None).
Proof.
  exact (main_never_panics line_encoder batch_env sample_flags (InputDir batch_fs) None).
Defined.

Lemma main_exit_status_witness :
  main line_encoder failing_env sample_flags (InputDir batch_fs) None
    = Exit 0 (InputDir batch_partial)
        ["folder r_001: processing error: read folder: permission denied"] ∧
  main line_encoder failing_env sample_flags InputFile None
    = Exit 1 InputFile ["ERROR: input path is not a directory: ./input"] ∧
  0 = 0.
Proof.
  assert (H : main line_encoder failing_env sample_flags (InputDir batch_fs) None
              = Exit 0 (InputDir batch_partial)
                  ["folder r_001: processing error: read folder: permission denied"])
    by (vm_compute; reflexivity).
  split; [exact H|]. split; [reflexivity|].
  exact (main_exit_status line_encoder failing_env sample_flags (InputDir batch_fs) None
           _ _ _ H).
Defined.

Lemma main_terminates_witness :
  (∀ folder es, content_of (InputDir sample_fs) !! folder = Some (Folder es) ->
                Text.HasPrefix folder "r_" = true -> responsive es) ∧
  ∃ status input' lines,
    main line_encoder (in_turn (content_of (InputDir sample_fs)) batch_env) sample_flags
      (InputDir sample_fs) None
    = Exit status input' lines.
Proof.
  assert (Hr : responsive sample_entries)
    by (apply (bool_decide_unpack (responsive sample_entries)); vm_compute; exact I).
  assert (H : ∀ folder es, content_of (InputDir sample_fs) !! folder = Some (Folder es) ->
                           Text.HasPrefix folder "r_" = true -> responsive es).
  { intros folder es Hes _. simpl in Hes. unfold sample_fs in Hes.
    apply lookup_singleton_Some in Hes as [_ Hes].
    injection Hes as <-. exact Hr. }
  split; [exact H|].
  exact (main_terminates line_encoder batch_env sample_flags (InputDir sample_fs) None H).
Defined.
